(** * MA Stars structural modelling: exposure weighting and decomposition

    A shallow embedding of the batch pipeline of the repository:

    - [05_build_weights.py]                 -> [Weights]
    - [07_build_poverty_exposure.py]        -> [Renorm], [Poverty]
    - [11_build_rural_exposure.py]          -> [Renorm], [Rural]
    - [16_build_hpsa_exposure.py]           -> [Hpsa]
    - [08_build_near_threshold_analysis.py] -> [NearThreshold]
    - [14_model_full_stars.py]              -> [FullStars]
    - [09_threshold_stats.py]               -> [Bootstrap]

    Tables are lists of records (SQL bags: order and duplicates are kept),
    a nullable column is an [option], and the DOUBLE columns of the
    database are exact rationals [Q]: sums, products and quotients are the
    mathematical ones, so a numeric statement about these tables is a
    statement about exact arithmetic.  Logarithms and the logistic
    function live in [R].  No division by zero is ever evaluated: the
    window total of a retained row is positive, and the exposure quotient
    is guarded by [denom > 0].

    The module [Binary64] runs the expressions of stages 05, 07 and 14 on
    binary64 numbers; the statements about the last digit of a result are
    made there. *)

From Stdlib Require Import List String ZArith QArith Qabs Lia Lqa Bool.
From Stdlib Require Import Reals Qreals Qround Lra Permutation Sorted.
From Stdlib Require PrimFloat Uint63.
Import ListNotations.

Local Open Scope Q_scope.

(** ** SQL building blocks shared by the stages *)

Module Sql.

(** The grouping key [(contract_id, year)] used by every stage. *)
Definition Key : Type := (string * Z)%type.

Definition key_eqb (a b : Key) : bool :=
  String.eqb (fst a) (fst b) && Z.eqb (snd a) (snd b).

Definition key_eq_dec (a b : Key) : {a = b} + {a <> b}.
Proof. decide equality; [apply Z.eq_dec | apply string_dec]. Defined.

(** [PARTITION BY key] / the rows of one group of [GROUP BY key]. *)
Definition partition {A : Type} (key : A -> Key) (k : Key) (rows : list A)
  : list A :=
  filter (fun r => key_eqb (key r) k) rows.

(** [GROUP BY key]: one entry per distinct key, with the rows of that key. *)
Definition group_by {A : Type} (key : A -> Key) (rows : list A)
  : list (Key * list A) :=
  map (fun k => (k, partition key k rows)) (nodup key_eq_dec (map key rows)).

(** [SUM] over a nullable column: NULLs are skipped, and the result is
    NULL when no non-NULL value was seen. *)
Fixpoint sql_sum (xs : list (option Q)) : option Q :=
  match xs with
  | [] => None
  | x :: rest =>
      match x, sql_sum rest with
      | None, s => s
      | Some v, None => Some v
      | Some v, Some s => Some (v + s)
      end
  end.

Fixpoint sql_sumZ (xs : list (option Z)) : option Z :=
  match xs with
  | [] => None
  | x :: rest =>
      match x, sql_sumZ rest with
      | None, s => s
      | Some v, None => Some v
      | Some v, Some s => Some (v + s)%Z
      end
  end.

(** [MAX] over a nullable column. *)
Fixpoint sql_max (xs : list (option Q)) : option Q :=
  match xs with
  | [] => None
  | x :: rest =>
      match x, sql_max rest with
      | None, m => m
      | Some v, None => Some v
      | Some v, Some m => Some (if Qle_bool m v then v else m)
      end
  end.

Fixpoint sql_maxZ (xs : list (option Z)) : option Z :=
  match xs with
  | [] => None
  | x :: rest =>
      match x, sql_maxZ rest with
      | None, m => m
      | Some v, None => Some v
      | Some v, Some m => Some (Z.max v m)
      end
  end.

(** NULL-propagating arithmetic. *)
Definition sql_mul (a b : option Q) : option Q :=
  match a, b with Some x, Some y => Some (x * y) | _, _ => None end.

Definition sql_div (a b : option Q) : option Q :=
  match a, b with Some x, Some y => Some (x / y) | _, _ => None end.

(** A comparison with NULL is NULL, which a [WHERE] or a [CASE WHEN]
    treats as not satisfied. *)
Definition sql_gt0 (a : option Q) : bool :=
  match a with Some x => negb (Qle_bool x 0) | None => false end.

Definition sql_eq0 (a : option Q) : bool :=
  match a with Some x => Qeq_bool x 0 | None => false end.

(** Equality of nullable rationals up to [Qeq]. *)
Definition oQeq (a b : option Q) : Prop :=
  match a, b with
  | Some x, Some y => x == y
  | None, None => True
  | _, _ => False
  end.

(** [l LEFT JOIN r ON on]: every left row is paired with each right row
    it matches, or once with NULLs when it matches none. *)
Definition left_join {A B C : Type} (on : A -> B -> bool)
    (select : A -> option B -> C) (l : list A) (r : list B) : list C :=
  flat_map (fun a =>
              match filter (on a) r with
              | [] => [select a None]
              | matches => map (fun b => select a (Some b)) matches
              end) l.

(** [COALESCE(a, 0)]. *)
Definition coalesce0 (a : option Q) : Q :=
  match a with Some x => x | None => 0 end.

(** Plain sums, used to state what the aggregates compute. *)
Definition qsum (xs : list Q) : Q := fold_right Qplus 0 xs.

End Sql.

Export Sql.

Declare Scope sql_scope.
Infix "=?=" := oQeq (at level 70, no associativity) : sql_scope.
Open Scope sql_scope.

(** ** Stage 05: contract-county enrollment weights *)

Module Weights.

(** A row of the view [enrollment_union]. *)
Record EnrollmentRecord : Type := mkEnrollment {
  er_contract_id : string;
  er_year : Z;
  er_county_fips : string;
  er_enrollment : option Z
}.

(** A row of the table [contract_county_weights]. *)
Record ContractCountyWeight : Type := mkWeight {
  contract_id : string;
  year : Z;
  county_fips : string;
  enrollment : option Z;
  contract_year_total_enrollment : option Z;
  w_enroll : option Q
}.

Definition er_key (r : EnrollmentRecord) : Key := (er_contract_id r, er_year r).
Definition w_key (r : ContractCountyWeight) : Key := (contract_id r, year r).

(** [WHERE enrollment IS NOT NULL AND enrollment > 0]. *)
Definition has_enrollment (r : EnrollmentRecord) : bool :=
  match er_enrollment r with
  | Some e => (0 <? e)%Z
  | None => false
  end.

(** [SUM(enrollment) OVER (PARTITION BY contract_id, year)], evaluated on
    the rows that passed the [WHERE]. *)
Definition partition_total (kept : list EnrollmentRecord) (k : Key)
  : option Z :=
  sql_sumZ (map er_enrollment (partition er_key k kept)).

(** [enrollment * 1.0 / SUM(enrollment) OVER (...)]. *)
Definition weight_of (e total : option Z) : option Q :=
  match e, total with
  | Some e, Some t => Some (inject_Z e * 1.0 / inject_Z t)
  | _, _ => None
  end.

Definition contract_county_weights (enrollment_union : list EnrollmentRecord)
  : list ContractCountyWeight :=
  let kept := filter has_enrollment enrollment_union in
  map (fun r =>
         let total := partition_total kept (er_key r) in
         mkWeight (er_contract_id r) (er_year r) (er_county_fips r)
                  (er_enrollment r) total
                  (weight_of (er_enrollment r) total))
      kept.

(** The QC query of the stage: [SUM(w_enroll) ... GROUP BY contract_id, year]. *)
Definition weight_sums (weights : list ContractCountyWeight)
  : list (Key * option Q) :=
  map (fun g => (fst g, sql_sum (map w_enroll (snd g))))
      (group_by w_key weights).

End Weights.


Export Weights.

(** ** Stages 07 and 11: exposures renormalized over the matched weight

    The two scripts share the text of their [agg] CTE and of their final
    [SELECT]; they differ in the table joined and in the join condition. *)

Module Renorm.

(** A row of the CTE [joined]: a weight row with the attribute of the
    county it was joined to (NULL when no attribute row matched). *)
Record Joined : Type := mkJoined {
  j_contract_id : string;
  j_contract_year : Z;
  j_total_enrollment : option Z;
  j_w_enroll : option Q;
  j_attribute : option Q
}.

Definition j_key (j : Joined) : Key := (j_contract_id j, j_contract_year j).

(** A row of the CTE [agg]. *)
Record Agg : Type := mkAgg {
  a_contract_id : string;
  a_contract_year : Z;
  a_total_enrollment : option Z;
  num : option Q;
  denom : option Q
}.

(** A row of [contract_year_poverty_exposure_clean] and of
    [contract_year_rural_exposure]. *)
Record ContractYearExposure : Type := mkExposure {
  x_contract_id : string;
  contract_year : Z;
  total_enrollment : option Z;
  exposure : option Q;
  coverage_weight_share : option Q;
  out_of_scope_geography : Z
}.

Definition x_key (x : ContractYearExposure) : Key :=
  (x_contract_id x, contract_year x).

(** [CASE WHEN attr IS NOT NULL THEN w_enroll * attr ELSE 0 END]. *)
Definition num_term (j : Joined) : option Q :=
  match j_attribute j with
  | Some v => sql_mul (j_w_enroll j) (Some v)
  | None => Some 0
  end.

(** [CASE WHEN attr IS NOT NULL THEN w_enroll ELSE 0 END]. *)
Definition denom_term (j : Joined) : option Q :=
  match j_attribute j with
  | Some _ => j_w_enroll j
  | None => Some 0
  end.

Definition agg (joined : list Joined) : list Agg :=
  map (fun g =>
         mkAgg (fst (fst g)) (snd (fst g))
               (sql_maxZ (map j_total_enrollment (snd g)))
               (sql_sum (map num_term (snd g)))
               (sql_sum (map denom_term (snd g))))
      (group_by j_key joined).

(** The final [SELECT ... FROM agg]. *)
Definition select_exposure (a : Agg) : ContractYearExposure :=
  mkExposure (a_contract_id a) (a_contract_year a) (a_total_enrollment a)
             (if sql_gt0 (denom a) then sql_div (num a) (denom a) else None)
             (denom a)
             (if sql_eq0 (denom a) then 1%Z else 0%Z).

(** The [SELECT] list shared by the two [joined] CTEs: the weight row and
    the attribute of the row it was joined to. *)
Definition select_joined {B : Type} (attribute : B -> option Q)
    (w : ContractCountyWeight) (b : option B) : Joined :=
  mkJoined (contract_id w) (year w) (contract_year_total_enrollment w)
           (w_enroll w)
           (match b with Some b => attribute b | None => None end).

Definition renormalized_exposure (joined : list Joined)
  : list ContractYearExposure :=
  map select_exposure (agg joined).

End Renorm.

Export Renorm.

Module Poverty.

(** A row of [county_poverty]. *)
Record CountyPoverty : Type := mkPoverty {
  p_year : Z;
  p_county_fips : string;
  pov_rate_all : option Q
}.

(** [ON p.county_fips = w.county_fips AND p.year = w.year - 1]. *)
Definition lag_match (w : ContractCountyWeight) (p : CountyPoverty) : bool :=
  String.eqb (p_county_fips p) (county_fips w) && Z.eqb (p_year p) (year w - 1).

Definition joined (weights : list ContractCountyWeight)
    (county_poverty : list CountyPoverty) : list Joined :=
  left_join lag_match (select_joined pov_rate_all) weights county_poverty.

Definition contract_year_poverty_exposure_clean
    (weights : list ContractCountyWeight)
    (county_poverty : list CountyPoverty) : list ContractYearExposure :=
  renormalized_exposure (joined weights county_poverty).

End Poverty.

Module Rural.

(** A row of [county_rucc_2023], reduced to the columns the stage reads. *)
Record CountyRucc : Type := mkRucc {
  r_county_fips : string;
  rural_indicator : option Z
}.

(** [ON r.county_fips = w.county_fips]: no year in the condition. *)
Definition county_match (w : ContractCountyWeight) (r : CountyRucc) : bool :=
  String.eqb (r_county_fips r) (county_fips w).

Definition joined (weights : list ContractCountyWeight)
    (county_rucc : list CountyRucc) : list Joined :=
  left_join county_match
    (select_joined (fun r => option_map inject_Z (rural_indicator r)))
    weights county_rucc.

Definition contract_year_rural_exposure
    (weights : list ContractCountyWeight)
    (county_rucc : list CountyRucc) : list ContractYearExposure :=
  renormalized_exposure (joined weights county_rucc).

End Rural.

(** ** Stage 16: shortage (HPSA) exposure *)

Module Hpsa.

(** A row of [county_hpsa_primarycare], reduced to the columns read. *)
Record CountyHpsa : Type := mkHpsa {
  h_county_fips : string;
  hpsa_pc_score : option Q
}.

(** A row of the CTE [w]. *)
Record WeightedCounty : Type := mkWeighted {
  wc_contract_id : string;
  wc_contract_year : Z;
  wc_county_fips : string;
  wc_w : Q
}.

Definition wc_key (c : WeightedCounty) : Key :=
  (wc_contract_id c, wc_contract_year c).

(** CTE [w]: [WHERE w_enroll IS NOT NULL AND w_enroll > 0]. *)
Definition cte_w (weights : list ContractCountyWeight) : list WeightedCounty :=
  flat_map (fun r =>
              match w_enroll r with
              | Some x =>
                  if Qle_bool x 0 then []
                  else [mkWeighted (contract_id r) (year r) (county_fips r) x]
              | None => []
              end) weights.

(** CTE [h]: [WHERE hpsa_pc_score IS NOT NULL]; a row is a county and its
    score. *)
Definition cte_h (county_hpsa : list CountyHpsa) : list (string * Q) :=
  flat_map (fun h =>
              match hpsa_pc_score h with
              | Some s => [(h_county_fips h, s)]
              | None => []
              end) county_hpsa.

(** A row of the CTE [j]. *)
Record JoinedCounty : Type := mkJoinedCounty {
  jc_contract_id : string;
  jc_contract_year : Z;
  jc_county_fips : string;
  jc_w : Q;
  hpsa_score : Q;
  is_designated : Z
}.

Definition jc_key (j : JoinedCounty) : Key :=
  (jc_contract_id j, jc_contract_year j).

(** [ON w.county_fips = h.county_fips]. *)
Definition same_county (c : WeightedCounty) (h : string * Q) : bool :=
  String.eqb (wc_county_fips c) (fst h).

(** [COALESCE(h.hpsa_pc_score, 0.0)] and
    [CASE WHEN h.hpsa_pc_score IS NULL THEN 0 ELSE 1 END]. *)
Definition select_j (c : WeightedCounty) (h : option (string * Q))
  : JoinedCounty :=
  mkJoinedCounty (wc_contract_id c) (wc_contract_year c) (wc_county_fips c)
                 (wc_w c)
                 (coalesce0 (option_map snd h))
                 (match option_map snd h with None => 0%Z | Some _ => 1%Z end).

Definition cte_j (weights : list ContractCountyWeight)
    (county_hpsa : list CountyHpsa) : list JoinedCounty :=
  left_join same_county select_j (cte_w weights) (cte_h county_hpsa).

(** A row of [contract_year_hpsa_exposure]. *)
Record HpsaExposure : Type := mkHpsaExposure {
  he_contract_id : string;
  he_contract_year : Z;
  hpsa_exposure : option Q;
  hpsa_designated_weight_share : option Q;
  counties_total : Z;
  counties_designated : option Z
}.

Definition he_key (x : HpsaExposure) : Key :=
  (he_contract_id x, he_contract_year x).

Definition contract_year_hpsa_exposure (weights : list ContractCountyWeight)
    (county_hpsa : list CountyHpsa) : list HpsaExposure :=
  map (fun g =>
         mkHpsaExposure (fst (fst g)) (snd (fst g))
           (sql_sum (map (fun j => Some (jc_w j * hpsa_score j)) (snd g)))
           (sql_sum (map (fun j => if Z.eqb (is_designated j) 1
                                   then Some (jc_w j) else Some 0) (snd g)))
           (Z.of_nat (List.length (snd g)))
           (sql_sumZ (map (fun j => if Z.eqb (is_designated j) 1
                                    then Some 1%Z else Some 0%Z) (snd g))))
      (group_by jc_key (cte_j weights county_hpsa)).

End Hpsa.

(** ** Stage 08: the near-threshold analysis table *)

Module NearThreshold.

(** A row of [contract_year_stars]. *)
Record ContractYearStars : Type := mkStars {
  s_contract_id : string;
  s_contract_year : Z;
  stars_rating : option Q
}.

(** A row of [contract_year_analysis_base]: the columns of the exposure
    table are NULL when the contract-year has no exposure row. *)
Record AnalysisBase : Type := mkBase {
  b_contract_id : string;
  b_contract_year : Z;
  b_stars_rating : option Q;
  poverty_exposure : option Q;
  b_coverage_weight_share : option Q;
  b_out_of_scope_geography : option Z;
  b_total_enrollment : option Z
}.

Definition b_key (b : AnalysisBase) : Key := (b_contract_id b, b_contract_year b).

(** [ON p.contract_id = s.contract_id AND p.contract_year = s.contract_year]. *)
Definition same_contract_year (s : ContractYearStars) (p : ContractYearExposure)
  : bool :=
  String.eqb (x_contract_id p) (s_contract_id s)
  && Z.eqb (contract_year p) (s_contract_year s).

Definition contract_year_analysis_base (stars : list ContractYearStars)
    (poverty : list ContractYearExposure) : list AnalysisBase :=
  left_join same_contract_year
    (fun s p =>
       mkBase (s_contract_id s) (s_contract_year s) (stars_rating s)
              (match p with Some p => exposure p | None => None end)
              (match p with Some p => coverage_weight_share p | None => None end)
              (option_map out_of_scope_geography p)
              (match p with Some p => total_enrollment p | None => None end))
    stars poverty.

(** The band labels ['3.5-3.9'], ['4.0-4.5'] and ['other']. *)
Inductive ThresholdBand : Type :=
| Band_35_39
| Band_40_45
| Band_other.

(** A row of [contract_year_near_threshold]: [SELECT *] and two labels. *)
Record NearThresholdRow : Type := mkNear {
  base : AnalysisBase;
  above_4star : Z;
  threshold_band : ThresholdBand
}.

(** The [WHERE] clause; a comparison with NULL does not hold. *)
Definition in_sample (b : AnalysisBase) : bool :=
  match b_stars_rating b, poverty_exposure b, b_out_of_scope_geography b with
  | Some s, Some _, Some o =>
      Z.eqb o 0 && Qle_bool 3.5 s && Qle_bool s 4.5
  | _, _, _ => false
  end.

Definition label (b : AnalysisBase) : NearThresholdRow :=
  match b_stars_rating b with
  | Some s =>
      mkNear b
        (if Qle_bool 4.0 s then 1%Z else 0%Z)
        (if Qle_bool 3.5 s && negb (Qle_bool 4.0 s) then Band_35_39
         else if Qle_bool 4.0 s && Qle_bool s 4.5 then Band_40_45
         else Band_other)
  | None => mkNear b 0%Z Band_other
  end.

Definition contract_year_near_threshold (analysis_base : list AnalysisBase)
  : list NearThresholdRow :=
  map label (filter in_sample analysis_base).

(** [build_near_threshold_dataset], from its two input tables. *)
Definition build_near_threshold_dataset (stars : list ContractYearStars)
    (poverty : list ContractYearExposure) : list NearThresholdRow :=
  contract_year_near_threshold (contract_year_analysis_base stars poverty).

End NearThreshold.

(** ** Stage 14: concentration metrics, model frame and decomposition *)

Module FullStars.

(** *** Step 1: geographic concentration *)

(** CTE [w]: the same [SELECT ... WHERE w_enroll IS NOT NULL AND
    w_enroll > 0] as in stage 16. *)
Definition cte_w (weights : list ContractCountyWeight)
  : list Hpsa.WeightedCounty :=
  Hpsa.cte_w weights.

(** [ORDER BY w DESC], by insertion. *)
Fixpoint insert_desc (c : Hpsa.WeightedCounty) (l : list Hpsa.WeightedCounty)
  : list Hpsa.WeightedCounty :=
  match l with
  | [] => [c]
  | y :: rest =>
      if Qle_bool (Hpsa.wc_w y) (Hpsa.wc_w c) then c :: y :: rest
      else y :: insert_desc c rest
  end.

Definition order_by_w_desc (rows : list Hpsa.WeightedCounty)
  : list Hpsa.WeightedCounty :=
  fold_right insert_desc [] rows.

(** CTE [ranked], on one partition: each row with its
    [ROW_NUMBER() OVER (PARTITION BY ... ORDER BY w DESC)]. *)
Definition ranked (rows : list Hpsa.WeightedCounty)
  : list (Hpsa.WeightedCounty * Z) :=
  combine (order_by_w_desc rows)
          (map Z.of_nat (seq 1 (List.length rows))).

Definition rsum (xs : list R) : R := fold_right Rplus 0%R xs.

(** A row of [contract_year_geo_concentration]. *)
Record GeoConcentration : Type := mkGeo {
  g_contract_id : string;
  g_contract_year : Z;
  hhi : option Q;
  entropy : option R;
  top1_share : option Q;
  top5_share : option Q;
  n_counties : Z
}.

Definition g_key (g : GeoConcentration) : Key :=
  (g_contract_id g, g_contract_year g).

(** The aggregates of the final [SELECT ... GROUP BY], on the ranked rows
    of one group. *)
Definition concentration (k : Key) (rk : list (Hpsa.WeightedCounty * Z))
  : GeoConcentration :=
  let w := fun r : Hpsa.WeightedCounty * Z => Hpsa.wc_w (fst r) in
  mkGeo (fst k) (snd k)
        (sql_sum (map (fun r => Some (w r * w r)) rk))
        (match rk with
         | [] => None
         | _ => Some (- rsum (map (fun r => Q2R (w r) * ln (Q2R (w r))) rk))%R
         end)
        (sql_max (map (fun r => Some (w r)) rk))
        (sql_sum (map (fun r => if (snd r <=? 5)%Z then Some (w r) else Some 0)
                      rk))
        (Z.of_nat (List.length rk)).

Definition contract_year_geo_concentration
    (weights : list ContractCountyWeight) : list GeoConcentration :=
  map (fun g => concentration (fst g) (ranked (snd g)))
      (group_by Hpsa.wc_key (cte_w weights)).

(** *** Step 2: total enrollment of a contract-year *)

Record ContractYearEnrollment : Type := mkEnroll {
  e_contract_id : string;
  e_contract_year : Z;
  e_total_enrollment : option Q
}.

Definition e_key (e : ContractYearEnrollment) : Key :=
  (e_contract_id e, e_contract_year e).

(** [MAX(CAST(contract_year_total_enrollment AS DOUBLE)) ... WHERE
    contract_year_total_enrollment IS NOT NULL GROUP BY contract_id, year]. *)
Definition contract_year_enrollment (weights : list ContractCountyWeight)
  : list ContractYearEnrollment :=
  map (fun g =>
         mkEnroll (fst (fst g)) (snd (fst g))
           (sql_max (map (fun r => option_map inject_Z
                                     (contract_year_total_enrollment r))
                         (snd g))))
      (group_by w_key
         (filter (fun r => match contract_year_total_enrollment r with
                           | Some _ => true
                           | None => false
                           end) weights)).

(** *** Step 3: the model frame *)

Record ModelFrame : Type := mkFrame {
  contract_id : string;
  contract_year : Z;
  stars : option Q;
  poverty_exposure : option Q;
  rural_exposure : option Q;
  hpsa_exposure : option Q;
  f_hhi : option Q;
  f_entropy : option R;
  f_top1_share : option Q;
  f_top5_share : option Q;
  f_n_counties : option Q;
  total_enrollment : option Q
}.

Definition f_key (f : ModelFrame) : Key := (contract_id f, contract_year f).

(** CTE [s]: [WHERE stars_rating IS NOT NULL]; the other columns are
    filled by the joins. *)
Definition cte_s (stars_table : list NearThreshold.ContractYearStars)
  : list ModelFrame :=
  flat_map (fun s =>
              match NearThreshold.stars_rating s with
              | Some v =>
                  [mkFrame (NearThreshold.s_contract_id s)
                           (NearThreshold.s_contract_year s) (Some v)
                           None None None None None None None None None]
              | None => []
              end) stars_table.

(** Every join is [ON s.contract_id = t.contract_id AND
    s.contract_year = t.contract_year]. *)
Definition on_key {B : Type} (key : B -> Key) (f : ModelFrame) (b : B) : bool :=
  key_eqb (f_key f) (key b).

Definition with_poverty (f : ModelFrame) (p : option ContractYearExposure)
  : ModelFrame :=
  mkFrame (contract_id f) (contract_year f) (stars f)
          (match p with Some p => exposure p | None => None end)
          (rural_exposure f) (hpsa_exposure f) (f_hhi f) (f_entropy f)
          (f_top1_share f) (f_top5_share f) (f_n_counties f)
          (total_enrollment f).

Definition with_rural (f : ModelFrame) (r : option ContractYearExposure)
  : ModelFrame :=
  mkFrame (contract_id f) (contract_year f) (stars f) (poverty_exposure f)
          (match r with Some r => exposure r | None => None end)
          (hpsa_exposure f) (f_hhi f) (f_entropy f)
          (f_top1_share f) (f_top5_share f) (f_n_counties f)
          (total_enrollment f).

Definition with_hpsa (f : ModelFrame) (h : option Hpsa.HpsaExposure)
  : ModelFrame :=
  mkFrame (contract_id f) (contract_year f) (stars f) (poverty_exposure f)
          (rural_exposure f)
          (match h with Some h => Hpsa.hpsa_exposure h | None => None end)
          (f_hhi f) (f_entropy f)
          (f_top1_share f) (f_top5_share f) (f_n_counties f)
          (total_enrollment f).

Definition with_geo (f : ModelFrame) (g : option GeoConcentration)
  : ModelFrame :=
  mkFrame (contract_id f) (contract_year f) (stars f) (poverty_exposure f)
          (rural_exposure f) (hpsa_exposure f)
          (match g with Some g => hhi g | None => None end)
          (match g with Some g => entropy g | None => None end)
          (match g with Some g => top1_share g | None => None end)
          (match g with Some g => top5_share g | None => None end)
          (option_map (fun g => inject_Z (n_counties g)) g)
          (total_enrollment f).

Definition with_enrollment (f : ModelFrame) (e : option ContractYearEnrollment)
  : ModelFrame :=
  mkFrame (contract_id f) (contract_year f) (stars f) (poverty_exposure f)
          (rural_exposure f) (hpsa_exposure f) (f_hhi f) (f_entropy f)
          (f_top1_share f) (f_top5_share f) (f_n_counties f)
          (match e with Some e => e_total_enrollment e | None => None end).

Definition contract_year_model_frame_fullstars
    (stars_table : list NearThreshold.ContractYearStars)
    (poverty rural : list ContractYearExposure)
    (hpsa : list Hpsa.HpsaExposure)
    (geo : list GeoConcentration)
    (enroll : list ContractYearEnrollment) : list ModelFrame :=
  let s := cte_s stars_table in
  let sp := left_join (on_key x_key) with_poverty s poverty in
  let spr := left_join (on_key x_key) with_rural sp rural in
  let sprh := left_join (on_key Hpsa.he_key) with_hpsa spr hpsa in
  let sprhg := left_join (on_key g_key) with_geo sprh geo in
  left_join (on_key (fun e => (e_contract_id e, e_contract_year e)))
            with_enrollment sprhg enroll.

(** *** Step 4: the rows that are fitted *)

Definition present {A : Type} (a : option A) : bool :=
  match a with Some _ => true | None => false end.

(** [df.dropna(subset=core)]: [core] lists stars, the three exposures and
    the five concentration metrics, and not [total_enrollment]. *)
Definition core_complete (f : ModelFrame) : bool :=
  present (stars f) && present (poverty_exposure f)
  && present (rural_exposure f) && present (hpsa_exposure f)
  && present (f_hhi f) && present (f_entropy f)
  && present (f_top1_share f) && present (f_top5_share f)
  && present (f_n_counties f).

Definition dropna_core (df : list ModelFrame) : list ModelFrame :=
  filter core_complete df.

(** [df["total_enrollment"].fillna(1).clip(lower=1)]. *)
Definition fillna_clip (t : option Q) : Q :=
  let filled := match t with Some v => v | None => 1 end in
  if Qle_bool 1 filled then filled else 1.

Definition fill_enrollment (f : ModelFrame) : ModelFrame :=
  mkFrame (contract_id f) (contract_year f) (stars f) (poverty_exposure f)
          (rural_exposure f) (hpsa_exposure f) (f_hhi f) (f_entropy f)
          (f_top1_share f) (f_top5_share f) (f_n_counties f)
          (Some (fillna_clip (total_enrollment f))).

(** [np.log(df["total_enrollment"])]. *)
Definition log_enroll (f : ModelFrame) : R :=
  ln (Q2R (coalesce0 (total_enrollment f))).

(** The rows handed to the fit: lines 351 to 356 of the script. *)
Definition fitted_rows (model_df : list ModelFrame) : list ModelFrame :=
  map fill_enrollment (dropna_core model_df).

(** [np.sort(df["stars"].unique())]. *)
Fixpoint insert_level (x : Q) (l : list Q) : list Q :=
  match l with
  | [] => [x]
  | y :: rest =>
      if Qeq_bool x y then l
      else if Qle_bool x y then x :: l
      else y :: insert_level x rest
  end.

Definition levels (df : list ModelFrame) : list Q :=
  fold_right insert_level [] (map (fun f => coalesce0 (stars f)) df).

(** [df["stars"].map({v: i for i, v in enumerate(levels)})]. *)
Fixpoint index_of (x : Q) (l : list Q) : nat :=
  match l with
  | [] => O
  | y :: rest => if Qeq_bool x y then O else S (index_of x rest)
  end.

Definition stars_ord (lv : list Q) (f : ModelFrame) : nat :=
  index_of (coalesce0 (stars f)) lv.

(** Year fixed effects, [pd.get_dummies(df, columns=["year"],
    drop_first=True)]: one 0/1 column per year but the first. *)
Fixpoint insert_year (y : Z) (l : list Z) : list Z :=
  match l with
  | [] => [y]
  | z :: rest =>
      if Z.eqb y z then l
      else if Z.leb y z then y :: l
      else z :: insert_year y rest
  end.

Definition years (df : list ModelFrame) : list Z :=
  fold_right insert_year [] (map contract_year df).

Definition year_dummies (ys : list Z) (f : ModelFrame) : list R :=
  map (fun y => if Z.eqb (contract_year f) y then 1%R else 0%R) (tl ys).

(** A row of [X = df[X_cols]]. *)
Definition exog (ys : list Z) (f : ModelFrame) : list R :=
  [ Q2R (coalesce0 (poverty_exposure f));
    Q2R (coalesce0 (rural_exposure f));
    Q2R (coalesce0 (hpsa_exposure f));
    Q2R (coalesce0 (f_hhi f));
    match f_entropy f with Some e => e | None => 0%R end;
    Q2R (coalesce0 (f_top1_share f));
    Q2R (coalesce0 (f_top5_share f));
    Q2R (coalesce0 (f_n_counties f));
    log_enroll f ]
  ++ year_dummies ys f.

(** *** Step 5: fitted probabilities and decomposition *)

(** [ord_res.params]: the slope coefficients followed by the threshold
    parameters.  The estimation itself (BFGS inside the statistics
    library) is not modelled: every statement below holds for any
    parameter vector. *)
Record OrderedFit : Type := mkFit {
  beta : list R;
  threshold_params : list R
}.

(** Modelled from the spec: the repository calls the ordinal-regression
    library for [predict]; section 4.5 names the model, an
    ordered-category (cumulative-odds) logistic regression, and
    [predict] is written here as the per-level probabilities of that
    model: increasing cut points [c_1 < ... < c_(K-1)] (the first
    threshold parameter, then increments [exp] of the others), and
    [P(level k) = F(c_k - x.beta) - F(c_(k-1) - x.beta)] with [F] the
    logistic distribution function, [c_0 = -oo] and [c_K = +oo]. *)
Definition logistic_cdf (x : R) : R := (1 / (1 + exp (- x)))%R.

(** Modelled from the spec: the running sums that turn the threshold
    parameters of the library into increasing cut points. *)
Fixpoint cumsum_from (acc : R) (xs : list R) : list R :=
  match xs with
  | [] => []
  | x :: rest => (acc + x)%R :: cumsum_from (acc + x)%R rest
  end.

(** Modelled from the spec: the cut points of the library's ordinal
    model, the first parameter followed by positive increments. *)
Definition transform_threshold_params (th : list R) : list R :=
  match th with
  | [] => []
  | t0 :: rest => cumsum_from 0%R (t0 :: map exp rest)
  end.

(** Modelled from the spec: the linear predictor [x.beta] of the
    library's model, one coefficient per column of [X]. *)
Definition linpred (b x : list R) : R :=
  rsum (map (fun bx => (fst bx * snd bx)%R) (combine b x)).

(** Modelled from the spec: the pairs (lower, upper) of neighbouring
    values of the distribution function at the cut points. *)
Fixpoint consecutive (l : list R) : list (R * R) :=
  match l with
  | a :: (b :: _) as rest => (a, b) :: consecutive rest
  | _ => []
  end.

(** Modelled from the spec: [ord_res.model.predict(ord_res.params,
    exog=X)] of the ordinal-regression library, on one row of [X]: the
    probability of each level, a difference of the logistic distribution
    function at neighbouring cut points, clipped at 0. *)
Definition predict (fit : OrderedFit) (x : list R) : list R :=
  let xb := linpred (beta fit) x in
  let cuts := transform_threshold_params (threshold_params fit) in
  let cdfs := 0%R :: map (fun c => logistic_cdf (c - xb)) cuts ++ [1%R] in
  map (fun lu => Rmax (snd lu - fst lu) 0) (consecutive cdfs).

(** [np.asarray(probs) @ levels], on one row: a dot product, an error
    when the two lengths differ. *)
Definition dot_levels (p : list R) (lv : list Q) : option R :=
  if Nat.eqb (List.length p) (List.length lv)
  then Some (rsum (map (fun pl => (fst pl * Q2R (snd pl))%R) (combine p lv)))
  else None.

(** A row of [contract_year_structural_decomp_fullstars]. *)
Record Decomposition : Type := mkDecomp {
  d_row : ModelFrame;
  expected_stars_structural : R;
  operational_residual : R
}.

Definition decompose_row (fit : OrderedFit) (lv : list Q) (ys : list Z)
    (f : ModelFrame) : option Decomposition :=
  match dot_levels (predict fit (exog ys f)) lv with
  | Some e => Some (mkDecomp f e (Q2R (coalesce0 (stars f)) - e)%R)
  | None => None
  end.

Fixpoint structural_decomposition (fit : OrderedFit) (lv : list Q)
    (ys : list Z) (df : list ModelFrame) : option (list Decomposition) :=
  match df with
  | [] => Some []
  | f :: rest =>
      match decompose_row fit lv ys f,
            structural_decomposition fit lv ys rest with
      | Some d, Some ds => Some (d :: ds)
      | _, _ => None
      end
  end.

(** Steps 4 to 5 of [main] on a model frame; [None] is [die] (no row
    left, or fewer than three star levels) or the shape error of the
    matrix product.  [ordered_fit] stands for
    [OrderedModel(y, X, distr="logit").fit(method="bfgs")].  The second
    [dropna] of the script, after infinities are replaced by NaN, drops
    nothing here: every feature of a fitted row is a finite number. *)
Definition model_full_stars
    (ordered_fit : list (list R) -> list nat -> OrderedFit)
    (model_df : list ModelFrame) : option (list Decomposition) :=
  let df := fitted_rows model_df in
  match df with
  | [] => None
  | _ =>
      let lv := levels df in
      if (List.length lv <? 3)%nat then None
      else
        let ys := years df in
        let fit := ordered_fit (map (exog ys) df) (map (stars_ord lv) df) in
        structural_decomposition fit lv ys df
  end.

End FullStars.

(** ** Stage 09: bootstrap of the near-threshold contrast *)

Module Bootstrap.

(** A row of the frame read from [contract_year_near_threshold]; a [NaN]
    of the frame is [None]. *)
Record Row : Type := mkRow {
  contract_id : option string;
  contract_year : Z;
  threshold_band : NearThreshold.ThresholdBand;
  poverty_exposure : option Q;
  total_enrollment : option Q
}.

(** A row of the frame returned by [bootstrap_diff]. *)
Record BootRow : Type := mkBootRow {
  boot_year : Z;
  diff_unweighted : option Q;
  diff_enroll_weighted : option Q
}.

(** A row of the frame returned by [summarize_boot]. *)
Record Summary : Type := mkSummary {
  summary_year : Z;
  boot_mean : option Q;
  ci2p5 : option Q;
  ci50 : option Q;
  ci97p5 : option Q
}.

Definition band_eqb (a b : NearThreshold.ThresholdBand) : bool :=
  match a, b with
  | NearThreshold.Band_35_39, NearThreshold.Band_35_39 => true
  | NearThreshold.Band_40_45, NearThreshold.Band_40_45 => true
  | NearThreshold.Band_other, NearThreshold.Band_other => true
  | _, _ => false
  end.

(** [Series.dropna().unique()]: first occurrences, in order. *)
Fixpoint unique_ids (seen : list string) (ids : list (option string))
  : list string :=
  match ids with
  | [] => []
  | None :: rest => unique_ids seen rest
  | Some i :: rest =>
      if existsb (String.eqb i) seen then unique_ids seen rest
      else i :: unique_ids (i :: seen) rest
  end.

(** [Series.mean()]: the mean of the values that are not NaN. *)
Definition mean (xs : list (option Q)) : option Q :=
  match sql_sum xs with
  | Some s =>
      Some (s / inject_Z (Z.of_nat (List.length (filter FullStars.present xs))))
  | None => None
  end.

(** [np.sum]: NaN as soon as one term is. *)
Fixpoint np_sum (xs : list (option Q)) : option Q :=
  match xs with
  | [] => Some 0
  | x :: rest =>
      match x, np_sum rest with
      | Some v, Some s => Some (v + s)
      | _, _ => None
      end
  end.

(** [weighted_mean]. *)
Definition weighted_mean (x w : list (option Q)) : option Q :=
  match np_sum w with
  | Some wsum =>
      if Qeq_bool wsum 0 then None
      else sql_div (np_sum (map (fun xw => sql_mul (fst xw) (snd xw))
                                (combine x w)))
                   (Some wsum)
  | None => None
  end.

Definition minus (a b : option Q) : option Q :=
  match a, b with Some x, Some y => Some (x - y) | _, _ => None end.

(** [pd.DataFrame({"contract_id": samp}).merge(d, on="contract_id",
    how="left")], reduced to the two columns used afterwards. *)
Definition merge_left (samp : list string) (d : list Row)
  : list (option Q * option Q) :=
  left_join
    (fun s r => match contract_id r with
                | Some i => String.eqb s i
                | None => false
                end)
    (fun _ r => match r with
                | Some r => (poverty_exposure r, total_enrollment r)
                | None => (None, None)
                end)
    samp d.

(** One replicate, from the two samples of contract identifiers. *)
Definition replicate (yr : Z) (d_a d_b : list Row) (samp_a samp_b : list string)
  : BootRow :=
  let bs_a := merge_left samp_a d_a in
  let bs_b := merge_left samp_b d_b in
  mkBootRow yr
    (minus (mean (map fst bs_a)) (mean (map fst bs_b)))
    (minus (weighted_mean (map fst bs_a) (map snd bs_a))
           (weighted_mean (map fst bs_b) (map snd bs_b))).

(** The lines the function prints:
    ["WARNING: small sample in {yr}. Skipping bootstrap for that year."]. *)
Inductive Message : Type :=
| SmallSample (yr : Z).

(** What surrounds a run: the text printed so far and whatever other
    state the process holds. *)
Record World (Ambient : Type) : Type := mkWorld {
  stdout : list Message;
  ambient : Ambient
}.

Arguments mkWorld {Ambient} _ _.
Arguments stdout {Ambient} _.
Arguments ambient {Ambient} _.

Definition print {Ambient : Type} (line : Message) (w : World Ambient)
  : World Ambient :=
  mkWorld (stdout w ++ [line]) (ambient w).

Section Generator.

(** The random source of the numerical library: [default_rng(seed)] and
    [rng.choice(ids, size, replace=True)], as index draws that step the
    generator state. *)
Variable Gen : Type.
Variable default_rng : Z -> Gen.
Variable choice : Gen -> nat -> nat -> list nat * Gen.

Variable Ambient : Type.

Definition rng_choice (g : Gen) (ids : list string) : list string * Gen :=
  let (idx, g') := choice g (List.length ids) (List.length ids) in
  (map (fun i => nth i ids EmptyString) idx, g').

(** [for _ in range(n_boot)]. *)
Fixpoint replicates (n_boot : nat) (yr : Z) (d_a d_b : list Row)
    (ids_a ids_b : list string) (g : Gen) : list BootRow * Gen :=
  match n_boot with
  | O => ([], g)
  | S n =>
      let (samp_a, g1) := rng_choice g ids_a in
      let (samp_b, g2) := rng_choice g1 ids_b in
      let (rows, g3) := replicates n yr d_a d_b ids_a ids_b g2 in
      (replicate yr d_a d_b samp_a samp_b :: rows, g3)
  end.

(** [for yr in years]. *)
Fixpoint over_years (df : list Row) (n_boot : nat) (yrs : list Z) (g : Gen)
    (w : World Ambient) : list BootRow * Gen * World Ambient :=
  match yrs with
  | [] => ([], g, w)
  | yr :: rest =>
      let d_yr := filter (fun r => Z.eqb (contract_year r) yr) df in
      let d_a := filter (fun r => band_eqb (threshold_band r)
                                           NearThreshold.Band_35_39) d_yr in
      let d_b := filter (fun r => band_eqb (threshold_band r)
                                           NearThreshold.Band_40_45) d_yr in
      let ids_a := unique_ids [] (map contract_id d_a) in
      let ids_b := unique_ids [] (map contract_id d_b) in
      if ((List.length ids_a <? 5) || (List.length ids_b <? 5))%nat then
        over_years df n_boot rest g
          (print (SmallSample yr) w)
      else
        let (rows, g') := replicates n_boot yr d_a d_b ids_a ids_b g in
        match over_years df n_boot rest g' w with
        | (more, g'', w') => (rows ++ more, g'', w')
        end
  end.

Definition bootstrap_diff (df : list Row) (n_boot : nat) (seed : Z)
    (w : World Ambient) : list BootRow * World Ambient :=
  let rng := default_rng seed in
  let yrs := fold_right FullStars.insert_year [] (map contract_year df) in
  match over_years df n_boot yrs rng w with
  | (out_rows, _, w') => (out_rows, w')
  end.

End Generator.

(** [np.nanpercentile(x, p)], linear interpolation between the order
    statistics around position [(n - 1) * p / 100]. *)
Fixpoint insert_asc (x : Q) (l : list Q) : list Q :=
  match l with
  | [] => [x]
  | y :: rest => if Qle_bool x y then x :: l else y :: insert_asc x rest
  end.

Definition values (xs : list (option Q)) : list Q :=
  flat_map (fun x => match x with Some v => [v] | None => [] end) xs.

Definition nanpercentile (xs : list (option Q)) (p : Q) : option Q :=
  let sorted := fold_right insert_asc [] (values xs) in
  match sorted with
  | [] => None
  | v0 :: _ =>
      let n := List.length sorted in
      let pos := inject_Z (Z.of_nat (n - 1)) * p / 100 in
      let lo := Z.to_nat (Qfloor pos) in
      let frac := pos - inject_Z (Qfloor pos) in
      let v_lo := nth lo sorted v0 in
      let v_hi := nth (Nat.min (S lo) (n - 1)) sorted v0 in
      Some (v_lo + frac * (v_hi - v_lo))
  end.

(** [summarize_boot(df_boot, col)]. *)
Definition summarize_boot (df_boot : list BootRow)
    (col : BootRow -> option Q) : list Summary :=
  map (fun yr =>
         let x := map col (filter (fun r => Z.eqb (boot_year r) yr) df_boot) in
         mkSummary yr (mean x) (nanpercentile x 2.5) (nanpercentile x 50)
                   (nanpercentile x 97.5))
      (fold_right FullStars.insert_year [] (map boot_year df_boot)).

(** The default number of draws and the seed of the script. *)
Definition N_BOOT : nat := 2000.
Definition RNG_SEED : Z := 42.

End Bootstrap.

(** ** Stages 05, 07 and 14 in DOUBLE arithmetic

    The stages above read a DOUBLE as the rational number it stands for.
    This module runs the same expressions on binary64 numbers, the
    arithmetic of the database, to settle what a statement says about the
    last digit of a result. *)

Module Binary64.

Definition double : Set := PrimFloat.float.

(** [CAST(n AS DOUBLE)] of an integer that is not negative. *)
Definition of_Z (z : Z) : double := PrimFloat.of_uint63 (Uint63.of_Z z).

(** The DOUBLE a decimal number is read as: the nearest one. *)
Definition of_Q (q : Q) : double :=
  if (Qnum q <? 0)%Z
  then PrimFloat.opp (PrimFloat.div (of_Z (- Qnum q)) (of_Z (Zpos (Qden q))))
  else PrimFloat.div (of_Z (Qnum q)) (of_Z (Zpos (Qden q))).

(** [SUM] over a DOUBLE column, one row after the other. *)
Definition fsum (xs : list double) : double :=
  fold_left PrimFloat.add xs (of_Z 0).

(** A row of [contract_county_weights], with the columns used below. *)
Record Weight : Type := mkDoubleWeight {
  d_contract_id : string;
  d_year : Z;
  d_county_fips : string;
  d_w_enroll : double
}.

Definition d_key (w : Weight) : Key := (d_contract_id w, d_year w).

(** Stage 05: [enrollment * 1.0 / SUM(enrollment) OVER (PARTITION BY
    contract_id, year)] on the rows [WHERE enrollment IS NOT NULL AND
    enrollment > 0]. *)
Definition contract_county_weights (enrollment_union : list EnrollmentRecord)
  : list Weight :=
  let kept := filter has_enrollment enrollment_union in
  flat_map (fun r =>
              match er_enrollment r, partition_total kept (er_key r) with
              | Some e, Some t =>
                  [mkDoubleWeight (er_contract_id r) (er_year r)
                     (er_county_fips r)
                     (PrimFloat.div (PrimFloat.mul (of_Z e) (of_Q 1.0))
                                    (of_Z t))]
              | _, _ => []
              end)
           kept.

(** Stage 07, CTE [joined]: the key, [w_enroll] and [pov_rate_all]. *)
Definition lag_match (w : Weight) (p : Poverty.CountyPoverty) : bool :=
  String.eqb (Poverty.p_county_fips p) (d_county_fips w)
  && Z.eqb (Poverty.p_year p) (d_year w - 1).

Definition joined (weights : list Weight)
    (county_poverty : list Poverty.CountyPoverty)
  : list (Key * (double * option double)) :=
  left_join lag_match
    (fun w p =>
       (d_key w,
        (d_w_enroll w,
         match p with
         | Some p => option_map of_Q (Poverty.pov_rate_all p)
         | None => None
         end)))
    weights county_poverty.

(** A row of [contract_year_poverty_exposure_clean]. *)
Record Exposure : Type := mkDoubleExposure {
  de_key : Key;
  d_poverty_exposure : option double;
  d_coverage_weight_share : double;
  d_out_of_scope_geography : Z
}.

(** CTE [agg] and the final [SELECT]. *)
Definition contract_year_poverty_exposure_clean (weights : list Weight)
    (county_poverty : list Poverty.CountyPoverty) : list Exposure :=
  map (fun g =>
         let num :=
           fsum (map (fun j => match snd (snd j) with
                               | Some v => PrimFloat.mul (fst (snd j)) v
                               | None => of_Z 0
                               end) (snd g)) in
         let denom :=
           fsum (map (fun j => match snd (snd j) with
                               | Some _ => fst (snd j)
                               | None => of_Z 0
                               end) (snd g)) in
         mkDoubleExposure (fst g)
           (if PrimFloat.ltb (of_Z 0) denom
            then Some (PrimFloat.div num denom) else None)
           denom
           (if PrimFloat.eqb denom (of_Z 0) then 1%Z else 0%Z))
      (group_by fst (joined weights county_poverty)).

(** Stage 14, CTEs [w] and [ranked]: the positive weights of a group by
    decreasing weight, with their row numbers. *)
Fixpoint insert_desc (c : Weight) (l : list Weight) : list Weight :=
  match l with
  | [] => [c]
  | y :: rest =>
      if PrimFloat.leb (d_w_enroll y) (d_w_enroll c) then c :: y :: rest
      else y :: insert_desc c rest
  end.

Definition ranked (rows : list Weight) : list (Weight * Z) :=
  combine (fold_right insert_desc [] rows)
          (map Z.of_nat (seq 1 (List.length rows))).

(** A row of [contract_year_geo_concentration], with the columns that no
    logarithm enters: [SUM(w*w)], [SUM(CASE WHEN rn <= 5 THEN w ELSE 0
    END)], summed in the order of [rn], and [COUNT]. *)
Record GeoConcentration : Type := mkDoubleGeo {
  dg_key : Key;
  d_hhi : double;
  d_top5_share : double;
  d_n_counties : Z
}.

Definition contract_year_geo_concentration (weights : list Weight)
  : list GeoConcentration :=
  map (fun g =>
         let rk := ranked (snd g) in
         mkDoubleGeo (fst g)
           (fsum (map (fun r => PrimFloat.mul (d_w_enroll (fst r))
                                              (d_w_enroll (fst r))) rk))
           (fsum (map (fun r => if (snd r <=? 5)%Z then d_w_enroll (fst r)
                                else of_Z 0) rk))
           (Z.of_nat (List.length rk)))
      (group_by d_key
         (filter (fun w => PrimFloat.ltb (of_Z 0) (d_w_enroll w)) weights)).

End Binary64.

(** ** The exposure formula of the specification (section 4.2)

    Stated independently of the SQL, for comparison with it: the matched
    counties of a contract-year are its weight rows paired with the
    attribute rows of the same county that carry a value. *)

Module ExposureSpec.

(** The weight of a row of the weight table. *)
Definition weight (w : ContractCountyWeight) : Q := coalesce0 (w_enroll w).

(** The pairs [(w_enroll, attribute value)] of contract-year [k] under
    [covers]: one for every attribute row with a value that a weight row
    of [k] matches. *)
Definition matched_counties {B : Type} (covers : ContractCountyWeight -> B -> bool)
    (value : B -> option Q) (weights : list ContractCountyWeight)
    (attributes : list B) (k : Key) : list (Q * Q) :=
  flat_map (fun w =>
              flat_map (fun b =>
                          if covers w b then
                            match value b with
                            | Some v => [(weight w, v)]
                            | None => []
                            end
                          else [])
                       attributes)
           (partition w_key k weights).

(** [matched_weight = sum of w_enroll over counties with a matching row]. *)
Definition matched_weight (matched : list (Q * Q)) : Q :=
  qsum (map fst matched).

(** [sum of w_enroll * attribute_value over matched counties]. *)
Definition weighted_sum (matched : list (Q * Q)) : Q :=
  qsum (map (fun wv => fst wv * snd wv) matched).







Definition designation (county_hpsa : list Hpsa.CountyHpsa) (fips : string)
  : option Q :=
  match find (fun h => String.eqb (Hpsa.h_county_fips h) fips
                       && match Hpsa.hpsa_pc_score h with
                          | Some _ => true
                          | None => false
                          end) county_hpsa with
  | Some h => Hpsa.hpsa_pc_score h
  | None => None
  end.


Definition is_designated (county_hpsa : list Hpsa.CountyHpsa) (fips : string)
  : bool :=
  match designation county_hpsa fips with Some _ => true | None => false end.



(** The shortage table has one score per county. *)
Definition one_score_per_county (county_hpsa : list Hpsa.CountyHpsa) : Prop :=
  NoDup (map fst (Hpsa.cte_h county_hpsa)).

End ExposureSpec.

(** ** The required structural features of the specification (section 4.5)

    "Exposure variants, concentration metrics, enrollment", as step (2)
    lists them, for comparison with the [core] list of the script. *)

Module FitSpec.

Definition missing_required_feature (f : FullStars.ModelFrame) : bool :=
  negb (FullStars.present (FullStars.poverty_exposure f)
        && FullStars.present (FullStars.rural_exposure f)
        && FullStars.present (FullStars.hpsa_exposure f)
        && FullStars.present (FullStars.f_hhi f)
        && FullStars.present (FullStars.f_entropy f)
        && FullStars.present (FullStars.f_top1_share f)
        && FullStars.present (FullStars.f_top5_share f)
        && FullStars.present (FullStars.f_n_counties f)
        && FullStars.present (FullStars.total_enrollment f)).

(** What the fit is handed for a frame row that is kept. *)
Definition used_in_fit (model_df : list FullStars.ModelFrame)
    (f : FullStars.ModelFrame) : Prop :=
  In f model_df /\
  In (FullStars.fill_enrollment f) (FullStars.fitted_rows model_df).

End FitSpec.

(** ** The concentration metrics of the specification (section 4.3) *)

Module ConcentrationSpec.







End ConcentrationSpec.

(** ** The end-to-end scenarios of the specification *)

Module Scenario.

(** Contract A in 2024: 80 enrollees in county 06001 and 20 in 06003,
    with a suppressed and a missing count that must leave no trace. *)
Definition enrollment_A : list EnrollmentRecord :=
  [ mkEnrollment "A" 2024 "06001" (Some 80%Z);
    mkEnrollment "A" 2024 "06003" (Some 20%Z);
    mkEnrollment "A" 2024 "06005" (Some 0%Z);
    mkEnrollment "A" 2024 "06007" None ].

Definition poverty_full : list Poverty.CountyPoverty :=
  [ Poverty.mkPoverty 2023 "06001" (Some 0.10);
    Poverty.mkPoverty 2023 "06003" (Some 0.30) ].

(** Poverty 2023 has no row for 06003. *)
Definition poverty_partial : list Poverty.CountyPoverty :=
  [ Poverty.mkPoverty 2023 "06001" (Some 0.10);
    Poverty.mkPoverty 2024 "06003" (Some 0.30) ].

(** No county of the contract is covered. *)
Definition poverty_none : list Poverty.CountyPoverty :=
  [ Poverty.mkPoverty 2023 "48201" (Some 0.20) ].

Definition key_A : Key := ("A"%string, 2024%Z).

(** Contract A is rated 4.0 in 2024, inside the band around the cutoff. *)
Definition stars_A : list NearThreshold.ContractYearStars :=
  [ NearThreshold.mkStars "A" 2024 (Some 4.0) ].

(** Contract B, also rated 4.0, lives in a county without poverty data. *)
Definition enrollment_AB : list EnrollmentRecord :=
  enrollment_A ++ [ mkEnrollment "B" 2024 "48001" (Some 50%Z) ].

Definition stars_AB : list NearThreshold.ContractYearStars :=
  [ NearThreshold.mkStars "A" 2024 (Some 4.0);
    NearThreshold.mkStars "B" 2024 (Some 4.0) ].

Definition key_B : Key := ("B"%string, 2024%Z).

Definition poverty_exposure_AB : list ContractYearExposure :=
  Poverty.contract_year_poverty_exposure_clean
    (contract_county_weights enrollment_AB) poverty_partial.

(** The model frame stage 14 builds for the ratings of A and B when only
    A has enrollment: the tables of stages 07, 11 and 16 and the two
    tables of stage 14 all come from the weights of stage 05. *)
Definition rucc_A : list Rural.CountyRucc :=
  [ Rural.mkRucc "06001" (Some 0%Z); Rural.mkRucc "06003" (Some 1%Z) ].

Definition hpsa_A : list Hpsa.CountyHpsa :=
  [ Hpsa.mkHpsa "06001" (Some 10) ].

Definition model_frame_AB : list FullStars.ModelFrame :=
  let weights := contract_county_weights enrollment_A in
  FullStars.contract_year_model_frame_fullstars
    stars_AB
    (Poverty.contract_year_poverty_exposure_clean weights poverty_full)
    (Rural.contract_year_rural_exposure weights rucc_A)
    (Hpsa.contract_year_hpsa_exposure weights hpsa_A)
    (FullStars.contract_year_geo_concentration weights)
    (FullStars.contract_year_enrollment weights).




(** A model frame with three observed star levels, and a parameter
    vector with the two thresholds an ordinal fit over three levels has. *)
Definition model_frame_three_levels : list FullStars.ModelFrame :=
  [ FullStars.mkFrame "A" 2024 (Some 4.0) (Some 0.10) (Some 0) (Some 10)
      (Some 1) (Some 0%R) (Some 1) (Some 1) (Some 1) (Some 100);
    FullStars.mkFrame "B" 2024 (Some 3.5) (Some 0.20) (Some 1) (Some 0)
      (Some 1) (Some 0%R) (Some 1) (Some 1) (Some 1) (Some 50);
    FullStars.mkFrame "C" 2025 (Some 4.5) (Some 0.05) (Some 0) (Some 5)
      (Some 1) (Some 0%R) (Some 1) (Some 1) (Some 1) None ].

Definition fit_two_thresholds (X : list (list R)) (y : list nat)
  : FullStars.OrderedFit :=
  FullStars.mkFit (map (fun _ => 0%R) (hd [] X)) [0%R; 0%R].

(** A near-threshold frame with five contracts in each band of 2024 and
    too few in 2025, and a toy linear congruential generator to run the
    bootstrap on. *)
Definition near_rows : list Bootstrap.Row :=
  [ Bootstrap.mkRow (Some "A1"%string) 2024 NearThreshold.Band_35_39 (Some 0.10) (Some 100);
    Bootstrap.mkRow (Some "A2"%string) 2024 NearThreshold.Band_35_39 (Some 0.12) (Some 200);
    Bootstrap.mkRow (Some "A3"%string) 2024 NearThreshold.Band_35_39 (Some 0.14) (Some 300);
    Bootstrap.mkRow (Some "A4"%string) 2024 NearThreshold.Band_35_39 (Some 0.16) (Some 400);
    Bootstrap.mkRow (Some "A5"%string) 2024 NearThreshold.Band_35_39 (Some 0.18) (Some 500);
    Bootstrap.mkRow (Some "B1"%string) 2024 NearThreshold.Band_40_45 (Some 0.08) (Some 100);
    Bootstrap.mkRow (Some "B2"%string) 2024 NearThreshold.Band_40_45 (Some 0.09) (Some 200);
    Bootstrap.mkRow (Some "B3"%string) 2024 NearThreshold.Band_40_45 (Some 0.10) (Some 300);
    Bootstrap.mkRow (Some "B4"%string) 2024 NearThreshold.Band_40_45 (Some 0.11) (Some 400);
    Bootstrap.mkRow (Some "B5"%string) 2024 NearThreshold.Band_40_45 (Some 0.12) (Some 500);
    Bootstrap.mkRow (Some "A1"%string) 2025 NearThreshold.Band_35_39 (Some 0.10) (Some 100);
    Bootstrap.mkRow (Some "B1"%string) 2025 NearThreshold.Band_40_45 (Some 0.08) (Some 100) ].

Fixpoint toy_draws (g : Z) (population size : nat) : list nat * Z :=
  match size with
  | O => ([], g)
  | S n =>
      let g' := ((1103515245 * g + 12345) mod 2147483648)%Z in
      let (rest, g'') := toy_draws g' population n in
      (Z.to_nat ((g' / 65536) mod Z.of_nat population)%Z :: rest, g'')
  end.

Definition toy_bootstrap (seed : Z) (printed : list Bootstrap.Message)
  : list Bootstrap.BootRow * Bootstrap.World unit :=
  Bootstrap.bootstrap_diff Z (fun s => s) toy_draws unit near_rows 3 seed
    (Bootstrap.mkWorld printed tt).

(** Only county 06001 is a designated shortage area, with score 10. *)
Definition hpsa_partial : list Hpsa.CountyHpsa :=
  [ Hpsa.mkHpsa "06001" (Some 10); Hpsa.mkHpsa "48201" (Some 15) ].

End Scenario.

(** ** Stage 17: slices and opportunity list of the report *)

Module Report.

(** A row of [decomp_full], reduced to the columns the slices and the
    ordering read; [year_2025] is
    [COALESCE(year_2025, 0)]. *)
Record DecompRow : Type := mkDecompRow {
  r_contract_id : string;
  r_stars : Q;
  r_operational_residual : Q;
  r_year_2025 : Z
}.

(** [decomp_full[(stars >= 3.0) & (stars <= 3.9)]] and
    [decomp_full[(stars >= 3.5) & (stars <= 3.9)]]. *)
Definition near_30_39 (decomp_full : list DecompRow) : list DecompRow :=
  filter (fun r => Qle_bool 3.0 (r_stars r) && Qle_bool (r_stars r) 3.9)
         decomp_full.

Definition near_35_39 (decomp_full : list DecompRow) : list DecompRow :=
  filter (fun r => Qle_bool 3.5 (r_stars r) && Qle_bool (r_stars r) 3.9)
         decomp_full.

(** The order of [sort_values(["year_2025", "operational_residual"])]:
    by year, then by residual. *)
Definition row_leb (a b : DecompRow) : bool :=
  (r_year_2025 a <? r_year_2025 b)%Z
  || ((r_year_2025 a =? r_year_2025 b)%Z
      && Qle_bool (r_operational_residual a) (r_operational_residual b)).

Fixpoint insert_row (x : DecompRow) (l : list DecompRow) : list DecompRow :=
  match l with
  | [] => [x]
  | y :: rest => if row_leb x y then x :: l else y :: insert_row x rest
  end.

Definition sort_values (l : list DecompRow) : list DecompRow :=
  fold_right insert_row [] l.

(** [opp.head(50)]; the choice of columns that follows keeps the rows. *)
Definition opportunity_list (decomp_full : list DecompRow) : list DecompRow :=
  firstn 50 (sort_values (near_35_39 decomp_full)).

End Report.

(** ** Predicates used to state the properties of the stages *)

Module Invariants.

(** What every row of the CTE [j] of stage 16 looks like: a positive
    weight, and either a designation with the score of a shortage row, or
    the score 0. *)
Definition j_row_ok (county_hpsa : list Hpsa.CountyHpsa)
    (j : Hpsa.JoinedCounty) : Prop :=
  0 < Hpsa.jc_w j /\
  ((Hpsa.is_designated j = 1%Z /\
    exists h, In h county_hpsa /\
              Hpsa.hpsa_pc_score h = Some (Hpsa.hpsa_score j)) \/
   (Hpsa.is_designated j = 0%Z /\ Hpsa.hpsa_score j = 0)).

(** The years of stage 09 that are resampled: at least five distinct
    contract identifiers in each of the two bands. *)
Definition ids_in_band (df : list Bootstrap.Row) (yr : Z)
    (band : NearThreshold.ThresholdBand) : list string :=
  Bootstrap.unique_ids []
    (map Bootstrap.contract_id
         (filter (fun r => Bootstrap.band_eqb (Bootstrap.threshold_band r) band)
                 (filter (fun r => Z.eqb (Bootstrap.contract_year r) yr) df))).

Definition resampled (df : list Bootstrap.Row) (yr : Z) : bool :=
  negb ((List.length (ids_in_band df yr NearThreshold.Band_35_39) <? 5)%nat
        || (List.length (ids_in_band df yr NearThreshold.Band_40_45) <? 5)%nat).

(** The value [np.nanpercentile] interpolates at a position of the sorted
    values: between the order statistic below it and the next one. *)
Definition interpolate (sorted : list Q) (v0 : Q) (pos : Q) : Q :=
  let lo := Z.to_nat (Qfloor pos) in
  let frac := pos - inject_Z (Qfloor pos) in
  let v_lo := nth lo sorted v0 in
  let v_hi := nth (Nat.min (S lo) (List.length sorted - 1)) sorted v0 in
  v_lo + frac * (v_hi - v_lo).

(** The order of [Report.sort_values] as a relation. *)
Definition row_le (a b : Report.DecompRow) : Prop :=
  Report.row_leb a b = true.

End Invariants.

(** ** Stage 03: staging of the enrollment extract *)

Module StageEnrollment.

Section StageFile.

(** Characters of a Python string, with the class [\d] of the regular
    expressions and the character ['0']. *)
Variable Char : Type.
Variable Char_eq_dec : forall a b : Char, {a = b} + {a <> b}.
Variable is_digit : Char -> bool.
Variable zero : Char.

(** [.astype(str).str.upper().str.strip()] on the contract column and
    [clean_enrollment_value] on a raw enrollment cell, as given functions. *)
Variable Raw : Type.
Variable upper_strip : string -> string.
Variable clean_enrollment_value : Raw -> Z.

(** A row of the extract, reduced to the three columns picked. *)
Record RawRow : Type := mkRaw {
  raw_contract_id : string;
  county_fips_raw : list Char;
  enrollment_raw : Raw
}.

(** A row of the staged frame; [year] is the same on every row. *)
Record Staged : Type := mkStaged {
  st_contract_id : string;
  st_county_fips : list Char;
  st_enrollment : Z
}.

(** [.str.replace(r"\D", "", regex=True)]. *)
Definition digits_only (s : list Char) : list Char := filter is_digit s.

(** [.str[-5:]]. *)
Definition last5 (s : list Char) : list Char :=
  skipn (List.length s - 5) s.

(** [.str.zfill(5)]; the sign rule of [zfill] plays no part after
    [digits_only]. *)
Definition zfill5 (s : list Char) : list Char :=
  repeat zero (5 - List.length s) ++ s.

Definition normalize_fips (s : list Char) : list Char :=
  zfill5 (last5 (digits_only s)).

Definition standardize (r : RawRow) : Staged :=
  mkStaged (upper_strip (raw_contract_id r))
           (normalize_fips (county_fips_raw r))
           (clean_enrollment_value (enrollment_raw r)).

Definition st_key (o : Staged) : string * list Char :=
  (st_contract_id o, st_county_fips o).

Definition st_key_eq_dec (a b : string * list Char) : {a = b} + {a <> b}.
Proof.
  decide equality; [apply (list_eq_dec Char_eq_dec) | apply string_dec].
Defined.

Definition same_key (k : string * list Char) (o : Staged) : bool :=
  if st_key_eq_dec (st_key o) k then true else false.

Definition zsum (l : list Z) : Z := fold_right Z.add 0%Z l.

(** [groupby(["contract_id", "year", "county_fips"],
    as_index=False)["enrollment"].sum()]. *)
Definition groupby_sum (rows : list Staged) : list Staged :=
  map (fun k => mkStaged (fst k) (snd k)
                         (zsum (map st_enrollment (filter (same_key k) rows))))
      (nodup st_key_eq_dec (map st_key rows)).

(** [stage_file], from the rows read: the last step keeps the rows whose
    county code has length 5. *)
Definition stage_file (rows : list RawRow) : list Staged :=
  filter (fun o => Nat.eqb (List.length (st_county_fips o)) 5)
         (groupby_sum (map standardize rows)).

End StageFile.

End StageEnrollment.

(** ** Stage 15: county-level shortage scores *)

Module StageHpsa.

(** A row of [df_f] after the filters and [dropna]: the county, its score
    and [designation_pop] after [fillna(0.0)]. *)
Record Designation : Type := mkDesignation {
  d_county_fips : string;
  d_hpsa_score : Q;
  designation_pop : Q
}.

Inductive WeightMethod : Type :=
| pop_weighted
| simple_mean.

(** [.clip(lower=0.0)]. *)
Definition clip0 (x : Q) : Q := if Qle_bool 0 x then x else 0.

(** [agg_county], on the rows of one county: the score and the method. *)
Definition agg_county (g : list Designation) : Q * WeightMethod :=
  let w := map (fun d => clip0 (designation_pop d)) g in
  let s := map d_hpsa_score g in
  let w_sum := qsum w in
  if negb (Qle_bool w_sum 0) then
    (qsum (map (fun sw => fst sw * snd sw) (combine s w)) / w_sum, pop_weighted)
  else
    (qsum s / inject_Z (Z.of_nat (List.length s)), simple_mean).

(** [df_f.groupby("county_fips", as_index=False).apply(agg_county)], and
    the two columns of [county_hpsa_primarycare] that stage 16 reads. *)
Definition county_hpsa_primarycare (df_f : list Designation)
  : list Hpsa.CountyHpsa :=
  map (fun fips =>
         Hpsa.mkHpsa fips
           (Some (fst (agg_county
                         (filter (fun d => String.eqb (d_county_fips d) fips)
                                 df_f)))))
      (nodup string_dec (map d_county_fips df_f)).

End StageHpsa.

(** ** Stage 10: the rural indicator of a county *)

Module StageRucc.

(** A row of the long view [rucc_raw_long]; [value_integer] is
    [TRY_CAST(value AS INTEGER)], NULL when the text is not a number. *)
Record RuccLong : Type := mkLong {
  l_county_fips : string;
  attribute : string;
  value_integer : option Z
}.

(** [MAX(CASE WHEN attribute = 'RUCC_2023' THEN TRY_CAST(value AS INTEGER)
    END)] over the rows of one county. *)
Definition rucc_2023 (g : list RuccLong) : option Z :=
  sql_maxZ (map (fun r => if String.eqb (attribute r) "RUCC_2023"
                          then value_integer r else None) g).

(** [CASE WHEN rucc_2023 IS NULL THEN NULL WHEN rucc_2023 >= 4 THEN 1
    ELSE 0 END]. *)
Definition rural_indicator (rucc : option Z) : option Z :=
  match rucc with
  | None => None
  | Some c => Some (if (4 <=? c)%Z then 1%Z else 0%Z)
  end.

(** [stage.county_rucc_2023], reduced to the two columns stage 11 reads:
    one row per [county_fips] of the view ([GROUP BY 1]). *)
Definition county_rucc_2023 (raw : list RuccLong) : list Rural.CountyRucc :=
  map (fun fips =>
         Rural.mkRucc fips
           (rural_indicator
              (rucc_2023 (filter (fun r => String.eqb (l_county_fips r) fips)
                                 raw))))
      (nodup string_dec (map l_county_fips raw)).

End StageRucc.

(** ** Column selection in stages 03, 08 and 14 *)

Module Columns.

(** [c in cols]. *)
Definition has_column (cols : list string) (c : string) : bool :=
  existsb (String.eqb c) cols.

(** [pick_col] of stage 03: [for c in candidates: if c in df.columns:
    return c], then [return None]. *)
Fixpoint pick_col (cols candidates : list string) : option string :=
  match candidates with
  | [] => None
  | c :: rest => if has_column cols c then Some c else pick_col cols rest
  end.

(** The candidate list of [pick_stars_col], in its order. *)
Definition stars_candidates : list string :=
  [ "stars_overall"; "stars"; "star_rating"; "overall_star_rating";
    "overall_stars"; "overall_rating"; "summary_star_rating" ]%string.

(** [raise ValueError("Could not find a stars column. ...")], with the
    columns it reports. *)
Inductive ValueError : Type :=
| NoStarsColumn (available : list string).

(** [pick_stars_col] of stage 08: the same loop over its own candidates,
    and an error instead of [None]. *)
Definition pick_stars_col (cols : list string) : ValueError + string :=
  match pick_col cols stars_candidates with
  | Some c => inr c
  | None => inl (NoStarsColumn cols)
  end.

(** [pick_year_column] of stage 14. *)
Definition pick_year_column (cols : list string) : option string :=
  if has_column cols "contract_year" then Some "contract_year"%string
  else if has_column cols "year" then Some "year"%string
  else None.

End Columns.

(** * Verified properties *)

(** ** Facts about the SQL building blocks *)

Lemma key_eqb_eq (a b : Key) : key_eqb a b = true <-> a = b.
Proof.
  destruct a as [c y], b as [c' y']; unfold key_eqb; simpl.
  rewrite andb_true_iff, String.eqb_eq, Z.eqb_eq.
  split; [intros [-> ->]; reflexivity | intros H; inversion H; auto].
Qed.

Lemma key_eqb_refl (a : Key) : key_eqb a a = true.
Proof. apply key_eqb_eq; reflexivity. Qed.

Lemma partition_In {A : Type} (key : A -> Key) (k : Key) (rows : list A) (r : A) :
  In r (partition key k rows) <-> In r rows /\ key r = k.
Proof.
  unfold partition; rewrite filter_In, key_eqb_eq; reflexivity.
Qed.

Lemma partition_map {A B : Type} (f : A -> B) (ka : A -> Key) (kb : B -> Key)
    (k : Key) (rows : list A) :
  (forall a, kb (f a) = ka a) ->
  partition kb k (map f rows) = map f (partition ka k rows).
Proof.
  intros Hk; unfold partition.
  induction rows as [|a rows IH]; simpl; [reflexivity|].
  rewrite Hk; destruct (key_eqb (ka a) k); simpl; rewrite IH; reflexivity.
Qed.

Lemma group_by_In {A : Type} (key : A -> Key) (rows : list A) (g : Key * list A) :
  In g (group_by key rows) <->
  (exists r, In r rows /\ key r = fst g) /\ snd g = partition key (fst g) rows.
Proof.
  unfold group_by; rewrite in_map_iff; split.
  - intros [k [<- Hk]]; simpl.
    apply nodup_In, in_map_iff in Hk. destruct Hk as [r [Hr Hin]].
    split; [exists r; auto | reflexivity].
  - intros [[r [Hin Hr]] Hs]. exists (fst g); split.
    + destruct g as [k l]; simpl in *; subst; reflexivity.
    + apply nodup_In, in_map_iff; exists r; auto.
Qed.

Lemma group_by_nonempty {A : Type} (key : A -> Key) (rows : list A) (g : Key * list A) :
  In g (group_by key rows) -> snd g <> [].
Proof.
  intros Hg; apply group_by_In in Hg; destruct Hg as [[r [Hin Hr]] ->].
  intros E. assert (Hr' : In r (partition key (fst g) rows))
    by (apply partition_In; auto).
  rewrite E in Hr'; exact Hr'.
Qed.

Lemma group_by_keys_NoDup {A : Type} (key : A -> Key) (rows : list A) :
  NoDup (map fst (group_by key rows)).
Proof.
  unfold group_by; rewrite map_map; simpl; rewrite map_id.
  apply NoDup_nodup.
Qed.

(** ** Stage 05 *)

(** An exact identity meets the 1e-6 tolerance of the QC checks. *)
Lemma exact_is_within_tolerance (s : Q) : s == 1 -> Qabs (s - 1) <= 1e-6.
Proof. intros H; rewrite H; vm_compute; discriminate. Qed.

(** Every retained record carries a positive enrollment. *)
Lemma has_enrollment_pos (r : EnrollmentRecord) :
  has_enrollment r = true <-> exists e, er_enrollment r = Some e /\ (0 < e)%Z.
Proof.
  unfold has_enrollment; destruct (er_enrollment r) as [e|]; split.
  - intros H; exists e; split; [reflexivity | apply Z.ltb_lt; exact H].
  - intros [e' [E H]]; inversion E; subst; apply Z.ltb_lt; exact H.
  - discriminate.
  - intros [e' [E _]]; discriminate.
Qed.

(** The window total of a list of retained records: NULL only on the
    empty list, otherwise the positive sum of the enrollments. *)
Lemma window_total_pos (l : list EnrollmentRecord) :
  Forall (fun r => has_enrollment r = true) l ->
  match sql_sumZ (map er_enrollment l) with
  | Some t => (0 < t)%Z /\ l <> []
  | None => l = []
  end.
Proof.
  induction 1 as [|r l Hr Hl IH]; simpl; [reflexivity|].
  apply has_enrollment_pos in Hr; destruct Hr as [e [-> He]].
  destruct (sql_sumZ (map er_enrollment l)) as [t|].
  - split; [lia | discriminate].
  - split; [lia | discriminate].
Qed.

(** Dividing every enrollment of the partition by the window total [t]
    gives weights whose sum, times [t], is the sum of the enrollments. *)
Lemma weights_sum_scaled (t : Z) (l : list EnrollmentRecord) :
  (0 < t)%Z ->
  Forall (fun r => has_enrollment r = true) l ->
  match sql_sum (map (fun r => weight_of (er_enrollment r) (Some t)) l),
        sql_sumZ (map er_enrollment l) with
  | Some s, Some z => s * inject_Z t == inject_Z z
  | None, None => True
  | _, _ => False
  end.
Proof.
  intros Ht; induction 1 as [|r l Hr Hl IH]; simpl; [exact I|].
  apply has_enrollment_pos in Hr; destruct Hr as [e [-> He]]; simpl.
  assert (HT : ~ inject_Z t == 0).
  { intros E. assert (inject_Z 0 < inject_Z t) by (rewrite <- Zlt_Qlt; exact Ht).
    rewrite E in H; apply (Qlt_irrefl _ H). }
  destruct (sql_sum _) as [s|], (sql_sumZ _) as [z|]; try contradiction.
  - rewrite inject_Z_plus, <- IH. field; exact HT.
  - field; exact HT.
Qed.

Lemma weights_rows (enrollment_union : list EnrollmentRecord) (k : Key) :
  let kept := filter has_enrollment enrollment_union in
  partition w_key k (contract_county_weights enrollment_union) =
  map (fun r =>
         mkWeight (er_contract_id r) (er_year r) (er_county_fips r)
                  (er_enrollment r) (partition_total kept k)
                  (weight_of (er_enrollment r) (partition_total kept k)))
      (partition er_key k kept).
Proof.
  intros kept; unfold contract_county_weights; fold kept.
  rewrite (partition_map _ er_key w_key) by reflexivity.
  apply map_ext_in; intros r Hr.
  apply partition_In in Hr; destruct Hr as [_ <-]; reflexivity.
Qed.

Lemma kept_partition_retained (enrollment_union : list EnrollmentRecord) (k : Key) :
  Forall (fun r => has_enrollment r = true)
         (partition er_key k (filter has_enrollment enrollment_union)).
Proof.
  apply Forall_forall; intros r Hr.
  apply partition_In in Hr; destruct Hr as [Hr _].
  apply filter_In in Hr; tauto.
Qed.

(** The weights of a non-empty partition sum to one. *)
Lemma weights_group_sum (enrollment_union : list EnrollmentRecord) (k : Key) (t : Z) :
  partition_total (filter has_enrollment enrollment_union) k = Some t ->
  (0 < t)%Z /\
  sql_sumZ (map enrollment
              (partition w_key k (contract_county_weights enrollment_union)))
    = Some t /\
  exists s,
    sql_sum (map w_enroll
               (partition w_key k (contract_county_weights enrollment_union)))
      = Some s /\ s == 1.
Proof.
  intros Ht. rewrite weights_rows, !map_map; simpl.
  pose proof (kept_partition_retained enrollment_union k) as Hk.
  pose proof (window_total_pos _ Hk) as Hpos.
  unfold partition_total in Ht |- *. rewrite Ht in Hpos |- *.
  destruct Hpos as [Hpos _].
  split; [exact Hpos|]. split; [exact Ht|].
  pose proof (weights_sum_scaled t _ Hpos Hk) as Hs.
  rewrite Ht in Hs. destruct (sql_sum _) as [s|]; [|contradiction].
  exists s; split; [reflexivity|].
  assert (HT : ~ inject_Z t == 0).
  { intros E. assert (inject_Z 0 < inject_Z t) by (rewrite <- Zlt_Qlt; exact Hpos).
    rewrite E in H; apply (Qlt_irrefl _ H). }
  apply (Qmult_inj_r _ _ (inject_Z t) HT). rewrite Hs; ring.
Qed.

(** C1. Every row of [contract_county_weights] carries a positive,
    non-NULL enrollment; its [w_enroll] is its enrollment divided by the
    sum of the enrollments of the rows of its (contract_id, year) group;
    and the weights of every group sum to 1, hence to 1 within 1e-6.  The
    second part says the same for every contract-year whose retained
    enrollment total is positive. *)
Theorem weights_positive_and_normalized :
  forall enrollment_union : list EnrollmentRecord,
    let weights := contract_county_weights enrollment_union in
    (forall row, In row weights ->
       let group := partition w_key (w_key row) weights in
       exists e total s,
         enrollment row = Some e /\ (0 < e)%Z /\
         sql_sumZ (map enrollment group) = Some total /\ (0 < total)%Z /\
         contract_year_total_enrollment row = Some total /\
         w_enroll row =?= Some (inject_Z e / inject_Z total) /\
         sql_sum (map w_enroll group) = Some s /\
         s == 1 /\ Qabs (s - 1) <= 1e-6) /\
    (forall k total,
       partition_total (filter has_enrollment enrollment_union) k = Some total ->
       (0 < total)%Z ->
       exists s,
         sql_sum (map w_enroll (partition w_key k weights)) = Some s /\
         s == 1 /\ Qabs (s - 1) <= 1e-6).
Proof.
  intros enr weights. split.
  - intros row Hrow group.
    unfold weights, contract_county_weights in Hrow.
    apply in_map_iff in Hrow; destruct Hrow as [r [<- Hr]].
    set (kept := filter has_enrollment enr) in *.
    assert (Hret : has_enrollment r = true) by (apply filter_In in Hr; tauto).
    apply has_enrollment_pos in Hret; destruct Hret as [e [He Hepos]].
    assert (Hin : In r (partition er_key (er_key r) kept))
      by (apply partition_In; auto).
    pose proof (window_total_pos _ (kept_partition_retained enr (er_key r))) as Ht.
    fold kept in Ht.
    destruct (sql_sumZ (map er_enrollment (partition er_key (er_key r) kept)))
      as [t|] eqn:Et; [|rewrite Ht in Hin; destruct Hin].
    destruct (weights_group_sum enr (er_key r) t Et) as [Htpos [Hz [s [Hs Hs1]]]].
    exists e, t, s; simpl.
    unfold partition_total; fold kept; rewrite Et, He.
    repeat split; auto.
    + simpl. field. intros E.
      assert (inject_Z 0 < inject_Z t) by (rewrite <- Zlt_Qlt; exact Htpos).
      rewrite E in H; apply (Qlt_irrefl _ H).
    + apply exact_is_within_tolerance; exact Hs1.
  - intros k t Ht _.
    destruct (weights_group_sum enr k t Ht) as [_ [_ [s [Hs Hs1]]]].
    exists s; repeat split; auto.
    apply exact_is_within_tolerance; exact Hs1.
Qed.

Lemma weights_positive_and_normalized_witness :
  (exists e total s,
     Some 80%Z = Some e /\ (0 < e)%Z /\
     sql_sumZ (map enrollment
                 (partition w_key Scenario.key_A
                    (contract_county_weights Scenario.enrollment_A)))
       = Some total /\ (0 < total)%Z /\
     Some 100%Z = Some total /\
     Some (inject_Z 80 * 1.0 / inject_Z 100)
       =?= Some (inject_Z e / inject_Z total) /\
     sql_sum (map w_enroll
                (partition w_key Scenario.key_A
                   (contract_county_weights Scenario.enrollment_A)))
       = Some s /\
     s == 1 /\ Qabs (s - 1) <= 1e-6) /\
  (exists s,
     sql_sum (map w_enroll
                (partition w_key Scenario.key_A
                   (contract_county_weights Scenario.enrollment_A)))
       = Some s /\
     s == 1 /\ Qabs (s - 1) <= 1e-6).
Proof.
  destruct (weights_positive_and_normalized Scenario.enrollment_A) as [Hrow Hkey].
  split.
  - apply (Hrow (mkWeight "A" 2024 "06001" (Some 80%Z) (Some 100%Z)
                          (Some (inject_Z 80 * 1.0 / inject_Z 100)))).
    simpl; left; reflexivity.
  - apply (Hkey Scenario.key_A 100%Z); [reflexivity | lia].
Defined.

(** ** Stages 07 and 11 *)

Lemma qsum_cons (x : Q) (l : list Q) : qsum (x :: l) = x + qsum l.
Proof. reflexivity. Qed.

Lemma qsum_app (a b : list Q) : qsum (a ++ b) == qsum a + qsum b.
Proof.
  induction a as [|x a IH]; simpl; [ring | rewrite IH; ring].
Qed.

Lemma qsum_nonneg (l : list Q) : Forall (fun x => 0 <= x) l -> 0 <= qsum l.
Proof.
  induction 1 as [|x l Hx Hl IH]; simpl; [apply Qle_refl|].
  rewrite <- (Qplus_0_l 0); apply Qplus_le_compat; assumption.
Qed.

(** What [SUM] returns: the sum of the non-NULL values, or NULL when every
    value is NULL. *)
Lemma sql_sum_value (l : list (option Q)) :
  match sql_sum l with
  | Some s => s == qsum (map coalesce0 l)
  | None => Forall (fun o => o = None) l
  end.
Proof.
  induction l as [|[v|] l IH]; simpl.
  - constructor.
  - destruct (sql_sum l) as [s|]; simpl.
    + rewrite IH; reflexivity.
    + assert (E : qsum (map coalesce0 l) == 0).
      { clear -IH. induction IH as [|o l -> Hl IHl]; simpl; [reflexivity|].
        rewrite IHl; ring. }
      rewrite E; ring.
  - destruct (sql_sum l) as [s|]; simpl.
    + rewrite IH; ring.
    + constructor; [reflexivity | exact IH].
Qed.

Lemma sql_sum_some (l : list (option Q)) :
  l <> [] -> Forall (fun o => o <> None) l ->
  exists s, sql_sum l = Some s /\ s == qsum (map coalesce0 l).
Proof.
  intros Hne Hall. pose proof (sql_sum_value l) as H.
  destruct (sql_sum l) as [s|]; [exists s; auto|].
  destruct l as [|o l]; [congruence|].
  inversion H; subst. inversion Hall; subst. congruence.
Qed.

Lemma partition_flat_map {A C : Type} (F : A -> list C) (ka : A -> Key)
    (kc : C -> Key) (k : Key) (l : list A) :
  (forall a c, In c (F a) -> kc c = ka a) ->
  partition kc k (flat_map F l) = flat_map F (partition ka k l).
Proof.
  intros Hk; unfold partition.
  induction l as [|a l IH]; simpl; [reflexivity|].
  rewrite filter_app, IH.
  destruct (key_eqb (ka a) k) eqn:E; simpl; f_equal.
  - apply forallb_filter_id, forallb_forall.
    intros c Hc; rewrite (Hk a c Hc); exact E.
  - clear IH. assert (H : forall c, In c (F a) -> key_eqb (kc c) k = false)
      by (intros c Hc; rewrite (Hk a c Hc); exact E).
    induction (F a) as [|c cs IHc]; simpl; [reflexivity|].
    rewrite (H c (or_introl eq_refl)). apply IHc.
    intros c' Hc'; apply H; right; exact Hc'.
Qed.

Lemma left_join_In {A B C : Type} (on : A -> B -> bool)
    (select : A -> option B -> C) (l : list A) (r : list B) (c : C) :
  In c (left_join on select l r) ->
  exists a b, In a l /\ c = select a b.
Proof.
  unfold left_join; rewrite in_flat_map; intros [a [Ha Hc]].
  exists a. destruct (filter (on a) r) as [|m ms].
  - exists None; destruct Hc as [<-|[]]; auto.
  - apply in_map_iff in Hc; destruct Hc as [b [<- _]]; exists (Some b); auto.
Qed.

Section Renormalization.

Context {B : Type}.
Variable covers : ContractCountyWeight -> B -> bool.
Variable attribute : B -> option Q.

Local Abbreviation dval := (fun j => coalesce0 (denom_term j)).
Local Abbreviation nval := (fun j => coalesce0 (num_term j)).
Local Abbreviation pairs_of w attributes :=
  (flat_map (fun b => if covers w b then
                        match attribute b with
                        | Some v => [(ExposureSpec.weight w, v)]
                        | None => []
                        end
                      else []) attributes).
Local Abbreviation rows_of attributes :=
  (fun w => match filter (covers w) attributes with
            | [] => [select_joined attribute w None]
            | matches => map (fun b => select_joined attribute w (Some b)) matches
            end).

(** The joined rows of one weight row carry, in their two [CASE]
    expressions, exactly the matched pairs of that row. *)
Lemma matched_rows_terms (w : ContractCountyWeight) (attributes : list B) :
  let js := map (fun b => select_joined attribute w (Some b))
                (filter (covers w) attributes) in
  qsum (map dval js) == ExposureSpec.matched_weight (pairs_of w attributes) /\
  qsum (map nval js) == ExposureSpec.weighted_sum (pairs_of w attributes).
Proof.
  unfold ExposureSpec.matched_weight, ExposureSpec.weighted_sum.
  induction attributes as [|b bs [IHd IHn]]; [split; reflexivity|].
  cbn [filter flat_map]. destruct (covers w b); [|split; assumption].
  rewrite !map_app, !qsum_app, <- IHd, <- IHn.
  cbn [map qsum fold_right]. fold (qsum (map dval
    (map (fun b0 => select_joined attribute w (Some b0)) (filter (covers w) bs)))).
  fold (qsum (map nval
    (map (fun b0 => select_joined attribute w (Some b0)) (filter (covers w) bs)))).
  unfold denom_term, num_term, select_joined, ExposureSpec.weight, sql_mul;
    cbn [j_attribute j_w_enroll].
  destruct (attribute b) as [v|]; destruct (w_enroll w) as [x|];
    cbn [coalesce0 map qsum fold_right fst snd]; split; ring.
Qed.

Lemma joined_rows_terms (w : ContractCountyWeight) (attributes : list B) :
  qsum (map dval (rows_of attributes w))
    == ExposureSpec.matched_weight (pairs_of w attributes) /\
  qsum (map nval (rows_of attributes w))
    == ExposureSpec.weighted_sum (pairs_of w attributes).
Proof.
  pose proof (matched_rows_terms w attributes) as H; cbv zeta in H.
  cbv beta. destruct (filter (covers w) attributes) as [|m ms]; [|exact H].
  destruct H as [<- <-]; split; vm_compute; reflexivity.
Qed.

Lemma joined_group_terms (attributes : list B) (group : list ContractCountyWeight) :
  qsum (map dval (flat_map (rows_of attributes) group))
    == ExposureSpec.matched_weight
         (flat_map (fun w => pairs_of w attributes) group) /\
  qsum (map nval (flat_map (rows_of attributes) group))
    == ExposureSpec.weighted_sum
         (flat_map (fun w => pairs_of w attributes) group).
Proof.
  unfold ExposureSpec.matched_weight, ExposureSpec.weighted_sum.
  induction group as [|w ws [IHd IHn]]; [split; reflexivity|].
  destruct (joined_rows_terms w attributes) as [Hd Hn].
  unfold ExposureSpec.matched_weight, ExposureSpec.weighted_sum in Hd, Hn.
  cbn [flat_map]. rewrite !map_app, !qsum_app, IHd, IHn, Hd, Hn.
  split; reflexivity.
Qed.

Lemma joined_key (attributes : list B) (w : ContractCountyWeight) (j : Joined) :
  In j (rows_of attributes w) -> j_key j = w_key w.
Proof.
  cbv beta. destruct (filter (covers w) attributes) as [|m ms].
  - intros [<-|[]]; reflexivity.
  - intros H; apply in_map_iff in H; destruct H as [b [<- _]]; reflexivity.
Qed.

Lemma joined_weight (attributes : list B) (w : ContractCountyWeight) (j : Joined) :
  In j (rows_of attributes w) -> j_w_enroll j = w_enroll w.
Proof.
  cbv beta. destruct (filter (covers w) attributes) as [|m ms].
  - intros [<-|[]]; reflexivity.
  - intros H; apply in_map_iff in H; destruct H as [b [<- _]]; reflexivity.
Qed.

(** The shape of every row of a renormalized exposure table built over
    a weight table whose weights are present and positive. *)
Lemma renormalized_row (weights : list ContractCountyWeight)
    (attributes : list B) (row : ContractYearExposure) :
  (forall w, In w weights -> exists x, w_enroll w = Some x /\ 0 < x) ->
  In row (renormalized_exposure
            (left_join covers (select_joined attribute) weights attributes)) ->
  let m := ExposureSpec.matched_counties covers attribute weights attributes
             (x_key row) in
  exists n d,
    n == ExposureSpec.weighted_sum m /\
    d == ExposureSpec.matched_weight m /\
    0 <= d /\
    coverage_weight_share row = Some d /\
    exposure row = (if Qle_bool d 0 then None else Some (n / d)) /\
    out_of_scope_geography row = (if Qeq_bool d 0 then 1%Z else 0%Z).
Proof.
  intros Hw Hrow m.
  unfold renormalized_exposure, agg in Hrow. rewrite map_map in Hrow.
  apply in_map_iff in Hrow; destruct Hrow as [g [<- Hg]].
  pose proof (group_by_nonempty _ _ _ Hg) as Hne.
  apply group_by_In in Hg; destruct Hg as [_ Hrows].
  destruct g as [k rows]; simpl in Hrows, Hne.
  unfold left_join in Hrows.
  rewrite (partition_flat_map _ w_key j_key) in Hrows
    by (intros a c; apply joined_key).
  assert (Hsome : forall j, In j rows -> exists x, j_w_enroll j = Some x /\ 0 < x).
  { intros j Hj; rewrite Hrows in Hj. apply in_flat_map in Hj.
    destruct Hj as [w [Hin Hj]]. rewrite (joined_weight _ _ _ Hj).
    apply Hw. apply partition_In in Hin; tauto. }
  assert (Hd : Forall (fun o => o <> None) (map denom_term rows)).
  { apply Forall_forall; intros o Ho. apply in_map_iff in Ho.
    destruct Ho as [j [<- Hj]]. destruct (Hsome j Hj) as [x [Hx _]].
    unfold denom_term; rewrite Hx; destruct (j_attribute j); discriminate. }
  assert (Hn : Forall (fun o => o <> None) (map num_term rows)).
  { apply Forall_forall; intros o Ho. apply in_map_iff in Ho.
    destruct Ho as [j [<- Hj]]. destruct (Hsome j Hj) as [x [Hx _]].
    unfold num_term; rewrite Hx; destruct (j_attribute j); discriminate. }
  assert (Hne' : forall f : Joined -> option Q, map f rows <> [])
    by (intros f E; apply map_eq_nil in E; auto).
  destruct (sql_sum_some _ (Hne' denom_term) Hd) as [d [Ed Hdv]].
  destruct (sql_sum_some _ (Hne' num_term) Hn) as [n [En Hnv]].
  rewrite map_map in Hdv, Hnv.
  destruct (joined_group_terms attributes (partition w_key k weights)) as [Gd Gn].
  rewrite <- Hrows in Gd, Gn.
  exists n, d; unfold select_exposure; simpl.
  rewrite Ed, En; simpl.
  assert (Hd0 : 0 <= d).
  { rewrite Hdv. apply qsum_nonneg, Forall_forall.
    intros x Hx; apply in_map_iff in Hx; destruct Hx as [j [<- Hj]].
    destruct (Hsome j Hj) as [x [Hx Hpos]].
    unfold denom_term; rewrite Hx; destruct (j_attribute j); simpl;
      [apply Qlt_le_weak; exact Hpos | apply Qle_refl]. }
  repeat split; auto.
  - rewrite Hnv; exact Gn.
  - rewrite Hdv; exact Gd.
  - destruct (Qle_bool d 0); reflexivity.
Qed.

End Renormalization.

(** Stage 05 hands positive, non-NULL weights to the later stages. *)
Lemma weights_present_positive (enrollment_union : list EnrollmentRecord)
    (w : ContractCountyWeight) :
  In w (contract_county_weights enrollment_union) ->
  exists x, w_enroll w = Some x /\ 0 < x.
Proof.
  intros Hw. unfold contract_county_weights in Hw.
  apply in_map_iff in Hw; destruct Hw as [r [<- Hr]].
  set (kept := filter has_enrollment enrollment_union) in *.
  assert (Hret : has_enrollment r = true) by (apply filter_In in Hr; tauto).
  apply has_enrollment_pos in Hret; destruct Hret as [e [He Hepos]].
  assert (Hin : In r (partition er_key (er_key r) kept))
    by (apply partition_In; auto).
  pose proof (window_total_pos _
                (kept_partition_retained enrollment_union (er_key r))) as Ht.
  fold kept in Ht. cbn [w_enroll]. unfold partition_total.
  destruct (sql_sumZ (map er_enrollment (partition er_key (er_key r) kept)))
    as [t|]; [|rewrite Ht in Hin; destruct Hin].
  destruct Ht as [Ht _]. rewrite He. cbn [weight_of].
  eexists; split; [reflexivity|].
  assert (H0e : 0 < inject_Z e) by (change 0 with (inject_Z 0); rewrite <- Zlt_Qlt; exact Hepos).
  assert (H0t : 0 < inject_Z t) by (change 0 with (inject_Z 0); rewrite <- Zlt_Qlt; exact Ht).
  apply Qlt_shift_div_l; [exact H0t|].
  setoid_replace (0 * inject_Z t) with 0 by ring.
  setoid_replace (inject_Z e * 1.0) with (inject_Z e) by ring.
  exact H0e.
Qed.


Lemma left_join_covers_left {A B C : Type} (on : A -> B -> bool)
    (select : A -> option B -> C) (l : list A) (r : list B) (a : A) :
  In a l -> exists b, In (select a b) (left_join on select l r).
Proof.
  intros Ha. unfold left_join.
  destruct (filter (on a) r) as [|m ms] eqn:E.
  - exists None. apply in_flat_map; exists a; rewrite E; simpl; auto.
  - exists (Some m). apply in_flat_map; exists a; rewrite E.
    split; [exact Ha | left; reflexivity].
Qed.



(** The coverage invariant on one row, from the shape of the row. *)
Lemma coverage_invariant_of_shape (row : ContractYearExposure) (n d : Q) :
  0 <= d ->
  coverage_weight_share row = Some d ->
  exposure row = (if Qle_bool d 0 then None else Some (n / d)) ->
  out_of_scope_geography row = (if Qeq_bool d 0 then 1%Z else 0%Z) ->
  (out_of_scope_geography row = 1%Z <-> coverage_weight_share row =?= Some 0) /\
  (coverage_weight_share row =?= Some 0 <-> exposure row = None) /\
  (out_of_scope_geography row = 1%Z \/ out_of_scope_geography row = 0%Z).
Proof.
  intros Hd0 Hc He Ho. rewrite Hc, He, Ho; cbn [oQeq].
  split; [|split].
  - destruct (Qeq_bool d 0) eqn:E.
    + apply Qeq_bool_iff in E; tauto.
    + split; [discriminate|]. intros H; apply Qeq_bool_iff in H; congruence.
  - destruct (Qle_bool d 0) eqn:E.
    + apply Qle_bool_iff in E. split; [reflexivity|].
      intros _; apply Qle_antisym; assumption.
    + split; [|discriminate]. intros H.
      assert (Qle_bool d 0 = true) by (apply Qle_bool_iff; rewrite H; apply Qle_refl).
      congruence.
  - destruct (Qeq_bool d 0); auto.
Qed.

(** C3. On every row of the two renormalized exposure tables (poverty,
    rural) built over the weights of stage 05, the out-of-scope flag is
    set exactly when [coverage_weight_share] is 0, which holds exactly when
    the exposure is NULL; so a row flagged out of scope never carries an
    exposure value, zero included. *)
Theorem coverage_invariant :
  forall (enrollment_union : list EnrollmentRecord)
         (county_poverty : list Poverty.CountyPoverty)
         (county_rucc : list Rural.CountyRucc)
         (row : ContractYearExposure),
    let weights := contract_county_weights enrollment_union in
    In row (Poverty.contract_year_poverty_exposure_clean weights county_poverty)
    \/ In row (Rural.contract_year_rural_exposure weights county_rucc) ->
    (out_of_scope_geography row = 1%Z <-> coverage_weight_share row =?= Some 0) /\
    (coverage_weight_share row =?= Some 0 <-> exposure row = None) /\
    (out_of_scope_geography row = 1%Z \/ out_of_scope_geography row = 0%Z) /\
    (out_of_scope_geography row = 1%Z -> forall v, exposure row <> Some v).
Proof.
  intros enr cp cr row weights Hrow.
  assert (Hshape : exists n d, 0 <= d /\
            coverage_weight_share row = Some d /\
            exposure row = (if Qle_bool d 0 then None else Some (n / d)) /\
            out_of_scope_geography row = (if Qeq_bool d 0 then 1%Z else 0%Z)).
  { destruct Hrow as [Hrow|Hrow].
    - destruct (renormalized_row Poverty.lag_match Poverty.pov_rate_all
                  weights cp row (weights_present_positive enr) Hrow)
        as [n [d [_ [_ [Hd0 [Hc [He Ho]]]]]]].
      exists n, d; auto.
    - destruct (renormalized_row Rural.county_match
                  (fun r => option_map inject_Z (Rural.rural_indicator r))
                  weights cr row (weights_present_positive enr) Hrow)
        as [n [d [_ [_ [Hd0 [Hc [He Ho]]]]]]].
      exists n, d; auto. }
  destruct Hshape as [n [d [Hd0 [Hc [He Ho]]]]].
  destruct (coverage_invariant_of_shape row n d Hd0 Hc He Ho) as [H1 [H2 H3]].
  repeat split; try tauto.
  intros Hflag v Hv. apply H1, H2 in Hflag. congruence.
Qed.

Lemma coverage_invariant_witness :
  let uncovered := mkExposure "A" 2024 (Some 100%Z) None (Some 0) 1 in
  (out_of_scope_geography uncovered = 1%Z
   <-> coverage_weight_share uncovered =?= Some 0) /\
  (coverage_weight_share uncovered =?= Some 0 <-> exposure uncovered = None) /\
  (out_of_scope_geography uncovered = 1%Z
   \/ out_of_scope_geography uncovered = 0%Z) /\
  (out_of_scope_geography uncovered = 1%Z ->
   forall v, exposure uncovered <> Some v).
Proof.
  intros uncovered.
  apply (coverage_invariant Scenario.enrollment_A Scenario.poverty_none []
           uncovered).
  left; vm_compute; left; reflexivity.
Defined.

(** ** Stage 16 *)

Lemma sql_sum_total (A : Type) (f : A -> Q) (l : list A) :
  l <> [] ->
  exists s, sql_sum (map (fun a => Some (f a)) l) = Some s /\ s == qsum (map f l).
Proof.
  intros Hne.
  destruct (sql_sum_some (map (fun a => Some (f a)) l)) as [s [Hs Hv]].
  - intros E; apply map_eq_nil in E; auto.
  - apply Forall_forall; intros o Ho; apply in_map_iff in Ho.
    destruct Ho as [a [<- _]]; discriminate.
  - exists s; split; [exact Hs|]. rewrite Hv, map_map; reflexivity.
Qed.









(** ** Stage 08 *)

(** Every row of the near-threshold table comes from an exposure row of
    its contract-year that is in scope and carries a value. *)
Lemma near_threshold_row_origin (stars : list NearThreshold.ContractYearStars)
    (poverty : list ContractYearExposure) (row : NearThreshold.NearThresholdRow) :
  In row (NearThreshold.build_near_threshold_dataset stars poverty) ->
  exists x v,
    In x poverty /\
    x_key x = NearThreshold.b_key (NearThreshold.base row) /\
    exposure x = Some v /\
    NearThreshold.poverty_exposure (NearThreshold.base row) = Some v /\
    out_of_scope_geography x = 0%Z.
Proof.
  unfold NearThreshold.build_near_threshold_dataset,
    NearThreshold.contract_year_near_threshold,
    NearThreshold.contract_year_analysis_base.
  intros Hrow. apply in_map_iff in Hrow; destruct Hrow as [b [<- Hb]].
  apply filter_In in Hb; destruct Hb as [Hb Hkeep].
  assert (Hbase : NearThreshold.base (NearThreshold.label b) = b)
    by (unfold NearThreshold.label;
        destruct (NearThreshold.b_stars_rating b); reflexivity).
  rewrite Hbase.
  unfold left_join in Hb. apply in_flat_map in Hb; destruct Hb as [s [Hs Hb]].
  destruct (filter (NearThreshold.same_contract_year s) poverty)
    as [|m ms] eqn:E.
  - destruct Hb as [<-|[]].
    unfold NearThreshold.in_sample in Hkeep; cbn in Hkeep.
    destruct (NearThreshold.stars_rating s); discriminate.
  - rewrite <- E in Hb. apply in_map_iff in Hb; destruct Hb as [x [<- Hx]].
    apply filter_In in Hx; destruct Hx as [Hx Hon].
    unfold NearThreshold.same_contract_year in Hon.
    apply andb_true_iff in Hon; destruct Hon as [Hc Hy].
    apply String.eqb_eq in Hc; apply Z.eqb_eq in Hy.
    unfold NearThreshold.in_sample in Hkeep; cbn in Hkeep.
    destruct (NearThreshold.stars_rating s); [|discriminate].
    destruct (exposure x) as [v|] eqn:Ev; [|discriminate].
    exists x, v. cbn. rewrite Ev. unfold x_key. rewrite Hc, Hy.
    repeat split; auto.
    apply andb_true_iff in Hkeep; destruct Hkeep as [Hkeep _].
    apply andb_true_iff in Hkeep; destruct Hkeep as [Hkeep _].
    apply Z.eqb_eq; exact Hkeep.
Qed.

(** C8. A contract-year whose poverty exposure is NULL, or whose geography
    is flagged out of scope, on every exposure row it has (none included)
    has no row in the near-threshold table, whatever its rating; and the
    exposure of a row of that table is the non-NULL value of an in-scope
    exposure row, never a substitute for a NULL. *)
Theorem null_exposure_excluded_from_near_threshold :
  forall (stars : list NearThreshold.ContractYearStars)
         (poverty : list ContractYearExposure) (k : Key),
    (forall x, In x poverty -> x_key x = k ->
               exposure x = None \/ out_of_scope_geography x <> 0%Z) ->
    forall row,
      In row (NearThreshold.build_near_threshold_dataset stars poverty) ->
      NearThreshold.b_key (NearThreshold.base row) <> k /\
      exists x v,
        In x poverty /\
        x_key x = NearThreshold.b_key (NearThreshold.base row) /\
        exposure x = Some v /\
        NearThreshold.poverty_exposure (NearThreshold.base row) = Some v /\
        out_of_scope_geography x = 0%Z.
Proof.
  intros stars poverty k Hnull row Hrow.
  destruct (near_threshold_row_origin stars poverty row Hrow)
    as [x [v [Hx [Hk [Hv [Hp Ho]]]]]].
  split; [|exists x, v; auto].
  intros Heq. destruct (Hnull x Hx) as [Hn|Hn]; [congruence | congruence | auto].
Qed.

Lemma null_exposure_excluded_from_near_threshold_witness :
  let row :=
    NearThreshold.mkNear
      (NearThreshold.mkBase "A" 2024 (Some 4.0) (Some (8000000 # 80000000))
                            (Some 0.800) (Some 0%Z) (Some 100%Z))
      1 NearThreshold.Band_40_45 in
  NearThreshold.build_near_threshold_dataset
    Scenario.stars_AB Scenario.poverty_exposure_AB = [row] /\
  NearThreshold.b_key (NearThreshold.base row) <> Scenario.key_B.
Proof.
  intros row. split; [vm_compute; reflexivity|].
  apply (null_exposure_excluded_from_near_threshold
           Scenario.stars_AB Scenario.poverty_exposure_AB Scenario.key_B).
  - intros x Hx Hk. vm_compute in Hx.
    destruct Hx as [<-|[<-|[]]]; [discriminate Hk | left; reflexivity].
  - vm_compute; left; reflexivity.
Defined.

(** ** Stage 14: the rows that are fitted *)

Lemma fitted_rows_In (model_df : list FullStars.ModelFrame)
    (g : FullStars.ModelFrame) :
  In g (FullStars.fitted_rows model_df) <->
  exists f, In f model_df /\ FullStars.core_complete f = true /\
            g = FullStars.fill_enrollment f.
Proof.
  unfold FullStars.fitted_rows, FullStars.dropna_core.
  rewrite in_map_iff. split.
  - intros [f [<- Hf]]. apply filter_In in Hf. exists f; tauto.
  - intros [f [Hin [Hc ->]]]. exists f; split; [reflexivity|].
    apply filter_In; auto.
Qed.

Lemma core_complete_fields (f : FullStars.ModelFrame) :
  FullStars.core_complete f = true <->
  FullStars.stars f <> None /\
  FullStars.poverty_exposure f <> None /\
  FullStars.rural_exposure f <> None /\
  FullStars.hpsa_exposure f <> None /\
  FullStars.f_hhi f <> None /\
  FullStars.f_entropy f <> None /\
  FullStars.f_top1_share f <> None /\
  FullStars.f_top5_share f <> None /\
  FullStars.f_n_counties f <> None.
Proof.
  unfold FullStars.core_complete, FullStars.present.
  destruct (FullStars.stars f), (FullStars.poverty_exposure f),
    (FullStars.rural_exposure f), (FullStars.hpsa_exposure f),
    (FullStars.f_hhi f), (FullStars.f_entropy f),
    (FullStars.f_top1_share f), (FullStars.f_top5_share f),
    (FullStars.f_n_counties f); cbn; split; intros H;
    try discriminate; try reflexivity;
    try (repeat split; discriminate);
    try (exfalso; tauto).
Qed.

Lemma fillna_clip_missing_or_small (t : option Q) :
  t = None \/ (exists v, t = Some v /\ v < 1) ->
  FullStars.fillna_clip t = 1.
Proof.
  unfold FullStars.fillna_clip.
  intros [->|[v [-> Hv]]]; [reflexivity|].
  destruct (Qle_bool 1 v) eqn:E; [|reflexivity].
  apply Qle_bool_iff in E. exfalso; apply (Qlt_not_le _ _ Hv E).
Qed.

Lemma log_enroll_of_one (f : FullStars.ModelFrame) :
  FullStars.total_enrollment f = Some 1 -> FullStars.log_enroll f = 0%R.
Proof.
  intros H; unfold FullStars.log_enroll; rewrite H; cbn [coalesce0].
  replace (Q2R 1) with 1%R by (unfold Q2R; cbn; lra).
  apply ln_1.
Qed.

Lemma structural_decomposition_rows (fit : FullStars.OrderedFit) (lv : list Q)
    (ys : list Z) (df : list FullStars.ModelFrame)
    (out : list FullStars.Decomposition) :
  FullStars.structural_decomposition fit lv ys df = Some out ->
  map FullStars.d_row out = df.
Proof.
  revert out; induction df as [|f df IH]; intros out H; cbn in H.
  - inversion H; reflexivity.
  - unfold FullStars.decompose_row in H.
    destruct (FullStars.dot_levels _ lv) as [e|]; [|discriminate].
    destruct (FullStars.structural_decomposition fit lv ys df) as [ds|];
      [|discriminate].
    inversion H; subst; cbn. rewrite (IH ds eq_refl); reflexivity.
Qed.

Lemma model_full_stars_rows
    (ordered_fit : list (list R) -> list nat -> FullStars.OrderedFit)
    (model_df : list FullStars.ModelFrame)
    (out : list FullStars.Decomposition) :
  FullStars.model_full_stars ordered_fit model_df = Some out ->
  map FullStars.d_row out = FullStars.fitted_rows model_df.
Proof.
  unfold FullStars.model_full_stars.
  destruct (FullStars.fitted_rows model_df) as [|f df] eqn:E; [discriminate|].
  destruct (_ <? 3)%nat; [discriminate|].
  apply structural_decomposition_rows.
Qed.

(** ** Stage 14: concentration metrics *)





























(** ** Stage 14: fitted probabilities and decomposition *)

Lemma logistic_cdf_bounds (x : R) :
  (0 <= FullStars.logistic_cdf x <= 1)%R.
Proof.
  unfold FullStars.logistic_cdf. pose proof (exp_pos (- x)) as He.
  split.
  - apply Rlt_le, Rdiv_lt_0_compat; lra.
  - apply (Rmult_le_reg_r (1 + exp (- x))); [lra|].
    unfold Rdiv. rewrite Rmult_assoc, Rinv_l by lra. lra.
Qed.

Lemma logistic_cdf_monotone (x y : R) :
  (x <= y)%R -> (FullStars.logistic_cdf x <= FullStars.logistic_cdf y)%R.
Proof.
  intros Hxy. unfold FullStars.logistic_cdf.
  pose proof (exp_pos (- x)) as Hx. pose proof (exp_pos (- y)) as Hy.
  assert (He : (exp (- y) <= exp (- x))%R).
  { destruct Hxy as [Hlt|Heq].
    - left; apply exp_increasing; lra.
    - right; rewrite Heq; reflexivity. }
  unfold Rdiv. rewrite !Rmult_1_l.
  apply Rinv_le_contravar; lra.
Qed.

(** Sums of positive increments grow. *)
Lemma cumsum_from_sorted (acc : R) (xs : list R) :
  Forall (fun x => (0 < x)%R) xs ->
  Sorted Rle (acc :: FullStars.cumsum_from acc xs).
Proof.
  intros H; revert acc; induction H as [|x xs Hx Hxs IH]; intros acc;
    cbn [FullStars.cumsum_from].
  - constructor; constructor.
  - constructor; [apply IH|]. constructor; lra.
Qed.

Lemma transform_threshold_params_sorted (th : list R) :
  Sorted Rle (FullStars.transform_threshold_params th).
Proof.
  destruct th as [|t0 rest]; [constructor|].
  unfold FullStars.transform_threshold_params.
  cbn [FullStars.cumsum_from].
  apply cumsum_from_sorted.
  apply Forall_map, Forall_forall; intros x _; apply exp_pos.
Qed.

Lemma cumsum_from_length (acc : R) (xs : list R) :
  List.length (FullStars.cumsum_from acc xs) = List.length xs.
Proof.
  revert acc; induction xs as [|x xs IH]; intros acc; cbn; [reflexivity|].
  rewrite IH; reflexivity.
Qed.

Lemma transform_threshold_params_length (th : list R) :
  List.length (FullStars.transform_threshold_params th) = List.length th.
Proof.
  destruct th as [|t0 rest]; [reflexivity|].
  unfold FullStars.transform_threshold_params.
  rewrite cumsum_from_length. cbn; rewrite length_map; reflexivity.
Qed.

Lemma consecutive_length (a : R) (l : list R) :
  List.length (FullStars.consecutive (a :: l)) = List.length l.
Proof.
  revert a; induction l as [|b l IH]; intros a; [reflexivity|].
  change (FullStars.consecutive (a :: b :: l))
    with ((a, b) :: FullStars.consecutive (b :: l)).
  cbn [List.length]. rewrite IH; reflexivity.
Qed.

(** Along a non-decreasing sequence the clipped differences telescope. *)
Lemma differences_telescope (a : R) (l : list R) :
  Sorted Rle (a :: l) ->
  FullStars.rsum
    (map (fun lu => Rmax (snd lu - fst lu) 0) (FullStars.consecutive (a :: l)))
  = (last l a - a)%R.
Proof.
  revert a; induction l as [|b l IH]; intros a Hs.
  - cbn. lra.
  - inversion Hs as [|? ? Hs' Hhd]; subst. inversion Hhd; subst.
    change (FullStars.consecutive (a :: b :: l))
      with ((a, b) :: FullStars.consecutive (b :: l)).
    cbn [map fst snd].
    change (FullStars.rsum (?x :: ?r)) with (x + FullStars.rsum r)%R.
    rewrite (IH b Hs'). rewrite Rmax_left by lra.
    replace (last (b :: l) a) with (last l b)
      by (clear; revert b; induction l as [|c l IHl]; intros b;
          [reflexivity | cbn [last]; destruct l; [reflexivity | apply IHl]]).
    lra.
Qed.

Lemma cdfs_sorted (xb : R) (cuts : list R) :
  Sorted Rle cuts ->
  Sorted Rle
    (0%R :: map (fun c => FullStars.logistic_cdf (c - xb)) cuts ++ [1%R]).
Proof.
  intros Hs.
  assert (Hmid : Sorted Rle
            (map (fun c => FullStars.logistic_cdf (c - xb)) cuts ++ [1%R])).
  { induction Hs as [|c cs Hcs IH Hhd]; cbn [map app].
    - constructor; constructor.
    - constructor; [exact IH|].
      destruct cs as [|c' cs']; cbn [map app]; constructor.
      + apply logistic_cdf_bounds.
      + inversion Hhd; subst. apply logistic_cdf_monotone; lra. }
  constructor; [exact Hmid|].
  destruct cuts as [|c cs]; cbn [map app]; constructor;
    [lra | apply logistic_cdf_bounds].
Qed.

(** The fitted per-level probabilities form a probability vector with
    one entry per level. *)
Lemma predict_probability_vector (fit : FullStars.OrderedFit) (x : list R) :
  let p := FullStars.predict fit x in
  List.length p = S (List.length (FullStars.threshold_params fit)) /\
  Forall (fun q => (0 <= q)%R) p /\
  FullStars.rsum p = 1%R.
Proof.
  unfold FullStars.predict.
  set (xb := FullStars.linpred (FullStars.beta fit) x).
  set (cuts := FullStars.transform_threshold_params
                 (FullStars.threshold_params fit)).
  set (mid := map (fun c => FullStars.logistic_cdf (c - xb)) cuts ++ [1%R]).
  cbv zeta. split; [|split].
  - rewrite length_map, consecutive_length. unfold mid.
    rewrite length_app, length_map. unfold cuts.
    rewrite transform_threshold_params_length. cbn; lia.
  - apply Forall_map, Forall_forall. intros lu _. apply Rmax_r.
  - rewrite differences_telescope.
    + unfold mid. rewrite last_last. lra.
    + apply cdfs_sorted, transform_threshold_params_sorted.
Qed.

(** An average with non-negative weights stays between the bounds of
    the values averaged. *)
Lemma dot_levels_bounds (p : list R) (lv : list Q) (lo hi : R) :
  List.length p = List.length lv ->
  Forall (fun q => (0 <= q)%R) p ->
  (forall l, In l lv -> (lo <= Q2R l <= hi)%R) ->
  let e := FullStars.rsum (map (fun pl => (fst pl * Q2R (snd pl))%R)
                               (combine p lv)) in
  (lo * FullStars.rsum p <= e <= hi * FullStars.rsum p)%R.
Proof.
  revert lv; induction p as [|q p IH]; intros [|l lv] Hlen Hpos Hb;
    cbn in Hlen; try discriminate.
  - cbn. lra.
  - inversion Hpos as [|? ? Hq Hp]; subst.
    assert (Hl : (lo <= Q2R l <= hi)%R) by (apply Hb; left; reflexivity).
    specialize (IH lv (eq_add_S _ _ Hlen) Hp
                   (fun l' H' => Hb l' (or_intror H'))).
    cbv zeta in IH |- *. cbn [combine map fst snd].
    change (FullStars.rsum (?a :: ?r)) with (a + FullStars.rsum r)%R.
    nra.
Qed.

Lemma decompose_row_total (fit : FullStars.OrderedFit) (lv : list Q)
    (ys : list Z) (f : FullStars.ModelFrame) :
  S (List.length (FullStars.threshold_params fit)) = List.length lv ->
  FullStars.decompose_row fit lv ys f =
  Some (FullStars.mkDecomp f
          (FullStars.rsum
             (map (fun pl => (fst pl * Q2R (snd pl))%R)
                  (combine (FullStars.predict fit (FullStars.exog ys f)) lv)))
          (Q2R (coalesce0 (FullStars.stars f))
           - FullStars.rsum
               (map (fun pl => (fst pl * Q2R (snd pl))%R)
                    (combine (FullStars.predict fit (FullStars.exog ys f)) lv)))%R).
Proof.
  intros Hshape. unfold FullStars.decompose_row, FullStars.dot_levels.
  destruct (predict_probability_vector fit (FullStars.exog ys f)) as [Hlen _].
  cbv zeta in Hlen. rewrite Hlen, Hshape, Nat.eqb_refl. reflexivity.
Qed.

Lemma structural_decomposition_total (fit : FullStars.OrderedFit)
    (lv : list Q) (ys : list Z) (df : list FullStars.ModelFrame) :
  S (List.length (FullStars.threshold_params fit)) = List.length lv ->
  exists out,
    FullStars.structural_decomposition fit lv ys df = Some out /\
    forall d, In d out ->
      FullStars.decompose_row fit lv ys (FullStars.d_row d) = Some d.
Proof.
  intros Hshape. induction df as [|f df [out [Hout Hall]]].
  - exists []; split; [reflexivity | intros d []].
  - cbn [FullStars.structural_decomposition].
    rewrite Hout. pose proof (decompose_row_total fit lv ys f Hshape) as Hf.
    rewrite Hf. eexists; split; [reflexivity|].
    intros d [<-|Hd]; [exact Hf | apply Hall; exact Hd].
Qed.

(** Every level is an observed rating. *)
Lemma insert_level_In (x l : Q) (lv : list Q) :
  In l (FullStars.insert_level x lv) -> l = x \/ In l lv.
Proof.
  induction lv as [|y lv IH]; cbn [FullStars.insert_level].
  - intros [<-|[]]; left; reflexivity.
  - destruct (Qeq_bool x y); [right; assumption|].
    destruct (Qle_bool x y).
    + intros [<-|H]; [left; reflexivity | right; exact H].
    + intros [<-|H]; [right; left; reflexivity|].
      destruct (IH H) as [->|H']; [left; reflexivity | right; right; exact H'].
Qed.

Lemma levels_observed (df : list FullStars.ModelFrame) (l : Q) :
  In l (FullStars.levels df) ->
  exists f, In f df /\ coalesce0 (FullStars.stars f) = l.
Proof.
  unfold FullStars.levels. induction df as [|f df IH]; cbn [map fold_right].
  - intros [].
  - intros H. apply insert_level_In in H. destruct H as [->|H].
    + exists f; split; [left; reflexivity | reflexivity].
    + destruct (IH H) as [f' [Hin Hf']]. exists f'; split; [right|]; assumption.
Qed.

(** C5. When the fit has one threshold fewer than there are observed
    levels, the stage produces one decomposition row per fitted row, and
    on each: the fitted per-level probability vector has one non-negative
    entry per level and sums to 1 (so within 1e-6); expected_rating is
    the sum over levels of probability times level value, hence lies
    between any bounds of the observed levels, their minimum and maximum
    in particular; and the residual is the observed rating minus the
    expected one. *)
Theorem decomposition_identity :
  forall (ordered_fit : list (list R) -> list nat -> FullStars.OrderedFit)
         (model_df : list FullStars.ModelFrame),
    let df := FullStars.fitted_rows model_df in
    let lv := FullStars.levels df in
    let ys := FullStars.years df in
    let fit := ordered_fit (map (FullStars.exog ys) df)
                           (map (FullStars.stars_ord lv) df) in
    df <> [] ->
    (3 <= List.length lv)%nat ->
    S (List.length (FullStars.threshold_params fit)) = List.length lv ->
    exists out,
      FullStars.model_full_stars ordered_fit model_df = Some out /\
      map FullStars.d_row out = df /\
      (forall l, In l lv ->
         exists f, In f df /\ coalesce0 (FullStars.stars f) = l) /\
      forall d, In d out ->
        let p := FullStars.predict fit (FullStars.exog ys (FullStars.d_row d)) in
        List.length p = List.length lv /\
        Forall (fun q => (0 <= q)%R) p /\
        FullStars.rsum p = 1%R /\
        (Rabs (FullStars.rsum p - 1) <= / 1000000)%R /\
        FullStars.expected_stars_structural d
          = FullStars.rsum (map (fun pl => (fst pl * Q2R (snd pl))%R)
                                (combine p lv)) /\
        (forall lo hi,
           (forall l, In l lv -> (lo <= Q2R l <= hi)%R) ->
           (lo <= FullStars.expected_stars_structural d <= hi)%R) /\
        FullStars.operational_residual d
          = (Q2R (coalesce0 (FullStars.stars (FullStars.d_row d)))
             - FullStars.expected_stars_structural d)%R.
Proof.
  intros ordered_fit model_df df lv ys fit Hne Hlv Hshape.
  destruct (structural_decomposition_total fit lv ys df Hshape)
    as [out [Hout Hall]].
  exists out. split; [|split; [|split]].
  - unfold FullStars.model_full_stars. fold df.
    destruct df as [|f0 df0] eqn:Edf; [congruence|].
    fold lv. destruct (Nat.ltb_spec (List.length lv) 3) as [Hlt|_]; [lia|].
    exact Hout.
  - apply (structural_decomposition_rows fit lv ys); exact Hout.
  - apply levels_observed.
  - intros d Hd p.
    destruct (predict_probability_vector fit
                (FullStars.exog ys (FullStars.d_row d))) as [Hlen [Hpos Hsum]].
    fold p in Hlen, Hpos, Hsum.
    pose proof (Hall d Hd) as Hrow.
    rewrite (decompose_row_total fit lv ys _ Hshape) in Hrow.
    fold p in Hrow.
    assert (He : FullStars.expected_stars_structural d
                 = FullStars.rsum (map (fun pl => (fst pl * Q2R (snd pl))%R)
                                       (combine p lv)))
      by (inversion Hrow as [Hd']; rewrite <- Hd' at 1; reflexivity).
    assert (Hr : FullStars.operational_residual d
                 = (Q2R (coalesce0 (FullStars.stars (FullStars.d_row d)))
                    - FullStars.expected_stars_structural d)%R)
      by (rewrite He; inversion Hrow as [Hd']; rewrite <- Hd' at 1; reflexivity).
    split; [congruence|]. split; [exact Hpos|]. split; [exact Hsum|].
    split; [rewrite Hsum; replace (1 - 1)%R with 0%R by lra;
            rewrite Rabs_R0; lra|].
    split; [exact He|]. split; [|exact Hr].
    intros lo hi Hb. rewrite He.
    pose proof (dot_levels_bounds p lv lo hi) as B.
    cbv zeta in B. rewrite Hsum in B.
    destruct B as [B1 B2]; [congruence | exact Hpos | exact Hb |]. lra.
Qed.

Lemma decomposition_identity_witness :
  exists out,
    FullStars.model_full_stars Scenario.fit_two_thresholds
      Scenario.model_frame_three_levels = Some out /\
    map FullStars.d_row out
      = FullStars.fitted_rows Scenario.model_frame_three_levels /\
    forall d, In d out ->
      FullStars.operational_residual d
        = (Q2R (coalesce0 (FullStars.stars (FullStars.d_row d)))
           - FullStars.expected_stars_structural d)%R.
Proof.
  destruct (decomposition_identity Scenario.fit_two_thresholds
              Scenario.model_frame_three_levels)
    as [out [Hout [Hrows [_ Hall]]]].
  - discriminate.
  - vm_compute. lia.
  - reflexivity.
  - exists out. split; [exact Hout|]. split; [exact Hrows|].
    intros d Hd. apply (Hall d Hd).
Defined.

(** ** Stage 09 *)

(** The bootstrap runs: on the scenario frame with three draws, 2024 gets
    its three replicates, 2025 is skipped with a warning, and another
    seed gives other replicates. *)
Example toy_bootstrap_runs :
  map Bootstrap.boot_year (fst (Scenario.toy_bootstrap 42 []))
    = [2024%Z; 2024%Z; 2024%Z] /\
  Bootstrap.stdout (snd (Scenario.toy_bootstrap 42 []))
    = [Bootstrap.SmallSample 2025] /\
  fst (Scenario.toy_bootstrap 42 []) <> fst (Scenario.toy_bootstrap 7 []).
Proof.
  split; [vm_compute; reflexivity|]. split; [vm_compute; reflexivity|].
  vm_compute. intros H; inversion H.
Qed.

(** * Further properties of the stages *)

(** ** Stage 05: range of the weights and coverage of the contract-years *)

Lemma window_total_bounds_term (l : list EnrollmentRecord) (r : EnrollmentRecord)
    (e t : Z) :
  Forall (fun r => has_enrollment r = true) l ->
  In r l -> er_enrollment r = Some e ->
  sql_sumZ (map er_enrollment l) = Some t ->
  (e <= t)%Z.
Proof.
  intros Hall; revert t; induction Hall as [|a l Ha Hl IH]; intros t Hin He Ht;
    [destruct Hin|].
  cbn [map sql_sumZ] in Ht.
  apply has_enrollment_pos in Ha; destruct Ha as [ea [Ea Hpos]].
  rewrite Ea in Ht.
  pose proof (window_total_pos l Hl) as Hrest.
  destruct (sql_sumZ (map er_enrollment l)) as [s|].
  - destruct Hrest as [Hs _]. inversion Ht; subst t.
    destruct Hin as [->|Hin].
    + rewrite He in Ea; inversion Ea; subst; lia.
    + specialize (IH s Hin He eq_refl). lia.
  - inversion Ht; subst t. subst l. destruct Hin as [->|[]].
    rewrite He in Ea; inversion Ea; subst; lia.
Qed.

(** X1. Every weight lies in (0, 1]; a contract-year has rows in the
    weight table exactly when one of its records has a positive
    enrollment, and the table has one row per such record. *)
Theorem weights_in_unit_interval_and_cover_positive_records :
  forall (enrollment_union : list EnrollmentRecord),
    let weights := contract_county_weights enrollment_union in
    (forall w, In w weights ->
       exists x, w_enroll w = Some x /\ 0 < x /\ x <= 1) /\
    (forall k,
       (exists w, In w weights /\ w_key w = k) <->
       (exists r, In r enrollment_union /\ er_key r = k /\
                  has_enrollment r = true)) /\
    List.length weights
      = List.length (filter has_enrollment enrollment_union).
Proof.
  intros enr weights. split; [|split].
  - intros w Hw.
    destruct (weights_present_positive enr w Hw) as [x [Hx Hpos]].
    exists x. split; [exact Hx|]. split; [exact Hpos|].
    unfold weights, contract_county_weights in Hw.
    apply in_map_iff in Hw; destruct Hw as [r [<- Hr]].
    set (kept := filter has_enrollment enr) in *.
    assert (Hret : has_enrollment r = true) by (apply filter_In in Hr; tauto).
    apply has_enrollment_pos in Hret; destruct Hret as [e [He Hepos]].
    assert (Hin : In r (partition er_key (er_key r) kept))
      by (apply partition_In; auto).
    cbn [w_enroll] in Hx. unfold partition_total in Hx.
    destruct (sql_sumZ (map er_enrollment (partition er_key (er_key r) kept)))
      as [t|] eqn:Et; [|rewrite He in Hx; discriminate].
    pose proof (window_total_bounds_term _ r e t
                  (kept_partition_retained enr (er_key r)) Hin He Et) as Hle.
    rewrite He in Hx; cbn [weight_of] in Hx. inversion Hx; subst x.
    assert (H0t : 0 < inject_Z t)
      by (change 0 with (inject_Z 0); rewrite <- Zlt_Qlt; lia).
    apply Qle_shift_div_r; [exact H0t|].
    setoid_replace (inject_Z e * 1.0) with (inject_Z e) by ring.
    rewrite Qmult_1_l. rewrite <- Zle_Qle. exact Hle.
  - intros k. unfold weights, contract_county_weights. split.
    + intros [w [Hw Hk]]. apply in_map_iff in Hw. destruct Hw as [r [<- Hr]].
      apply filter_In in Hr. exists r; tauto.
    + intros [r [Hr [Hk Hpos]]].
      eexists; split; [apply in_map; apply filter_In; split; eassumption|].
      exact Hk.
  - unfold weights, contract_county_weights. apply length_map.
Qed.

Lemma weights_in_unit_interval_and_cover_positive_records_witness :
  (exists x, Some 0.800 = Some x /\ 0 < x /\ x <= 1) /\
  (exists r, In r Scenario.enrollment_A /\ er_key r = Scenario.key_A /\
             has_enrollment r = true).
Proof.
  destruct (weights_in_unit_interval_and_cover_positive_records
              Scenario.enrollment_A) as [Hrange [Hkeys _]].
  split.
  - apply (Hrange (mkWeight "A" 2024 "06001" (Some 80%Z) (Some 100%Z)
                            (Some 0.800))).
    vm_compute; left; reflexivity.
  - apply Hkeys.
    exists (mkWeight "A" 2024 "06001" (Some 80%Z) (Some 100%Z) (Some 0.800)).
    split; [vm_compute; left; reflexivity | reflexivity].
Defined.

(** ** One row per contract-year in the grouped tables *)

Lemma group_by_fst {A : Type} (key : A -> Key) (rows : list A) :
  map fst (group_by key rows) = nodup key_eq_dec (map key rows).
Proof.
  unfold group_by. rewrite map_map. cbn [fst]. apply map_id.
Qed.

Lemma pair_of_key (k : Key) : (fst k, snd k) = k.
Proof. destruct k; reflexivity. Qed.

Lemma renormalized_exposure_key_list (joined : list Joined) :
  map x_key (renormalized_exposure joined)
  = nodup key_eq_dec (map j_key joined).
Proof.
  unfold renormalized_exposure, agg. rewrite !map_map.
  rewrite <- group_by_fst, <- (map_map fst (fun k => k)), map_id.
  apply map_ext. intros g. unfold x_key; cbn. apply pair_of_key.
Qed.

Lemma left_join_keys {A B C : Type} (on : A -> B -> bool)
    (select : A -> option B -> C) (ka : A -> Key) (kc : C -> Key)
    (l : list A) (r : list B) (k : Key) :
  (forall a b, kc (select a b) = ka a) ->
  In k (map kc (left_join on select l r)) <-> In k (map ka l).
Proof.
  intros Hk. rewrite !in_map_iff. split.
  - intros [c [<- Hc]]. apply left_join_In in Hc.
    destruct Hc as [a [b [Ha ->]]]. exists a; split; [apply eq_sym, Hk | exact Ha].
  - intros [a [<- Ha]].
    destruct (left_join_covers_left on select l r a Ha) as [b Hb].
    exists (select a b); split; [apply Hk | exact Hb].
Qed.

Lemma renormalized_table_keys {B : Type}
    (covers : ContractCountyWeight -> B -> bool) (attribute : B -> option Q)
    (weights : list ContractCountyWeight) (attributes : list B) :
  let table := renormalized_exposure
                 (left_join covers (select_joined attribute) weights attributes) in
  NoDup (map x_key table) /\
  forall k, In k (map x_key table) <-> In k (map w_key weights).
Proof.
  cbv zeta. rewrite renormalized_exposure_key_list. split; [apply NoDup_nodup|].
  intros k. rewrite nodup_In.
  apply (left_join_keys _ _ w_key j_key). reflexivity.
Qed.

Lemma hpsa_table_keys (weights : list ContractCountyWeight)
    (county_hpsa : list Hpsa.CountyHpsa) :
  let hpsa := Hpsa.contract_year_hpsa_exposure weights county_hpsa in
  NoDup (map Hpsa.he_key hpsa) /\
  forall k, In k (map Hpsa.he_key hpsa)
            <-> In k (map Hpsa.wc_key (Hpsa.cte_w weights)).
Proof.
  cbv zeta.
  assert (E : map Hpsa.he_key
                  (Hpsa.contract_year_hpsa_exposure weights county_hpsa)
              = nodup key_eq_dec
                  (map Hpsa.jc_key (Hpsa.cte_j weights county_hpsa))).
  { unfold Hpsa.contract_year_hpsa_exposure. rewrite map_map.
    rewrite <- group_by_fst, <- (map_map fst (fun k => k)), map_id.
    apply map_ext. intros g. unfold Hpsa.he_key; cbn. apply pair_of_key. }
  rewrite E. split; [apply NoDup_nodup|].
  intros k. rewrite nodup_In. unfold Hpsa.cte_j.
  apply (left_join_keys _ _ Hpsa.wc_key Hpsa.jc_key). reflexivity.
Qed.

Lemma geo_table_keys (weights : list ContractCountyWeight) :
  let geo := FullStars.contract_year_geo_concentration weights in
  NoDup (map FullStars.g_key geo) /\
  forall k, In k (map FullStars.g_key geo)
            <-> In k (map Hpsa.wc_key (Hpsa.cte_w weights)).
Proof.
  cbv zeta.
  assert (E : map FullStars.g_key
                  (FullStars.contract_year_geo_concentration weights)
              = nodup key_eq_dec (map Hpsa.wc_key (Hpsa.cte_w weights))).
  { unfold FullStars.contract_year_geo_concentration, FullStars.cte_w.
    rewrite map_map.
    rewrite <- group_by_fst, <- (map_map fst (fun k => k)), map_id.
    apply map_ext. intros g. unfold FullStars.g_key; cbn. apply pair_of_key. }
  rewrite E. split; [apply NoDup_nodup|].
  intros k. apply nodup_In.
Qed.

(** X2. The exposure tables of stages 07, 11 and 16 and the concentration
    table of stage 14 hold one row per contract-year: no key occurs twice,
    and the keys are those of the weight rows (for stages 16 and 14, of the
    weight rows with a positive weight). *)
Theorem grouped_tables_have_one_row_per_contract_year :
  forall (weights : list ContractCountyWeight)
         (county_poverty : list Poverty.CountyPoverty)
         (county_rucc : list Rural.CountyRucc)
         (county_hpsa : list Hpsa.CountyHpsa),
    let poverty :=
      Poverty.contract_year_poverty_exposure_clean weights county_poverty in
    let rural := Rural.contract_year_rural_exposure weights county_rucc in
    let hpsa := Hpsa.contract_year_hpsa_exposure weights county_hpsa in
    let geo := FullStars.contract_year_geo_concentration weights in
    (NoDup (map x_key poverty) /\
     forall k, In k (map x_key poverty) <-> In k (map w_key weights)) /\
    (NoDup (map x_key rural) /\
     forall k, In k (map x_key rural) <-> In k (map w_key weights)) /\
    (NoDup (map Hpsa.he_key hpsa) /\
     forall k, In k (map Hpsa.he_key hpsa)
               <-> In k (map Hpsa.wc_key (Hpsa.cte_w weights))) /\
    (NoDup (map FullStars.g_key geo) /\
     forall k, In k (map FullStars.g_key geo)
               <-> In k (map Hpsa.wc_key (Hpsa.cte_w weights))).
Proof.
  intros weights cp cr ch poverty rural hpsa geo.
  split; [|split; [|split]].
  - apply (renormalized_table_keys Poverty.lag_match Poverty.pov_rate_all).
  - apply (renormalized_table_keys Rural.county_match).
  - apply hpsa_table_keys.
  - apply geo_table_keys.
Qed.

(** ** Joins against a grouped table do not multiply rows *)

Lemma filter_unique_key {B : Type} (kb : B -> Key) (f : B -> bool) (k : Key)
    (r : list B) :
  NoDup (map kb r) ->
  (forall b, f b = true -> kb b = k) ->
  filter f r = match hd_error (filter f r) with
               | Some b => [b]
               | None => []
               end.
Proof.
  intros Hnd Hf. induction r as [|a r IH]; [reflexivity|].
  inversion Hnd as [|x xs Hnotin Hnd']; subst.
  cbn [filter]. destruct (f a) eqn:Ea.
  - cbn [hd_error]. f_equal.
    assert (Hnone : forall b, In b r -> f b = false).
    { intros b Hb. destruct (f b) eqn:Eb; [|reflexivity].
      exfalso. apply Hnotin. rewrite (Hf a Ea), <- (Hf b Eb).
      apply in_map; exact Hb. }
    clear -Hnone. induction r as [|b r IHr]; [reflexivity|].
    cbn [filter]. rewrite (Hnone b (or_introl eq_refl)).
    apply IHr. intros c Hc; apply Hnone; right; exact Hc.
  - apply IH; exact Hnd'.
Qed.

Lemma left_join_one_row {A B C : Type} (on : A -> B -> bool)
    (select : A -> option B -> C) (l : list A) (r : list B) :
  (forall a, filter (on a) r = match hd_error (filter (on a) r) with
                               | Some b => [b]
                               | None => []
                               end) ->
  left_join on select l r
  = map (fun a => select a (hd_error (filter (on a) r))) l.
Proof.
  intros Hone. unfold left_join.
  rewrite flat_map_concat_map.
  rewrite (map_ext _ (fun a => [select a (hd_error (filter (on a) r))])).
  - rewrite <- flat_map_concat_map.
    induction l as [|a l IH]; [reflexivity|].
    cbn [flat_map map app]; rewrite IH; reflexivity.
  - intros a. generalize (Hone a).
    destruct (filter (on a) r) as [|b [|c t]]; cbn [hd_error];
      intros E; try reflexivity; discriminate.
Qed.

Lemma join_on_key_one_row {B : Type} (key : B -> Key)
    (select : FullStars.ModelFrame -> option B -> FullStars.ModelFrame)
    (l : list FullStars.ModelFrame) (r : list B) :
  NoDup (map key r) ->
  (forall f b, FullStars.f_key (select f b) = FullStars.f_key f) ->
  map FullStars.f_key (left_join (FullStars.on_key key) select l r)
  = map FullStars.f_key l.
Proof.
  intros Hnd Hk. rewrite left_join_one_row.
  - rewrite map_map. apply map_ext. intros f; apply Hk.
  - intros f. apply (filter_unique_key key _ (FullStars.f_key f) r Hnd).
    intros b Hb. unfold FullStars.on_key in Hb.
    apply key_eqb_eq in Hb. symmetry; exact Hb.
Qed.

Lemma enrollment_table_keys (weights : list ContractCountyWeight) :
  NoDup (map (fun e => (FullStars.e_contract_id e, FullStars.e_contract_year e))
             (FullStars.contract_year_enrollment weights)).
Proof.
  unfold FullStars.contract_year_enrollment. rewrite map_map. cbn.
  erewrite map_ext; [|intros g; apply pair_of_key].
  rewrite <- (map_map fst (fun k => k)), map_id, group_by_fst.
  apply NoDup_nodup.
Qed.

(** X3. Joining the ratings to the tables the pipeline builds by GROUP BY
    never multiplies or loses a rated contract-year: the analysis base of
    stage 08 has the rows of the star table, key by key and in order, and
    the model frame of stage 14 has those of the star rows with a rating. *)
Theorem joins_keep_one_row_per_rating :
  forall (weights : list ContractCountyWeight)
         (county_poverty : list Poverty.CountyPoverty)
         (county_rucc : list Rural.CountyRucc)
         (county_hpsa : list Hpsa.CountyHpsa)
         (stars : list NearThreshold.ContractYearStars),
    let poverty :=
      Poverty.contract_year_poverty_exposure_clean weights county_poverty in
    let rural := Rural.contract_year_rural_exposure weights county_rucc in
    let hpsa := Hpsa.contract_year_hpsa_exposure weights county_hpsa in
    let geo := FullStars.contract_year_geo_concentration weights in
    let enroll := FullStars.contract_year_enrollment weights in
    map NearThreshold.b_key
        (NearThreshold.contract_year_analysis_base stars poverty)
    = map (fun s => (NearThreshold.s_contract_id s,
                     NearThreshold.s_contract_year s)) stars /\
    map FullStars.f_key
        (FullStars.contract_year_model_frame_fullstars
           stars poverty rural hpsa geo enroll)
    = map FullStars.f_key (FullStars.cte_s stars) /\
    List.length (FullStars.contract_year_model_frame_fullstars
                   stars poverty rural hpsa geo enroll)
    = List.length (filter (fun s => FullStars.present
                                      (NearThreshold.stars_rating s)) stars).
Proof.
  intros weights cp cr ch stars poverty rural hpsa geo enroll.
  pose proof (proj1 (renormalized_table_keys Poverty.lag_match
                       Poverty.pov_rate_all weights cp)) as Hp.
  pose proof (proj1 (renormalized_table_keys Rural.county_match
                       (fun r => option_map inject_Z (Rural.rural_indicator r))
                       weights cr)) as Hr.
  pose proof (proj1 (hpsa_table_keys weights ch)) as Hh.
  pose proof (proj1 (geo_table_keys weights)) as Hg.
  cbv zeta in Hp, Hr, Hh, Hg.
  change (NoDup (map x_key poverty)) in Hp.
  change (NoDup (map x_key rural)) in Hr.
  fold hpsa in Hh. fold geo in Hg.
  assert (Hframe :
    map FullStars.f_key
        (FullStars.contract_year_model_frame_fullstars
           stars poverty rural hpsa geo enroll)
    = map FullStars.f_key (FullStars.cte_s stars)).
  { unfold FullStars.contract_year_model_frame_fullstars. cbv zeta.
    rewrite (join_on_key_one_row _ FullStars.with_enrollment)
      by (try apply enrollment_table_keys; reflexivity).
    rewrite (join_on_key_one_row _ FullStars.with_geo) by (auto; reflexivity).
    rewrite (join_on_key_one_row _ FullStars.with_hpsa) by (auto; reflexivity).
    rewrite (join_on_key_one_row _ FullStars.with_rural) by (auto; reflexivity).
    rewrite (join_on_key_one_row _ FullStars.with_poverty) by (auto; reflexivity).
    reflexivity. }
  split; [|split].
  - unfold NearThreshold.contract_year_analysis_base.
    rewrite left_join_one_row.
    + rewrite map_map. apply map_ext. intros s; reflexivity.
    + intros s.
      apply (filter_unique_key x_key _
               (NearThreshold.s_contract_id s, NearThreshold.s_contract_year s)
               poverty Hp).
      intros p Hon. unfold NearThreshold.same_contract_year in Hon.
      apply andb_true_iff in Hon; destruct Hon as [Hc Hy].
      apply String.eqb_eq in Hc; apply Z.eqb_eq in Hy.
      unfold x_key; rewrite Hc, Hy; reflexivity.
  - exact Hframe.
  - rewrite <- (length_map FullStars.f_key), Hframe, length_map.
    unfold FullStars.cte_s. clear.
    induction stars as [|s stars IH]; [reflexivity|].
    cbn [flat_map filter]. rewrite length_app, IH.
    destruct (NearThreshold.stars_rating s); reflexivity.
Qed.

(** ** Stage 08: the labels of the near-threshold table *)

(** X5. In the near-threshold table the rating lies in [3.5, 4.5], the
    band is never ['other'], the band is ['4.0-4.5'] exactly when the
    rating is at least 4.0, and [above_4star] is 1 on that band and 0 on
    the other, so the indicator and the band carry the same split. *)
Theorem near_threshold_labels_agree :
  forall (analysis_base : list NearThreshold.AnalysisBase) row,
    In row (NearThreshold.contract_year_near_threshold analysis_base) ->
    exists s,
      NearThreshold.b_stars_rating (NearThreshold.base row) = Some s /\
      3.5 <= s /\ s <= 4.5 /\
      NearThreshold.threshold_band row <> NearThreshold.Band_other /\
      (NearThreshold.threshold_band row = NearThreshold.Band_40_45 <->
       4.0 <= s) /\
      (NearThreshold.threshold_band row = NearThreshold.Band_35_39 <->
       s < 4.0) /\
      NearThreshold.above_4star row =
        match NearThreshold.threshold_band row with
        | NearThreshold.Band_40_45 => 1%Z
        | _ => 0%Z
        end.
Proof.
  intros ab row Hrow.
  unfold NearThreshold.contract_year_near_threshold in Hrow.
  apply in_map_iff in Hrow; destruct Hrow as [b [<- Hb]].
  apply filter_In in Hb; destruct Hb as [_ Hkeep].
  unfold NearThreshold.in_sample in Hkeep. unfold NearThreshold.label.
  destruct (NearThreshold.b_stars_rating b) as [s|] eqn:Es; [|discriminate].
  destruct (NearThreshold.poverty_exposure b); [|discriminate].
  destruct (NearThreshold.b_out_of_scope_geography b); [|discriminate].
  apply andb_true_iff in Hkeep; destruct Hkeep as [Hkeep Hhi].
  apply andb_true_iff in Hkeep; destruct Hkeep as [_ Hlo].
  exists s. cbn [NearThreshold.base NearThreshold.threshold_band
                 NearThreshold.above_4star].
  rewrite Es, Hlo, Hhi.
  apply Qle_bool_iff in Hlo; apply Qle_bool_iff in Hhi.
  split; [reflexivity|]. split; [exact Hlo|]. split; [exact Hhi|].
  destruct (Qle_bool 4.0 s) eqn:E4; cbn [andb negb].
  - apply Qle_bool_iff in E4.
    repeat split; try discriminate; auto.
    intros Hlt. exfalso. apply (Qlt_irrefl s).
    eapply Qlt_le_trans; [exact Hlt | exact E4].
  - assert (Hlt : s < 4.0).
    { destruct (Qlt_le_dec s 4.0) as [H|H]; [exact H|].
      apply Qle_bool_iff in H; congruence. }
    repeat split; try discriminate; auto.
    intros Hge. exfalso. apply (Qlt_irrefl s).
    eapply Qlt_le_trans; [exact Hlt | exact Hge].
Qed.

Lemma near_threshold_labels_agree_witness :
  exists s,
    Some 4.0 = Some s /\ 3.5 <= s /\ s <= 4.5 /\
    NearThreshold.Band_40_45 <> NearThreshold.Band_other /\
    (NearThreshold.Band_40_45 = NearThreshold.Band_40_45 <-> 4.0 <= s) /\
    (NearThreshold.Band_40_45 = NearThreshold.Band_35_39 <-> s < 4.0) /\
    1%Z = 1%Z.
Proof.
  apply (near_threshold_labels_agree
           (NearThreshold.contract_year_analysis_base
              Scenario.stars_AB Scenario.poverty_exposure_AB)
           (NearThreshold.mkNear
              (NearThreshold.mkBase "A" 2024 (Some 4.0)
                 (Some (8000000 # 80000000)) (Some 0.800) (Some 0%Z)
                 (Some 100%Z))
              1 NearThreshold.Band_40_45)).
  vm_compute; left; reflexivity.
Defined.

(** ** Stage 14: the ordinal coding of the ratings *)

Lemma Qle_bool_false_lt (x y : Q) : Qle_bool x y = false -> y < x.
Proof.
  intros H. destruct (Qlt_le_dec y x) as [Hlt|Hle]; [exact Hlt|].
  apply Qle_bool_iff in Hle; congruence.
Qed.

Lemma insert_level_keeps (x l : Q) (lv : list Q) :
  In l lv -> In l (FullStars.insert_level x lv).
Proof.
  induction lv as [|y lv IH]; cbn [FullStars.insert_level]; [intros []|].
  destruct (Qeq_bool x y); [auto|].
  destruct (Qle_bool x y); [intros H; right; exact H|].
  intros [<-|H]; [left; reflexivity | right; apply IH; exact H].
Qed.

Lemma insert_level_has (x : Q) (lv : list Q) :
  exists l, In l (FullStars.insert_level x lv) /\ l == x.
Proof.
  induction lv as [|y lv [l [Hin Heq]]]; cbn [FullStars.insert_level].
  - exists x; split; [left; reflexivity | reflexivity].
  - destruct (Qeq_bool x y) eqn:E.
    + apply Qeq_bool_iff in E. exists y; split; [left; reflexivity|].
      symmetry; exact E.
    + destruct (Qle_bool x y).
      * exists x; split; [left; reflexivity | reflexivity].
      * exists l; split; [right; exact Hin | exact Heq].
Qed.

Lemma insert_level_sorted (x : Q) (lv : list Q) :
  StronglySorted Qlt lv -> StronglySorted Qlt (FullStars.insert_level x lv).
Proof.
  induction 1 as [|y lv Hs IH Hall]; cbn [FullStars.insert_level].
  - constructor; constructor.
  - destruct (Qeq_bool x y) eqn:E; [constructor; assumption|].
    destruct (Qle_bool x y) eqn:L.
    + apply Qle_bool_iff in L.
      assert (Hxy : x < y).
      { apply Qle_lteq in L; destruct L as [L|L]; [exact L|].
        apply Qeq_bool_iff in L; congruence. }
      constructor; [constructor; assumption|].
      constructor; [exact Hxy|].
      rewrite Forall_forall in Hall |- *. intros z Hz.
      eapply Qlt_trans; [exact Hxy | apply Hall; exact Hz].
    + apply Qle_bool_false_lt in L.
      constructor; [exact IH|].
      apply Forall_forall. intros z Hz.
      apply insert_level_In in Hz; destruct Hz as [->|Hz]; [exact L|].
      rewrite Forall_forall in Hall; apply Hall; exact Hz.
Qed.

Lemma levels_sorted (df : list FullStars.ModelFrame) :
  StronglySorted Qlt (FullStars.levels df).
Proof.
  unfold FullStars.levels. induction df as [|f df IH]; cbn [map fold_right].
  - constructor.
  - apply insert_level_sorted; exact IH.
Qed.

Lemma levels_complete (df : list FullStars.ModelFrame) (f : FullStars.ModelFrame) :
  In f df ->
  exists l, In l (FullStars.levels df) /\ l == coalesce0 (FullStars.stars f).
Proof.
  unfold FullStars.levels. induction df as [|g df IH]; [intros []|].
  cbn [map fold_right]. intros [->|Hin].
  - apply insert_level_has.
  - destruct (IH Hin) as [l [Hl Heq]].
    exists l; split; [apply insert_level_keeps; exact Hl | exact Heq].
Qed.

Lemma index_of_found (x : Q) (lv : list Q) :
  (exists l, In l lv /\ l == x) ->
  (FullStars.index_of x lv < List.length lv)%nat /\
  nth (FullStars.index_of x lv) lv 0 == x.
Proof.
  induction lv as [|y lv IH]; intros [l [Hin Heq]]; [destruct Hin|].
  cbn [FullStars.index_of]. destruct (Qeq_bool x y) eqn:E.
  - apply Qeq_bool_iff in E. cbn [List.length nth]. split; [lia|].
    symmetry; exact E.
  - destruct Hin as [->|Hin].
    + exfalso. assert (Qeq_bool x l = true)
        by (apply Qeq_bool_iff; symmetry; exact Heq). congruence.
    + destruct (IH (ex_intro _ l (conj Hin Heq))) as [Hlt Hnth].
      cbn [List.length nth]. split; [lia | exact Hnth].
Qed.

Lemma sorted_nth_increasing (lv : list Q) :
  StronglySorted Qlt lv ->
  forall i j, (i < j)%nat -> (j < List.length lv)%nat ->
              nth i lv 0 < nth j lv 0.
Proof.
  induction 1 as [|y lv Hs IH Hall]; intros i j Hij Hj; cbn in Hj; [lia|].
  destruct j as [|j]; [lia|]. destruct i as [|i]; cbn [nth].
  - rewrite Forall_forall in Hall. apply Hall. apply nth_In. lia.
  - apply IH; lia.
Qed.

Lemma fitted_row_has_stars (model_df : list FullStars.ModelFrame)
    (f : FullStars.ModelFrame) :
  In f (FullStars.fitted_rows model_df) -> exists s, FullStars.stars f = Some s.
Proof.
  intros Hf. apply fitted_rows_In in Hf; destruct Hf as [g [_ [Hc ->]]].
  apply core_complete_fields in Hc; destruct Hc as [Hs _].
  cbn [FullStars.fill_enrollment FullStars.stars].
  destruct (FullStars.stars g) as [s|]; [exists s; reflexivity | congruence].
Qed.

(** X6. The ordinal coding of stage 14 is faithful: the levels are the
    ratings of the fitted rows in strictly increasing order, each fitted
    row's [stars_ord] is a position in that list holding the row's own
    rating, and the coding keeps the order of the ratings. *)
Theorem stars_ord_codes_the_rating :
  forall (model_df : list FullStars.ModelFrame),
    let df := FullStars.fitted_rows model_df in
    let lv := FullStars.levels df in
    StronglySorted Qlt lv /\
    (forall l, In l lv -> exists f, In f df /\ FullStars.stars f = Some l) /\
    (forall f, In f df ->
       exists s, FullStars.stars f = Some s /\
                 (FullStars.stars_ord lv f < List.length lv)%nat /\
                 nth (FullStars.stars_ord lv f) lv 0 == s) /\
    (forall f g s t, In f df -> In g df ->
       FullStars.stars f = Some s -> FullStars.stars g = Some t ->
       (s < t <-> (FullStars.stars_ord lv f < FullStars.stars_ord lv g)%nat)).
Proof.
  intros model_df df lv.
  assert (Hsorted : StronglySorted Qlt lv) by apply levels_sorted.
  assert (Hpos : forall f, In f df ->
            (FullStars.stars_ord lv f < List.length lv)%nat /\
            nth (FullStars.stars_ord lv f) lv 0
              == coalesce0 (FullStars.stars f)).
  { intros f Hf. unfold FullStars.stars_ord. apply index_of_found.
    apply levels_complete; exact Hf. }
  split; [exact Hsorted|]. split; [|split].
  - intros l Hl. destruct (levels_observed df l Hl) as [f [Hf Heq]].
    exists f; split; [exact Hf|].
    destruct (fitted_row_has_stars model_df f Hf) as [s Hs].
    rewrite Hs in Heq |- *. cbn in Heq. congruence.
  - intros f Hf. destruct (fitted_row_has_stars model_df f Hf) as [s Hs].
    destruct (Hpos f Hf) as [Hlt Hnth]. rewrite Hs in Hnth; cbn in Hnth.
    exists s; auto.
  - intros f g s t Hf Hg Hs Ht.
    destruct (Hpos f Hf) as [Hfl Hfn]. destruct (Hpos g Hg) as [Hgl Hgn].
    rewrite Hs in Hfn; rewrite Ht in Hgn; cbn [coalesce0] in Hfn, Hgn.
    set (i := FullStars.stars_ord lv f) in *.
    set (j := FullStars.stars_ord lv g) in *.
    split.
    + intros Hst. destruct (Nat.lt_ge_cases i j) as [H|H]; [exact H|].
      exfalso. apply Nat.lt_eq_cases in H. destruct H as [H|H].
      * pose proof (sorted_nth_increasing lv Hsorted j i H Hfl) as Hn.
        rewrite Hfn, Hgn in Hn.
        apply (Qlt_irrefl s). eapply Qlt_trans; eassumption.
      * rewrite H in Hgn. rewrite Hgn in Hfn. rewrite Hfn in Hst.
        apply (Qlt_irrefl s); exact Hst.
    + intros Hij.
      pose proof (sorted_nth_increasing lv Hsorted i j Hij Hgl) as Hn.
      rewrite Hfn, Hgn in Hn. exact Hn.
Qed.

Lemma stars_ord_codes_the_rating_witness :
  exists s, Some 4.0 = Some s /\ (1 < 3)%nat /\ nth 1 [3.5; 4.0; 4.5] 0 == s.
Proof.
  destruct (stars_ord_codes_the_rating Scenario.model_frame_three_levels)
    as [_ [_ [Hcode _]]].
  apply (Hcode (FullStars.mkFrame "A" 2024 (Some 4.0) (Some 0.10) (Some 0)
                  (Some 10) (Some 1) (Some 0%R) (Some 1) (Some 1) (Some 1)
                  (Some 100))).
  left; reflexivity.
Defined.

(** ** Stage 14: year fixed effects and the design matrix *)

Lemma insert_year_In (y z : Z) (l : list Z) :
  In z (FullStars.insert_year y l) <-> z = y \/ In z l.
Proof.
  induction l as [|x l IH]; cbn [FullStars.insert_year].
  - cbn; intuition.
  - destruct (Z.eqb y x) eqn:E.
    + apply Z.eqb_eq in E; subst x. cbn; intuition.
    + destruct (Z.leb y x); cbn [In]; [intuition|].
      rewrite IH. intuition.
Qed.

Lemma insert_year_sorted (y : Z) (l : list Z) :
  StronglySorted Z.lt l -> StronglySorted Z.lt (FullStars.insert_year y l).
Proof.
  induction 1 as [|x l Hs IH Hall]; cbn [FullStars.insert_year].
  - constructor; constructor.
  - destruct (Z.eqb y x) eqn:E; [constructor; assumption|].
    apply Z.eqb_neq in E. destruct (Z.leb y x) eqn:L.
    + apply Z.leb_le in L.
      constructor; [constructor; assumption|].
      constructor; [lia|].
      rewrite Forall_forall in Hall |- *. intros z Hz.
      specialize (Hall z Hz). lia.
    + apply Z.leb_gt in L.
      constructor; [exact IH|].
      apply Forall_forall. intros z Hz.
      apply insert_year_In in Hz; destruct Hz as [->|Hz]; [exact L|].
      rewrite Forall_forall in Hall; apply Hall; exact Hz.
Qed.

Lemma years_sorted (df : list FullStars.ModelFrame) :
  StronglySorted Z.lt (FullStars.years df).
Proof.
  unfold FullStars.years. induction df as [|f df IH]; cbn [map fold_right].
  - constructor.
  - apply insert_year_sorted; exact IH.
Qed.

Lemma years_In (df : list FullStars.ModelFrame) (y : Z) :
  In y (FullStars.years df) <->
  exists f, In f df /\ FullStars.contract_year f = y.
Proof.
  unfold FullStars.years. induction df as [|f df IH]; cbn [map fold_right].
  - split; [intros [] | intros [f [[] _]]].
  - rewrite insert_year_In, IH. split.
    + intros [->|[g [Hg Hy]]].
      * exists f; split; [left; reflexivity | reflexivity].
      * exists g; split; [right; exact Hg | exact Hy].
    + intros [g [[->|Hg] Hy]]; [left; symmetry; exact Hy|].
      right; exists g; split; assumption.
Qed.

Lemma rsum_cons (x : R) (l : list R) :
  FullStars.rsum (x :: l) = (x + FullStars.rsum l)%R.
Proof. reflexivity. Qed.

Lemma dummies_absent (y : Z) (l : list Z) :
  ~ In y l ->
  FullStars.rsum (map (fun z => if Z.eqb y z then 1%R else 0%R) l) = 0%R.
Proof.
  induction l as [|x l IH]; intros Hn; cbn [map]; [reflexivity|].
  rewrite rsum_cons.
  - destruct (Z.eqb y x) eqn:E.
    + apply Z.eqb_eq in E. exfalso; apply Hn; left; symmetry; exact E.
    + rewrite IH; [lra|]. intros H; apply Hn; right; exact H.
Qed.

Lemma dummies_present (y : Z) (l : list Z) :
  StronglySorted Z.lt l -> In y l ->
  FullStars.rsum (map (fun z => if Z.eqb y z then 1%R else 0%R) l) = 1%R.
Proof.
  induction 1 as [|x l Hs IH Hall]; intros Hin; [destruct Hin|].
  cbn [map]. rewrite rsum_cons. rewrite Forall_forall in Hall.
  destruct Hin as [->|Hin].
  - rewrite Z.eqb_refl, dummies_absent; [lra|].
    intros H. specialize (Hall y H). lia.
  - destruct (Z.eqb y x) eqn:E.
    + apply Z.eqb_eq in E. specialize (Hall y Hin). lia.
    + rewrite IH by exact Hin. lra.
Qed.

(** X7. The year fixed effects of stage 14 are a one-hot coding with the
    earliest year as the dropped baseline: every row of the design matrix
    has nine features and one 0/1 column per later year, the columns of a
    row are all 0 in the baseline year and hold exactly one 1 otherwise. *)
Theorem year_dummies_one_hot_baseline_dropped :
  forall (df : list FullStars.ModelFrame) (f : FullStars.ModelFrame),
    In f df ->
    let ys := FullStars.years df in
    let baseline := hd 0%Z ys in
    (forall g, In g df -> (baseline <= FullStars.contract_year g)%Z) /\
    List.length (FullStars.exog ys f) = (9 + pred (List.length ys))%nat /\
    Forall (fun d => d = 0%R \/ d = 1%R) (FullStars.year_dummies ys f) /\
    FullStars.rsum (FullStars.year_dummies ys f) =
      (if Z.eqb (FullStars.contract_year f) baseline then 0%R else 1%R).
Proof.
  intros df f Hf ys baseline.
  assert (Hin : In (FullStars.contract_year f) ys)
    by (apply years_In; exists f; split; [exact Hf | reflexivity]).
  pose proof (years_sorted df) as Hsorted. fold ys in Hsorted.
  assert (Hmem : forall g, In g df -> In (FullStars.contract_year g) ys)
    by (intros g Hg; apply years_In; exists g; split; [exact Hg | reflexivity]).
  unfold baseline. clearbody ys.
  destruct ys as [|y0 rest]; [destruct Hin|]. cbn [hd].
  inversion Hsorted as [|? ? Hrest Hall]; subst.
  rewrite Forall_forall in Hall.
  split; [|split; [|split]].
  - intros g Hg. destruct (Hmem g Hg) as [<-|H]; [lia|].
    specialize (Hall _ H). lia.
  - unfold FullStars.exog, FullStars.year_dummies.
    rewrite length_app, length_map. cbn [List.length tl]. lia.
  - unfold FullStars.year_dummies. apply Forall_forall. intros d Hd.
    apply in_map_iff in Hd; destruct Hd as [y [<- _]].
    destruct (Z.eqb _ y); [right | left]; reflexivity.
  - unfold FullStars.year_dummies. cbn [tl].
    destruct (Z.eqb (FullStars.contract_year f) y0) eqn:E.
    + apply Z.eqb_eq in E. apply dummies_absent.
      intros H. specialize (Hall _ H). lia.
    + apply Z.eqb_neq in E. apply dummies_present; [exact Hrest|].
      destruct Hin as [H|H]; [congruence | exact H].
Qed.

Lemma year_dummies_one_hot_baseline_dropped_witness :
  FullStars.rsum
    (FullStars.year_dummies [2024%Z; 2025%Z]
       (FullStars.mkFrame "C" 2025 (Some 4.5) (Some 0.05) (Some 0) (Some 5)
          (Some 1) (Some 0%R) (Some 1) (Some 1) (Some 1) None)) = 1%R.
Proof.
  apply (year_dummies_one_hot_baseline_dropped
           Scenario.model_frame_three_levels
           (FullStars.mkFrame "C" 2025 (Some 4.5) (Some 0.05) (Some 0) (Some 5)
              (Some 1) (Some 0%R) (Some 1) (Some 1) (Some 1) None)).
  right; right; left; reflexivity.
Defined.

(** ** Stage 14 on the weights of stage 05: the enrollment of a contract-year *)

Lemma weights_total_present (enrollment_union : list EnrollmentRecord)
    (w : ContractCountyWeight) :
  In w (contract_county_weights enrollment_union) ->
  exists t,
    partition_total (filter has_enrollment enrollment_union) (w_key w) = Some t /\
    (1 <= t)%Z /\
    contract_year_total_enrollment w = Some t.
Proof.
  intros Hw. unfold contract_county_weights in Hw.
  apply in_map_iff in Hw; destruct Hw as [r [<- Hr]].
  set (kept := filter has_enrollment enrollment_union) in *.
  cbn [contract_year_total_enrollment].
  change (w_key _) with (er_key r).
  pose proof (window_total_pos _
                (kept_partition_retained enrollment_union (er_key r))) as Ht.
  fold kept in Ht. unfold partition_total.
  destruct (sql_sumZ (map er_enrollment (partition er_key (er_key r) kept)))
    as [t|].
  - exists t. destruct Ht as [Ht _].
    split; [reflexivity | split; [lia | reflexivity]].
  - exfalso. assert (Hin : In r (partition er_key (er_key r) kept))
      by (apply partition_In; auto).
    rewrite Ht in Hin; exact Hin.
Qed.

Lemma sql_max_const (v : Q) (l : list (option Q)) :
  l <> [] -> (forall x, In x l -> x = Some v) -> sql_max l = Some v.
Proof.
  induction l as [|x l IH]; [congruence|]. intros _ Hall.
  cbn [sql_max]. rewrite (Hall x (or_introl eq_refl)).
  destruct l as [|y l]; [reflexivity|].
  rewrite IH; [|discriminate | intros z Hz; apply Hall; right; exact Hz].
  destruct (Qle_bool v v); reflexivity.
Qed.

Lemma enrollment_table_rows (enrollment_union : list EnrollmentRecord)
    (e : FullStars.ContractYearEnrollment) :
  In e (FullStars.contract_year_enrollment
          (contract_county_weights enrollment_union)) ->
  exists t,
    partition_total (filter has_enrollment enrollment_union) (FullStars.e_key e) = Some t /\
    (1 <= t)%Z /\
    FullStars.e_total_enrollment e = Some (inject_Z t).
Proof.
  intros He. unfold FullStars.contract_year_enrollment in He.
  apply in_map_iff in He; destruct He as [g [<- Hg]].
  pose proof (group_by_nonempty _ _ _ Hg) as Hne.
  apply group_by_In in Hg; destruct Hg as [[r [Hr Hk]] Hs].
  apply filter_In in Hr; destruct Hr as [Hr _].
  destruct (weights_total_present enrollment_union r Hr) as [t [Ht [Hpos _]]].
  unfold FullStars.e_key.
  cbn [FullStars.e_contract_id FullStars.e_contract_year
       FullStars.e_total_enrollment].
  exists t. split; [|split; [exact Hpos|]].
  { etransitivity; [|exact Ht]. f_equal. rewrite pair_of_key.
    symmetry; exact Hk. }
  apply sql_max_const.
  - intros E; apply map_eq_nil in E; exact (Hne E).
  - intros x Hx. apply in_map_iff in Hx; destruct Hx as [w [<- Hw]].
    pose proof (eq_ind _ (fun l => In w l) Hw _ Hs) as Hw'. cbv beta in Hw'.
    apply partition_In in Hw'; destruct Hw' as [Hw' Hwk].
    apply filter_In in Hw'; destruct Hw' as [Hw' _].
    destruct (weights_total_present enrollment_union w Hw') as [t' [Ht' [_ ->]]].
    assert (Hsame : w_key w = w_key r) by (rewrite Hwk; symmetry; exact Hk).
    rewrite Hsame, Ht in Ht'. inversion Ht'; reflexivity.
Qed.

Lemma enrollment_table_covers (enrollment_union : list EnrollmentRecord)
    (k : Key) :
  In k (map FullStars.e_key (FullStars.contract_year_enrollment
                     (contract_county_weights enrollment_union)))
  <-> In k (map w_key (contract_county_weights enrollment_union)).
Proof.
  unfold FullStars.contract_year_enrollment. rewrite map_map.
  unfold FullStars.e_key. cbn.
  erewrite map_ext; [|intros g; apply pair_of_key].
  rewrite <- (map_map fst (fun k => k)), map_id, group_by_fst, nodup_In.
  rewrite !in_map_iff. split.
  - intros [w [<- Hw]]. apply filter_In in Hw. exists w; tauto.
  - intros [w [<- Hw]]. exists w; split; [reflexivity|].
    apply filter_In; split; [exact Hw|].
    destruct (weights_total_present enrollment_union w Hw) as [t [_ [_ ->]]].
    reflexivity.
Qed.

(** X8. On the weights of stage 05, [contract_year_enrollment] of stage 14
    has exactly one row per contract-year of the weights table, and its
    [total_enrollment] is the sum of the positive county enrollments of
    that contract-year, a whole number that is at least 1. *)
Theorem contract_year_enrollment_is_the_positive_total :
  forall (enrollment_union : list EnrollmentRecord),
    let weights := contract_county_weights enrollment_union in
    let enroll := FullStars.contract_year_enrollment weights in
    NoDup (map FullStars.e_key enroll) /\
    (forall k, In k (map FullStars.e_key enroll) <-> In k (map w_key weights)) /\
    (forall e, In e enroll ->
       exists t,
         partition_total (filter has_enrollment enrollment_union)
                         (FullStars.e_key e) = Some t /\
         (1 <= t)%Z /\
         FullStars.e_total_enrollment e = Some (inject_Z t)).
Proof.
  intros eu weights enroll. split; [|split].
  - apply enrollment_table_keys.
  - apply enrollment_table_covers.
  - apply enrollment_table_rows.
Qed.

Lemma contract_year_enrollment_is_the_positive_total_witness :
  exists t,
    partition_total (filter has_enrollment Scenario.enrollment_A)
                    ("A"%string, 2024%Z) = Some t /\
    (1 <= t)%Z /\
    Some (inject_Z 100) = Some (inject_Z t).
Proof.
  destruct (contract_year_enrollment_is_the_positive_total
              Scenario.enrollment_A) as [_ [_ Hrows]].
  apply (Hrows (FullStars.mkEnroll "A" 2024 (Some (inject_Z 100)))).
  vm_compute; left; reflexivity.
Defined.

(** ** Stage 14 on the weights of stage 05: the imputation of the enrollment *)

Lemma left_join_row {A B C : Type} (on : A -> B -> bool)
    (select : A -> option B -> C) (l : list A) (r : list B) (c : C) :
  In c (left_join on select l r) ->
  exists a, In a l /\
    ((c = select a None /\ forall b, In b r -> on a b = false) \/
     (exists b, In b r /\ on a b = true /\ c = select a (Some b))).
Proof.
  unfold left_join; rewrite in_flat_map; intros [a [Ha Hc]].
  exists a; split; [exact Ha|].
  destruct (filter (on a) r) as [|m ms] eqn:E.
  - left. destruct Hc as [<-|[]]. split; [reflexivity|].
    intros b Hb. destruct (on a b) eqn:Eb; [|reflexivity].
    assert (H : In b (filter (on a) r)) by (apply filter_In; auto).
    rewrite E in H; destruct H.
  - right. rewrite <- E in Hc. apply in_map_iff in Hc.
    destruct Hc as [b [<- Hb]]. apply filter_In in Hb.
    exists b; tauto.
Qed.

Lemma cte_w_keys_in_weights (weights : list ContractCountyWeight) (k : Key) :
  In k (map Hpsa.wc_key (Hpsa.cte_w weights)) -> In k (map w_key weights).
Proof.
  rewrite !in_map_iff. intros [c [<- Hc]].
  unfold Hpsa.cte_w in Hc. apply in_flat_map in Hc.
  destruct Hc as [w [Hw Hc]]. exists w; split; [|exact Hw].
  destruct (w_enroll w) as [x|]; [|destruct Hc].
  destruct (Qle_bool x 0); [destruct Hc|].
  destruct Hc as [<-|[]]; reflexivity.
Qed.

(** A frame row that found its concentration metrics also finds its
    enrollment, a total of at least one. *)
Lemma frame_row_enrollment (enrollment_union : list EnrollmentRecord)
    (sprh : list FullStars.ModelFrame) (f : FullStars.ModelFrame) :
  let weights := contract_county_weights enrollment_union in
  In f (left_join (FullStars.on_key FullStars.e_key) FullStars.with_enrollment
          (left_join (FullStars.on_key FullStars.g_key) FullStars.with_geo
             sprh (FullStars.contract_year_geo_concentration weights))
          (FullStars.contract_year_enrollment weights)) ->
  FullStars.f_n_counties f <> None ->
  exists t, FullStars.total_enrollment f = Some t /\ 1 <= t.
Proof.
  intros weights Hf Hn.
  apply left_join_row in Hf; destruct Hf as [f1 [Hf1 Hf]].
  assert (Hn1 : FullStars.f_n_counties f1 <> None)
    by (destruct Hf as [[-> _]|[e [_ [_ ->]]]]; exact Hn).
  apply left_join_row in Hf1; destruct Hf1 as [f2 [_ Hf1]].
  assert (Hkey : In (FullStars.f_key f1) (map w_key weights)).
  { destruct Hf1 as [[-> _]|[g [Hg [Hon ->]]]]; [exfalso; apply Hn1; reflexivity|].
    apply cte_w_keys_in_weights. apply (proj2 (geo_table_keys weights)).
    unfold FullStars.on_key in Hon. apply key_eqb_eq in Hon.
    change (FullStars.f_key (FullStars.with_geo f2 (Some g)))
      with (FullStars.f_key f2).
    rewrite Hon. apply in_map; exact Hg. }
  apply enrollment_table_covers in Hkey.
  apply in_map_iff in Hkey; destruct Hkey as [e [He Hin]].
  destruct Hf as [[_ Hnone]|[e' [He' [_ ->]]]].
  - exfalso. specialize (Hnone e Hin). unfold FullStars.on_key in Hnone.
    rewrite He in Hnone.
    assert (key_eqb (FullStars.f_key f1) (FullStars.f_key f1) = true)
      by (apply key_eqb_eq; reflexivity).
    congruence.
  - destruct (enrollment_table_rows enrollment_union e' He')
      as [t [_ [Hpos Ht]]].
    exists (inject_Z t). split; [exact Ht|].
    change 1 with (inject_Z 1). rewrite <- Zle_Qle. exact Hpos.
Qed.

Lemma fill_enrollment_unchanged (f : FullStars.ModelFrame) (t : Q) :
  FullStars.total_enrollment f = Some t -> 1 <= t ->
  FullStars.fill_enrollment f = f.
Proof.
  intros Ht Hle. destruct f; cbn in Ht; subst.
  unfold FullStars.fill_enrollment, FullStars.fillna_clip; cbn.
  apply Qle_bool_iff in Hle. rewrite Hle. reflexivity.
Qed.

(** X9. When stage 14 runs on the weights of stage 05, every frame row
    that has its concentration metrics also has a total enrollment of at
    least 1, taken from the same weights.  The fill-and-clip of the
    enrollment therefore changes no fitted row: the rows handed to the fit
    are the complete rows of the frame, unmodified. *)
Theorem imputation_is_idle_on_pipeline_weights :
  forall (enrollment_union : list EnrollmentRecord)
         (stars : list NearThreshold.ContractYearStars)
         (poverty rural : list ContractYearExposure)
         (hpsa : list Hpsa.HpsaExposure),
    let weights := contract_county_weights enrollment_union in
    let frame :=
      FullStars.contract_year_model_frame_fullstars stars poverty rural hpsa
        (FullStars.contract_year_geo_concentration weights)
        (FullStars.contract_year_enrollment weights) in
    (forall f, In f frame -> FullStars.f_n_counties f <> None ->
               exists t, FullStars.total_enrollment f = Some t /\ 1 <= t) /\
    FullStars.fitted_rows frame = FullStars.dropna_core frame.
Proof.
  intros eu stars poverty rural hpsa weights frame.
  assert (Hrow : forall f, In f frame -> FullStars.f_n_counties f <> None ->
            exists t, FullStars.total_enrollment f = Some t /\ 1 <= t).
  { intros f Hf. unfold frame, FullStars.contract_year_model_frame_fullstars in Hf.
    cbv zeta in Hf. eapply (frame_row_enrollment eu). exact Hf. }
  split; [exact Hrow|].
  unfold FullStars.fitted_rows. rewrite <- (map_id (FullStars.dropna_core frame)) at 2.
  apply map_ext_in. intros f Hf.
  unfold FullStars.dropna_core in Hf. apply filter_In in Hf.
  destruct Hf as [Hf Hc].
  apply core_complete_fields in Hc.
  destruct Hc as [_ [_ [_ [_ [_ [_ [_ [_ Hn]]]]]]]].
  destruct (Hrow f Hf Hn) as [t [Ht Hle]].
  apply (fill_enrollment_unchanged f t Ht Hle).
Qed.

Lemma imputation_is_idle_on_pipeline_weights_witness :
  let weights := contract_county_weights Scenario.enrollment_A in
  let frame :=
    FullStars.contract_year_model_frame_fullstars Scenario.stars_A [] [] []
      (FullStars.contract_year_geo_concentration weights)
      (FullStars.contract_year_enrollment weights) in
  exists t,
    FullStars.total_enrollment
      (hd (FullStars.mkFrame "" 0 None None None None None None None None
             None None) frame) = Some t /\ 1 <= t.
Proof.
  intros weights frame.
  destruct (imputation_is_idle_on_pipeline_weights
              Scenario.enrollment_A Scenario.stars_A [] [] [])
    as [Hrow _].
  apply Hrow.
  - cbv -[Rplus Rmult Ropp ln Q2R]. left; reflexivity.
  - cbv -[Rplus Rmult Ropp ln Q2R]. discriminate.
Defined.

(** ** Stage 16: signs and counts of the shortage exposure *)

Lemma cte_j_rows (weights : list ContractCountyWeight)
    (county_hpsa : list Hpsa.CountyHpsa) (j : Hpsa.JoinedCounty) :
  In j (Hpsa.cte_j weights county_hpsa) -> Invariants.j_row_ok county_hpsa j.
Proof.
  intros Hj. unfold Hpsa.cte_j in Hj. apply left_join_row in Hj.
  destruct Hj as [c [Hc Hj]].
  assert (Hw : 0 < Hpsa.wc_w c).
  { unfold Hpsa.cte_w in Hc. apply in_flat_map in Hc.
    destruct Hc as [w [_ Hc]].
    destruct (w_enroll w) as [x|]; [|destruct Hc].
    destruct (Qle_bool x 0) eqn:E; [destruct Hc|].
    destruct Hc as [<-|[]]. cbn. apply Qle_bool_false_lt; exact E. }
  destruct Hj as [[-> _]|[h [Hh [_ ->]]]]; split; try exact Hw.
  - right; split; reflexivity.
  - left; split; [reflexivity|].
    unfold Hpsa.cte_h in Hh. apply in_flat_map in Hh.
    destruct Hh as [r [Hr Hh]].
    destruct (Hpsa.hpsa_pc_score r) as [s|] eqn:Es; [|destruct Hh].
    destruct Hh as [<-|[]]. exists r; split; [exact Hr | exact Es].
Qed.

Lemma hpsa_group_signs (county_hpsa : list Hpsa.CountyHpsa)
    (rows : list Hpsa.JoinedCounty) :
  (forall h v, In h county_hpsa -> Hpsa.hpsa_pc_score h = Some v -> 0 <= v) ->
  Forall (Invariants.j_row_ok county_hpsa) rows ->
  let designated := filter (fun j => Z.eqb (Hpsa.is_designated j) 1) rows in
  let e := qsum (map (fun j => Hpsa.jc_w j * Hpsa.hpsa_score j) rows) in
  let s := qsum (map (fun j => if Z.eqb (Hpsa.is_designated j) 1
                               then Hpsa.jc_w j else 0) rows) in
  0 <= s /\ 0 <= e /\
  (designated = [] -> e == 0 /\ s == 0) /\
  (designated <> [] -> 0 < s).
Proof.
  intros Hb. induction 1 as [|j rows [Hw Hj] Hrows IH]; cbv zeta.
  - cbn. repeat split; try apply Qle_refl; try reflexivity.
    intros H; exfalso; apply H; reflexivity.
  - cbv zeta in IH. cbn [map filter]. rewrite !qsum_cons.
    destruct IH as [I0 [I1 [I2 I3]]].
    set (e := qsum (map (fun j => Hpsa.jc_w j * Hpsa.hpsa_score j) rows)) in *.
    set (s := qsum (map (fun j => if Z.eqb (Hpsa.is_designated j) 1
                                  then Hpsa.jc_w j else 0) rows)) in *.
    clearbody e s.
    destruct Hj as [[Hd [h [Hh Hs]]]|[Hd Hs]]; rewrite Hd; cbn [Z.eqb Pos.eqb].
    + pose proof (Hb h _ Hh Hs) as B.
      set (w := Hpsa.jc_w j) in *. set (v := Hpsa.hpsa_score j) in *.
      clearbody w v.
      split; [Lqa.lra|]. split; [Lqa.nra|]. split; [discriminate|].
      intros _. Lqa.lra.
    + rewrite Hs. split; [Lqa.lra|]. split; [Lqa.lra|]. split.
      * intros Hnil. destruct (I2 Hnil) as [E0 S0]. split; Lqa.lra.
      * intros Hne. pose proof (I3 Hne). Lqa.lra.
Qed.

Lemma designated_count (rows : list Hpsa.JoinedCounty) :
  rows <> [] ->
  sql_sumZ (map (fun j => if Z.eqb (Hpsa.is_designated j) 1
                          then Some 1%Z else Some 0%Z) rows)
  = Some (Z.of_nat
            (List.length
               (filter (fun j => Z.eqb (Hpsa.is_designated j) 1) rows))).
Proof.
  induction rows as [|j rows IH]; [congruence|]. intros _.
  cbn [map sql_sumZ filter].
  destruct rows as [|j' rows].
  - cbn. destruct (Z.eqb (Hpsa.is_designated j) 1); reflexivity.
  - rewrite IH by discriminate.
    destruct (Z.eqb (Hpsa.is_designated j) 1); cbn [List.length];
      f_equal; lia.
Qed.

(** X11. Every row of the shortage exposure table has a value in each
    column; the number of designated counties lies between 0 and
    [counties_total], which is at least 1; when no score of the shortage
    table is negative, neither the designated weight share nor the
    exposure is negative; a contract-year without a designated county has
    the exposure 0 and the share 0, and one with a designated county has
    a positive share. *)
Theorem hpsa_exposure_signs_and_counts :
  forall (weights : list ContractCountyWeight)
         (county_hpsa : list Hpsa.CountyHpsa)
         (row : Hpsa.HpsaExposure),
    (forall h v, In h county_hpsa -> Hpsa.hpsa_pc_score h = Some v ->
                 0 <= v) ->
    In row (Hpsa.contract_year_hpsa_exposure weights county_hpsa) ->
    exists e s d,
      Hpsa.hpsa_exposure row = Some e /\
      Hpsa.hpsa_designated_weight_share row = Some s /\
      Hpsa.counties_designated row = Some d /\
      0 <= s /\ 0 <= e /\
      (0 <= d <= Hpsa.counties_total row)%Z /\
      (1 <= Hpsa.counties_total row)%Z /\
      (d = 0%Z -> e == 0 /\ s == 0) /\
      ((0 < d)%Z -> 0 < s).
Proof.
  intros weights hpsa row Hb Hrow.
  unfold Hpsa.contract_year_hpsa_exposure in Hrow.
  apply in_map_iff in Hrow; destruct Hrow as [g [<- Hg]].
  pose proof (group_by_nonempty _ _ _ Hg) as Hne.
  apply group_by_In in Hg; destruct Hg as [_ Hrows].
  destruct g as [k rows]; cbn [fst snd] in *.
  assert (Hok : Forall (Invariants.j_row_ok hpsa) rows).
  { apply Forall_forall. intros j Hj. rewrite Hrows in Hj.
    apply partition_In in Hj. apply (cte_j_rows weights hpsa j); tauto. }
  clear Hrows.
  destruct (hpsa_group_signs hpsa rows Hb Hok) as [B0 [B1 [B2 B3]]].
  destruct (sql_sum_total _ (fun j => Hpsa.jc_w j * Hpsa.hpsa_score j) rows Hne)
    as [e [Ee Hev]].
  destruct (sql_sum_some
              (map (fun j => if Z.eqb (Hpsa.is_designated j) 1
                             then Some (Hpsa.jc_w j) else Some 0) rows))
    as [s [Es Hsv]].
  { intros E; apply map_eq_nil in E; exact (Hne E). }
  { apply Forall_forall. intros o Ho. apply in_map_iff in Ho.
    destruct Ho as [j [<- _]].
    destruct (Z.eqb (Hpsa.is_designated j) 1); discriminate. }
  assert (Hs' : s == qsum (map (fun j => if Z.eqb (Hpsa.is_designated j) 1
                                         then Hpsa.jc_w j else 0) rows)).
  { rewrite Hsv, map_map.
    assert (E : map (fun j => coalesce0 (if Z.eqb (Hpsa.is_designated j) 1
                                         then Some (Hpsa.jc_w j) else Some 0))
                    rows
                = map (fun j => if Z.eqb (Hpsa.is_designated j) 1
                                then Hpsa.jc_w j else 0) rows).
    { apply map_ext. intros j.
      destruct (Z.eqb (Hpsa.is_designated j) 1); reflexivity. }
    rewrite E. reflexivity. }
  pose proof (designated_count rows Hne) as Ed.
  pose proof (filter_length_le (fun j => Z.eqb (Hpsa.is_designated j) 1) rows)
    as Hlen.
  exists e, s,
    (Z.of_nat (List.length
                 (filter (fun j => Z.eqb (Hpsa.is_designated j) 1) rows))).
  cbn [Hpsa.hpsa_exposure Hpsa.hpsa_designated_weight_share
       Hpsa.counties_designated Hpsa.counties_total].
  cbv zeta in B0, B1, B2, B3. rewrite <- Hev, <- Hs' in *.
  split; [exact Ee|]. split; [exact Es|]. split; [exact Ed|].
  split; [exact B0|]. split; [exact B1|]. split; [lia|]. split.
  { destruct rows; [congruence | cbn [List.length]; lia]. }
  split.
  - intros Hz. apply B2.
    destruct (filter (fun j => Z.eqb (Hpsa.is_designated j) 1) rows);
      [reflexivity | cbn [List.length] in Hz; lia].
  - intros Hp. apply B3. intros Hnil. rewrite Hnil in Hp.
    cbn [List.length] in Hp. lia.
Qed.

Lemma hpsa_exposure_signs_and_counts_witness :
  let row :=
    hd (Hpsa.mkHpsaExposure "" 0 None None 0 None)
       (Hpsa.contract_year_hpsa_exposure
          (contract_county_weights Scenario.enrollment_A)
          Scenario.hpsa_partial) in
  exists e s d,
    Hpsa.hpsa_exposure row = Some e /\
    Hpsa.hpsa_designated_weight_share row = Some s /\
    Hpsa.counties_designated row = Some d /\
    0 <= s /\ 0 <= e /\
    (0 <= d <= Hpsa.counties_total row)%Z /\
    (1 <= Hpsa.counties_total row)%Z /\
    (d = 0%Z -> e == 0 /\ s == 0) /\
    ((0 < d)%Z -> 0 < s).
Proof.
  intros row.
  apply (hpsa_exposure_signs_and_counts
           (contract_county_weights Scenario.enrollment_A)
           Scenario.hpsa_partial).
  - intros h v Hh Hv. vm_compute in Hh.
    repeat (destruct Hh as [<-|Hh];
            [inversion Hv; subst; vm_compute; discriminate|]).
    destruct Hh.
  - vm_compute; left; reflexivity.
Defined.

(** ** Stage 09: which years are resampled, and what is printed *)

Section BootstrapShape.

Variable Gen : Type.
Variable default_rng : Z -> Gen.
Variable choice : Gen -> nat -> nat -> list nat * Gen.
Variable Ambient : Type.

Lemma replicates_years (n_boot : nat) (yr : Z) (d_a d_b : list Bootstrap.Row)
    (ids_a ids_b : list string) (g : Gen) :
  map Bootstrap.boot_year
      (fst (Bootstrap.replicates Gen choice n_boot yr d_a d_b ids_a ids_b g))
  = repeat yr n_boot.
Proof.
  revert g; induction n_boot as [|n IH]; intros g; [reflexivity|].
  cbn [Bootstrap.replicates].
  destruct (Bootstrap.rng_choice Gen choice g ids_a) as [samp_a g1].
  destruct (Bootstrap.rng_choice Gen choice g1 ids_b) as [samp_b g2].
  specialize (IH g2).
  destruct (Bootstrap.replicates Gen choice n yr d_a d_b ids_a ids_b g2)
    as [rows g3].
  cbn [fst map repeat Bootstrap.boot_year Bootstrap.replicate] in *.
  rewrite IH; reflexivity.
Qed.

Lemma over_years_shape (df : list Bootstrap.Row) (n_boot : nat)
    (yrs : list Z) (g : Gen) (w : Bootstrap.World Ambient) :
  let run := Bootstrap.over_years Gen choice Ambient df n_boot yrs g w in
  map Bootstrap.boot_year (fst (fst run))
  = flat_map (fun yr => if Invariants.resampled df yr
                        then repeat yr n_boot else []) yrs /\
  Bootstrap.stdout (snd run)
  = Bootstrap.stdout w
    ++ map Bootstrap.SmallSample
         (filter (fun yr => negb (Invariants.resampled df yr)) yrs) /\
  Bootstrap.ambient (snd run) = Bootstrap.ambient w.
Proof.
  revert g w; induction yrs as [|yr yrs IH]; intros g w; cbv zeta.
  - cbn. rewrite app_nil_r. auto.
  - cbn [Bootstrap.over_years flat_map filter].
    unfold Invariants.resampled at 1 3, Invariants.ids_in_band.
    set (d_a := filter _ (filter _ df)).
    set (d_b := filter _ (filter _ df)).
    destruct ((List.length (Bootstrap.unique_ids []
                              (map Bootstrap.contract_id d_a)) <? 5)
              || (List.length (Bootstrap.unique_ids []
                                 (map Bootstrap.contract_id d_b)) <? 5))%nat;
      cbn [negb].
    + destruct (IH g (Bootstrap.print (Bootstrap.SmallSample yr) w))
        as [H1 [H2 H3]].
      cbv zeta in H1, H2, H3. rewrite H1, H2, H3.
      unfold Bootstrap.print; cbn [Bootstrap.stdout Bootstrap.ambient app map].
      rewrite <- app_assoc. auto.
    + pose proof (replicates_years n_boot yr d_a d_b
                    (Bootstrap.unique_ids [] (map Bootstrap.contract_id d_a))
                    (Bootstrap.unique_ids [] (map Bootstrap.contract_id d_b)) g)
        as Hrep.
      destruct (Bootstrap.replicates Gen choice n_boot yr d_a d_b _ _ g)
        as [rows g1].
      destruct (IH g1 w) as [H1 [H2 H3]]. cbv zeta in H1, H2, H3.
      destruct (Bootstrap.over_years Gen choice Ambient df n_boot yrs g1 w)
        as [[more g''] w'].
      cbn [fst snd] in *. rewrite map_app, Hrep, H1. auto.
Qed.

(** X12. [bootstrap_diff] returns exactly [n_boot] rows for each year that
    has at least five distinct contracts in both bands, years ascending,
    and no row for any other year; for each skipped year it prints one
    warning, in the same order, after what was printed before, and it
    changes nothing else around it. *)
Theorem bootstrap_rows_and_warnings_by_year :
  forall (df : list Bootstrap.Row) (n_boot : nat) (seed : Z)
         (w : Bootstrap.World Ambient),
    let run := Bootstrap.bootstrap_diff Gen default_rng choice Ambient
                 df n_boot seed w in
    let yrs := fold_right FullStars.insert_year []
                 (map Bootstrap.contract_year df) in
    StronglySorted Z.lt yrs /\
    map Bootstrap.boot_year (fst run)
    = flat_map (fun yr => if Invariants.resampled df yr
                          then repeat yr n_boot else []) yrs /\
    Bootstrap.stdout (snd run)
    = Bootstrap.stdout w
      ++ map Bootstrap.SmallSample
           (filter (fun yr => negb (Invariants.resampled df yr)) yrs) /\
    Bootstrap.ambient (snd run) = Bootstrap.ambient w.
Proof.
  intros df n_boot seed w run yrs. split.
  - unfold yrs. clear. induction df as [|r df IH]; cbn [map fold_right].
    + constructor.
    + apply insert_year_sorted; exact IH.
  - unfold run, Bootstrap.bootstrap_diff.
    pose proof (over_years_shape df n_boot yrs (default_rng seed) w) as H.
    cbv zeta in H. fold yrs.
    destruct (Bootstrap.over_years Gen choice Ambient df n_boot yrs
                (default_rng seed) w) as [[rows g'] w'].
    exact H.
Qed.

End BootstrapShape.

(** ** Weighted sums between bounds *)

Lemma products_between (xs ws : list Q) (lo hi : Q) :
  List.length xs = List.length ws ->
  Forall (fun w => 0 <= w) ws ->
  (forall x, In x xs -> lo <= x /\ x <= hi) ->
  lo * qsum ws <= qsum (map (fun xw => fst xw * snd xw) (combine xs ws)) /\
  qsum (map (fun xw => fst xw * snd xw) (combine xs ws)) <= hi * qsum ws.
Proof.
  revert ws; induction xs as [|x xs IH]; intros [|w ws] Hlen Hw Hb;
    try discriminate.
  - cbn. split; rewrite Qmult_0_r; apply Qle_refl.
  - inversion Hw as [|? ? Hw0 Hws]; subst.
    destruct (IH ws (eq_add_S _ _ Hlen) Hws (fun y Hy => Hb y (or_intror Hy)))
      as [I1 I2].
    destruct (Hb x (or_introl eq_refl)) as [B1 B2].
    cbn [combine map fst snd]. rewrite !qsum_cons.
    set (n := qsum (map (fun xw => fst xw * snd xw) (combine xs ws))) in *.
    set (s := qsum ws) in *. clearbody n s.
    split; Lqa.nra.
Qed.

(** ** Stage 09: the percentiles of the bootstrap summary *)

Lemma insert_asc_In (x y : Q) (l : list Q) :
  In y (Bootstrap.insert_asc x l) <-> y = x \/ In y l.
Proof.
  induction l as [|z l IH]; cbn [Bootstrap.insert_asc].
  - cbn; intuition.
  - destruct (Qle_bool x z); cbn [In]; [intuition|]. rewrite IH. intuition.
Qed.

Lemma insert_asc_sorted (x : Q) (l : list Q) :
  StronglySorted Qle l -> StronglySorted Qle (Bootstrap.insert_asc x l).
Proof.
  induction 1 as [|z l Hs IH Hall]; cbn [Bootstrap.insert_asc].
  - constructor; constructor.
  - destruct (Qle_bool x z) eqn:E.
    + apply Qle_bool_iff in E.
      constructor; [constructor; assumption|].
      constructor; [exact E|].
      rewrite Forall_forall in Hall |- *. intros y Hy.
      eapply Qle_trans; [exact E | apply Hall; exact Hy].
    + apply Qle_bool_false_lt in E. apply Qlt_le_weak in E.
      constructor; [exact IH|].
      apply Forall_forall. intros y Hy.
      apply insert_asc_In in Hy; destruct Hy as [->|Hy]; [exact E|].
      rewrite Forall_forall in Hall; apply Hall; exact Hy.
Qed.

Lemma sort_asc_sorted (l : list Q) :
  StronglySorted Qle (fold_right Bootstrap.insert_asc [] l).
Proof.
  induction l as [|x l IH]; cbn [fold_right]; [constructor|].
  apply insert_asc_sorted; exact IH.
Qed.

Lemma sort_asc_In (l : list Q) (y : Q) :
  In y (fold_right Bootstrap.insert_asc [] l) <-> In y l.
Proof.
  induction l as [|x l IH]; cbn [fold_right]; [reflexivity|].
  rewrite insert_asc_In, IH. cbn. intuition.
Qed.

Lemma sorted_nth_le (l : list Q) (v0 : Q) :
  StronglySorted Qle l ->
  forall i j, (i <= j)%nat -> (j < List.length l)%nat ->
              nth i l v0 <= nth j l v0.
Proof.
  induction 1 as [|y l Hs IH Hall]; intros i j Hij Hj; cbn in Hj; [lia|].
  destruct j as [|j].
  - assert (i = O) by lia. subst. apply Qle_refl.
  - destruct i as [|i]; cbn [nth].
    + rewrite Forall_forall in Hall. apply Hall. apply nth_In. lia.
    + apply IH; lia.
Qed.

Lemma floor_position (n : nat) (pos : Q) :
  0 <= pos -> pos <= inject_Z (Z.of_nat n) ->
  (Z.to_nat (Qfloor pos) <= n)%nat /\
  (0 <= Qfloor pos)%Z /\
  0 <= pos - inject_Z (Qfloor pos) /\
  pos - inject_Z (Qfloor pos) < 1.
Proof.
  intros H0 Hn.
  assert (F0 : (0 <= Qfloor pos)%Z).
  { change 0%Z with (Qfloor 0). apply Qfloor_resp_le; exact H0. }
  assert (Fn : (Qfloor pos <= Z.of_nat n)%Z).
  { rewrite <- (Qfloor_Z (Z.of_nat n)). apply Qfloor_resp_le; exact Hn. }
  pose proof (Qfloor_le pos) as Hle. pose proof (Qlt_floor pos) as Hlt.
  rewrite inject_Z_plus in Hlt. change (inject_Z 1) with 1 in Hlt.
  repeat split; [lia | exact F0 | Lqa.lra | Lqa.lra].
Qed.

Lemma interpolate_between (l : list Q) (v0 pos : Q) :
  StronglySorted Qle l -> l <> [] ->
  0 <= pos -> pos <= inject_Z (Z.of_nat (List.length l - 1)) ->
  let lo := Z.to_nat (Qfloor pos) in
  (lo <= List.length l - 1)%nat /\
  nth lo l v0 <= Invariants.interpolate l v0 pos /\
  Invariants.interpolate l v0 pos
    <= nth (Nat.min (S lo) (List.length l - 1)) l v0.
Proof.
  intros Hs Hne H0 Hn lo.
  destruct (floor_position _ pos H0 Hn) as [Hlo [_ [F0 F1]]]. fold lo in Hlo.
  assert (Hlen : (0 < List.length l)%nat)
    by (destruct l; [congruence | cbn; lia]).
  assert (Hord : nth lo l v0 <= nth (Nat.min (S lo) (List.length l - 1)) l v0)
    by (apply sorted_nth_le; [exact Hs | lia | lia]).
  unfold Invariants.interpolate. fold lo.
  set (a := nth lo l v0) in *.
  set (b := nth (Nat.min (S lo) (List.length l - 1)) l v0) in *.
  set (f := pos - inject_Z (Qfloor pos)) in *. clearbody a b f.
  split; [exact Hlo|]. split; Lqa.nra.
Qed.

Lemma interpolate_monotone (l : list Q) (v0 p1 p2 : Q) :
  StronglySorted Qle l -> l <> [] ->
  0 <= p1 -> p1 <= p2 -> p2 <= inject_Z (Z.of_nat (List.length l - 1)) ->
  Invariants.interpolate l v0 p1 <= Invariants.interpolate l v0 p2.
Proof.
  intros Hs Hne H0 H12 Hn.
  assert (H1n : p1 <= inject_Z (Z.of_nat (List.length l - 1)))
    by (eapply Qle_trans; eassumption).
  assert (H02 : 0 <= p2) by (eapply Qle_trans; eassumption).
  destruct (interpolate_between l v0 p1 Hs Hne H0 H1n) as [L1 [A1 B1]].
  destruct (interpolate_between l v0 p2 Hs Hne H02 Hn) as [L2 [A2 B2]].
  destruct (floor_position _ p1 H0 H1n) as [_ [Z1 [F1 G1]]].
  destruct (floor_position _ p2 H02 Hn) as [_ [Z2 [F2 G2]]].
  pose proof (Qfloor_resp_le p1 p2 H12) as Hfl.
  assert (Hlen : (0 < List.length l)%nat)
    by (destruct l; [congruence | cbn; lia]).
  destruct (Z.eq_dec (Qfloor p1) (Qfloor p2)) as [E|E].
  - unfold Invariants.interpolate. rewrite <- E.
    assert (Hord : nth (Z.to_nat (Qfloor p1)) l v0
                   <= nth (Nat.min (S (Z.to_nat (Qfloor p1)))
                                   (List.length l - 1)) l v0)
      by (apply sorted_nth_le; [exact Hs | lia | lia]).
    rewrite <- E in F2, G2.
    set (a := nth (Z.to_nat (Qfloor p1)) l v0) in *.
    set (b := nth (Nat.min (S (Z.to_nat (Qfloor p1))) (List.length l - 1)) l v0)
      in *.
    set (f := inject_Z (Qfloor p1)) in *. clearbody a b f.
    Lqa.nra.
  - assert (Hlt : (S (Z.to_nat (Qfloor p1)) <= Z.to_nat (Qfloor p2))%nat) by lia.
    eapply Qle_trans; [exact B1|]. eapply Qle_trans; [|exact A2].
    apply sorted_nth_le; [exact Hs | lia | lia].
Qed.

Lemma interpolate_bounds (l : list Q) (v0 pos lo hi : Q) :
  StronglySorted Qle l -> l <> [] ->
  0 <= pos -> pos <= inject_Z (Z.of_nat (List.length l - 1)) ->
  (forall v, In v l -> lo <= v /\ v <= hi) ->
  lo <= Invariants.interpolate l v0 pos /\
  Invariants.interpolate l v0 pos <= hi.
Proof.
  intros Hs Hne H0 Hn Hb.
  destruct (interpolate_between l v0 pos Hs Hne H0 Hn) as [L [A B]].
  assert (Hlen : (0 < List.length l)%nat)
    by (destruct l; [congruence | cbn; lia]).
  split.
  - eapply Qle_trans; [|exact A]. apply Hb. apply nth_In. lia.
  - eapply Qle_trans; [exact B|]. apply Hb. apply nth_In. lia.
Qed.

Lemma percentile_position (n : nat) (p : Q) :
  0 <= p -> p <= 100 ->
  0 <= inject_Z (Z.of_nat n) * p / 100 /\
  inject_Z (Z.of_nat n) * p / 100 <= inject_Z (Z.of_nat n).
Proof.
  intros H0 H1.
  assert (Hn : 0 <= inject_Z (Z.of_nat n))
    by (change 0 with (inject_Z 0); rewrite <- Zle_Qle; lia).
  set (m := inject_Z (Z.of_nat n)) in *. clearbody m.
  split.
  - apply Qle_shift_div_l; [reflexivity|]. Lqa.nra.
  - apply Qle_shift_div_r; [reflexivity|]. Lqa.nra.
Qed.

Lemma values_In (xs : list (option Q)) (v : Q) :
  In v (Bootstrap.values xs) <-> In (Some v) xs.
Proof.
  unfold Bootstrap.values. rewrite in_flat_map. split.
  - intros [[x|] [Hx Hv]]; [|destruct Hv].
    destruct Hv as [<-|[]]; exact Hx.
  - intros H. exists (Some v); split; [exact H | left; reflexivity].
Qed.

Lemma nanpercentile_value (xs : list (option Q)) (p a : Q) :
  Bootstrap.nanpercentile xs p = Some a ->
  let sorted := fold_right Bootstrap.insert_asc [] (Bootstrap.values xs) in
  sorted <> [] /\
  a = Invariants.interpolate sorted (hd 0 sorted)
        (inject_Z (Z.of_nat (List.length sorted - 1)) * p / 100).
Proof.
  unfold Bootstrap.nanpercentile. cbv zeta.
  destruct (fold_right Bootstrap.insert_asc [] (Bootstrap.values xs))
    as [|v0 rest]; [discriminate|].
  intros H; inversion H. split; [discriminate | reflexivity].
Qed.

(** X14. [np.nanpercentile] as the summary uses it: it is NaN exactly when
    every value is NaN; for percents between 0 and 100 it grows with the
    percent and stays between any bounds of the values that are not NaN.
    Hence in every row of [summarize_boot] the three percentiles satisfy
    [ci2p5 <= ci50 <= ci97p5]. *)
Theorem bootstrap_percentiles_are_ordered :
  forall (xs : list (option Q)),
    (forall p, Bootstrap.nanpercentile xs p = None
               <-> forall v, ~ In (Some v) xs) /\
    (forall p q a b,
       0 <= p -> p <= q -> q <= 100 ->
       Bootstrap.nanpercentile xs p = Some a ->
       Bootstrap.nanpercentile xs q = Some b -> a <= b) /\
    (forall p a lo hi,
       0 <= p -> p <= 100 ->
       (forall v, In (Some v) xs -> lo <= v /\ v <= hi) ->
       Bootstrap.nanpercentile xs p = Some a -> lo <= a /\ a <= hi) /\
    (forall df_boot col s a b c,
       In s (Bootstrap.summarize_boot df_boot col) ->
       Bootstrap.ci2p5 s = Some a -> Bootstrap.ci50 s = Some b ->
       Bootstrap.ci97p5 s = Some c -> a <= b /\ b <= c).
Proof.
  assert (Hmono : forall xs p q a b,
            0 <= p -> p <= q -> q <= 100 ->
            Bootstrap.nanpercentile xs p = Some a ->
            Bootstrap.nanpercentile xs q = Some b -> a <= b).
  { intros xs p q a b H0 Hpq H1 Ha Hb.
    apply nanpercentile_value in Ha; apply nanpercentile_value in Hb.
    cbv zeta in Ha, Hb. destruct Ha as [Hne ->]. destruct Hb as [_ ->].
    set (sorted := fold_right Bootstrap.insert_asc [] (Bootstrap.values xs)) in *.
    assert (Hp1 : p <= 100) by (eapply Qle_trans; eassumption).
    assert (H0q : 0 <= q) by (eapply Qle_trans; eassumption).
    destruct (percentile_position (List.length sorted - 1) p H0 Hp1) as [P0 _].
    destruct (percentile_position (List.length sorted - 1) q H0q H1) as [_ Q1].
    apply interpolate_monotone; try assumption.
    - apply sort_asc_sorted.
    - assert (Hn : 0 <= inject_Z (Z.of_nat (List.length sorted - 1)))
        by (change 0 with (inject_Z 0); rewrite <- Zle_Qle; lia).
      set (m := inject_Z (Z.of_nat (List.length sorted - 1))) in *.
      clearbody m. unfold Qdiv.
      apply Qmult_le_compat_r; [|vm_compute; discriminate].
      Lqa.nra. }
  intros xs. split; [|split; [|split]].
  - intros p. unfold Bootstrap.nanpercentile. cbv zeta.
    destruct (fold_right Bootstrap.insert_asc [] (Bootstrap.values xs))
      as [|v0 rest] eqn:E.
    + split; [|reflexivity]. intros _ v Hv. apply values_In in Hv.
      apply sort_asc_In in Hv. rewrite E in Hv; exact Hv.
    + split; [discriminate|]. intros Hnone. exfalso.
      apply (Hnone v0). apply values_In, sort_asc_In. rewrite E.
      left; reflexivity.
  - apply Hmono.
  - intros p a lo hi H0 H1 Hb Ha.
    apply nanpercentile_value in Ha. cbv zeta in Ha. destruct Ha as [Hne ->].
    destruct (percentile_position
                (List.length (fold_right Bootstrap.insert_asc []
                                         (Bootstrap.values xs)) - 1) p H0 H1)
      as [P0 P1].
    apply interpolate_bounds; try assumption.
    + apply sort_asc_sorted.
    + intros v Hv. apply Hb. apply values_In, sort_asc_In. exact Hv.
  - intros df_boot col s a b c Hs Ha Hb Hc.
    unfold Bootstrap.summarize_boot in Hs. apply in_map_iff in Hs.
    destruct Hs as [yr [<- _]].
    cbn [Bootstrap.ci2p5 Bootstrap.ci50 Bootstrap.ci97p5] in Ha, Hb, Hc.
    split.
    + eapply (Hmono _ 2.5 50 a b); [| | |exact Ha|exact Hb];
        vm_compute; discriminate.
    + eapply (Hmono _ 50 97.5 b c); [| | |exact Hb|exact Hc];
        vm_compute; discriminate.
Qed.

Lemma bootstrap_percentiles_are_ordered_witness :
  0.105000000 <= 0.20000000 /\ 0.20000000 <= 0.295000000.
Proof.
  destruct (bootstrap_percentiles_are_ordered [Some 0.10; None; Some 0.30])
    as [_ [_ [_ Hsum]]].
  apply (Hsum [ Bootstrap.mkBootRow 2024 (Some 0.30) None;
                Bootstrap.mkBootRow 2024 (Some 0.20) None;
                Bootstrap.mkBootRow 2024 (Some 0.10) None ]
              Bootstrap.diff_unweighted
              (Bootstrap.mkSummary 2024 (Some (600000 # 3000000))
                 (Some 0.105000000) (Some 0.20000000) (Some 0.295000000))).
  - vm_compute. left. reflexivity.
  - reflexivity.
  - reflexivity.
  - reflexivity.
Defined.

(** ** Stage 03: the county code is always five characters *)

Section StageEnrollmentFacts.

Variable Char : Type.
Variable Char_eq_dec : forall a b : Char, {a = b} + {a <> b}.
Variable is_digit : Char -> bool.
Variable zero : Char.
Variable Raw : Type.
Variable upper_strip : string -> string.
Variable clean_enrollment_value : Raw -> Z.

Local Abbreviation RawRow := (StageEnrollment.RawRow Char Raw).
Local Abbreviation Staged := (StageEnrollment.Staged Char).
Local Abbreviation normalize_fips :=
  (StageEnrollment.normalize_fips Char is_digit zero).
Local Abbreviation standardize :=
  (StageEnrollment.standardize Char is_digit zero Raw upper_strip
     clean_enrollment_value).
Local Abbreviation groupby_sum :=
  (StageEnrollment.groupby_sum Char Char_eq_dec).
Local Abbreviation stage_file :=
  (StageEnrollment.stage_file Char Char_eq_dec is_digit zero Raw upper_strip
     clean_enrollment_value).
Local Abbreviation st_key := (StageEnrollment.st_key Char).
Local Abbreviation same_key := (StageEnrollment.same_key Char Char_eq_dec).
Local Abbreviation zsum := StageEnrollment.zsum.

Lemma normalize_fips_shape (s : list Char) :
  List.length (normalize_fips s) = 5%nat /\
  Forall (fun c => c = zero \/ is_digit c = true) (normalize_fips s).
Proof.
  unfold StageEnrollment.normalize_fips, StageEnrollment.zfill5,
    StageEnrollment.last5, StageEnrollment.digits_only.
  set (d := filter is_digit s). split.
  - rewrite length_app, repeat_length, length_skipn. lia.
  - apply Forall_app. split.
    + apply Forall_forall. intros c Hc. apply repeat_spec in Hc. left; exact Hc.
    + apply Forall_forall. intros c Hc. right.
      assert (Hd : In c d).
      { rewrite <- (firstn_skipn (List.length d - 5) d).
        apply in_or_app; right; exact Hc. }
      unfold d in Hd. apply filter_In in Hd. tauto.
Qed.

Lemma same_key_spec (k : string * list Char) (o : Staged) :
  same_key k o = true <-> st_key o = k.
Proof.
  unfold StageEnrollment.same_key.
  destruct (StageEnrollment.st_key_eq_dec Char Char_eq_dec (st_key o) k);
    split; intros H; congruence.
Qed.

Lemma zsum_cons (x : Z) (l : list Z) : zsum (x :: l) = (x + zsum l)%Z.
Proof. reflexivity. Qed.

(** Summing group by group is summing everything. *)
Lemma grouped_total (ks : list (string * list Char)) (rows : list Staged) :
  NoDup ks -> (forall o, In o rows -> In (st_key o) ks) ->
  zsum (map (fun k => zsum (map (StageEnrollment.st_enrollment Char)
                                (filter (same_key k) rows))) ks)
  = zsum (map (StageEnrollment.st_enrollment Char) rows).
Proof.
  intros Hnd. induction rows as [|o rows IH]; intros Hin.
  - cbn [filter map]. clear. induction ks as [|k ks IH]; [reflexivity|].
    cbn [map]. rewrite zsum_cons, IH. reflexivity.
  - specialize (IH (fun o' H => Hin o' (or_intror H))).
    cbn [map]. rewrite zsum_cons, <- IH. clear IH.
    pose proof (Hin o (or_introl eq_refl)) as Hk. clear Hin.
    induction ks as [|k ks IHk]; [destruct Hk|].
    inversion Hnd as [|? ? Hnotin Hnd']; subst.
    cbn [map]. rewrite !zsum_cons.
    change (filter (same_key k) (o :: rows))
      with (if same_key k o then o :: filter (same_key k) rows
            else filter (same_key k) rows).
    destruct (same_key k o) eqn:E.
    + apply same_key_spec in E.
      assert (Hrest :
        map (fun k0 => zsum (map (StageEnrollment.st_enrollment Char)
                                 (filter (same_key k0) (o :: rows)))) ks
        = map (fun k0 => zsum (map (StageEnrollment.st_enrollment Char)
                                   (filter (same_key k0) rows))) ks).
      { apply map_ext_in. intros k0 Hk0. cbn [filter].
        destruct (same_key k0 o) eqn:E0; [|reflexivity].
        apply same_key_spec in E0. exfalso. apply Hnotin. congruence. }
      rewrite Hrest. cbn [map]. rewrite zsum_cons. lia.
    + assert (Hk' : In (st_key o) ks).
      { destruct Hk as [Hk|Hk]; [|exact Hk].
        exfalso. assert (same_key k o = true) by (apply same_key_spec; auto).
        congruence. }
      rewrite (IHk Hnd' Hk'). lia.
Qed.

(** X15. [stage_file] never drops a row for its county code: every code
    is normalized to exactly five characters, zeros and digits, so the
    final length filter keeps every group (a code without any digit
    becomes five zeros).  The staged frame has one row per contract and
    normalized county, and its enrollments add up to the cleaned
    enrollments of all the rows read. *)
Theorem stage_file_keeps_every_group :
  forall (rows : list RawRow),
    stage_file rows = groupby_sum (map standardize rows) /\
    NoDup (map st_key (stage_file rows)) /\
    (forall o, In o (stage_file rows) ->
       List.length (StageEnrollment.st_county_fips Char o) = 5%nat /\
       Forall (fun c => c = zero \/ is_digit c = true)
              (StageEnrollment.st_county_fips Char o) /\
       exists r, In r rows /\ st_key (standardize r) = st_key o) /\
    zsum (map (StageEnrollment.st_enrollment Char) (stage_file rows))
    = zsum (map (fun r => clean_enrollment_value
                            (StageEnrollment.enrollment_raw Char Raw r)) rows).
Proof.
  intros rows.
  set (std := map standardize rows).
  assert (Hgroup : forall o, In o (groupby_sum std) ->
            exists r, In r rows /\ st_key (standardize r) = st_key o).
  { intros o Ho. unfold StageEnrollment.groupby_sum in Ho.
    apply in_map_iff in Ho; destruct Ho as [k [<- Hk]].
    apply nodup_In, in_map_iff in Hk. destruct Hk as [s [<- Hs]].
    unfold std in Hs. apply in_map_iff in Hs; destruct Hs as [r [<- Hr]].
    exists r; split; [exact Hr|]. destruct (st_key (standardize r));
      reflexivity. }
  assert (Hshape : forall o, In o (groupby_sum std) ->
            List.length (StageEnrollment.st_county_fips Char o) = 5%nat /\
            Forall (fun c => c = zero \/ is_digit c = true)
                   (StageEnrollment.st_county_fips Char o)).
  { intros o Ho. destruct (Hgroup o Ho) as [r [_ Hk]].
    assert (E : StageEnrollment.st_county_fips Char o
                = normalize_fips (StageEnrollment.county_fips_raw Char Raw r)).
    { unfold StageEnrollment.st_key in Hk.
      apply (f_equal snd) in Hk. cbn [snd] in Hk. symmetry; exact Hk. }
    rewrite E. apply normalize_fips_shape. }
  assert (Hsame : stage_file rows = groupby_sum std).
  { unfold StageEnrollment.stage_file. fold std.
    apply forallb_filter_id, forallb_forall. intros o Ho.
    apply Nat.eqb_eq. apply (Hshape o Ho). }
  rewrite Hsame. split; [reflexivity|]. split; [|split].
  - unfold StageEnrollment.groupby_sum. rewrite map_map.
    erewrite map_ext; [rewrite map_id; apply NoDup_nodup|].
    intros [c f]; reflexivity.
  - intros o Ho. destruct (Hshape o Ho) as [H1 H2].
    split; [exact H1|]. split; [exact H2|]. apply Hgroup; exact Ho.
  - unfold StageEnrollment.groupby_sum. rewrite map_map.
    cbn [StageEnrollment.st_enrollment].
    rewrite (grouped_total (nodup (StageEnrollment.st_key_eq_dec Char Char_eq_dec)
                                  (map st_key std)) std).
    + unfold std. rewrite map_map. reflexivity.
    + apply NoDup_nodup.
    + intros o Ho. apply nodup_In, in_map; exact Ho.
Qed.

End StageEnrollmentFacts.

(** The staging on ASCII strings: plan-level rows of one county are added
    up, a four-digit code is padded, and a code without digits becomes
    ["00000"]. *)
Example stage_file_runs :
  StageEnrollment.stage_file Ascii.ascii Ascii.ascii_dec
    (fun c => (48 <=? Ascii.nat_of_ascii c)%nat
              && (Ascii.nat_of_ascii c <=? 57)%nat)
    (Ascii.ascii_of_nat 48) Z (fun s => s) (fun z => z)
    [ StageEnrollment.mkRaw _ _ "H1" (list_ascii_of_string "6001") 10%Z;
      StageEnrollment.mkRaw _ _ "H1" (list_ascii_of_string "06-001") 5%Z;
      StageEnrollment.mkRaw _ _ "H1" (list_ascii_of_string "nan") 7%Z ]
  = [ StageEnrollment.mkStaged _ "H1" (list_ascii_of_string "06001") 15%Z;
      StageEnrollment.mkStaged _ "H1" (list_ascii_of_string "00000") 7%Z ].
Proof. vm_compute. reflexivity. Qed.

(** ** Stage 15: one score per county, between the scores aggregated *)

Lemma clip0_nonneg (x : Q) : 0 <= StageHpsa.clip0 x.
Proof.
  unfold StageHpsa.clip0. destruct (Qle_bool 0 x) eqn:E.
  - apply Qle_bool_iff; exact E.
  - apply Qle_refl.
Qed.

Lemma mean_between (s : list Q) (lo hi : Q) :
  s <> [] -> (forall x, In x s -> lo <= x /\ x <= hi) ->
  lo <= qsum s / inject_Z (Z.of_nat (List.length s)) /\
  qsum s / inject_Z (Z.of_nat (List.length s)) <= hi.
Proof.
  intros Hne Hb.
  assert (Hn : 0 < inject_Z (Z.of_nat (List.length s))).
  { change 0 with (inject_Z 0). rewrite <- Zlt_Qlt.
    destruct s; [congruence | cbn [List.length]; lia]. }
  assert (Hsum : lo * inject_Z (Z.of_nat (List.length s)) <= qsum s /\
                 qsum s <= hi * inject_Z (Z.of_nat (List.length s))).
  { clear Hne Hn. induction s as [|x s IH].
    - cbn. split; rewrite Qmult_0_r; apply Qle_refl.
    - destruct (IH (fun y Hy => Hb y (or_intror Hy))) as [I1 I2].
      destruct (Hb x (or_introl eq_refl)) as [B1 B2].
      rewrite qsum_cons. cbn [List.length].
      rewrite Nat2Z.inj_succ. unfold Z.succ. rewrite inject_Z_plus.
      change (inject_Z 1) with 1.
      set (n := inject_Z (Z.of_nat (List.length s))) in *.
      set (t := qsum s) in *. clearbody n t. split; Lqa.lra. }
  destruct Hsum as [S1 S2]. split.
  - apply Qle_shift_div_l; assumption.
  - apply Qle_shift_div_r; assumption.
Qed.

Lemma agg_county_between (g : list StageHpsa.Designation) (lo hi : Q) :
  g <> [] ->
  (forall d, In d g -> lo <= StageHpsa.d_hpsa_score d /\
                       StageHpsa.d_hpsa_score d <= hi) ->
  lo <= fst (StageHpsa.agg_county g) /\ fst (StageHpsa.agg_county g) <= hi.
Proof.
  intros Hne Hb. unfold StageHpsa.agg_county. cbv zeta.
  set (w := map (fun d => StageHpsa.clip0 (StageHpsa.designation_pop d)) g).
  set (s := map StageHpsa.d_hpsa_score g).
  assert (Hs : forall x, In x s -> lo <= x /\ x <= hi).
  { intros x Hx. unfold s in Hx. apply in_map_iff in Hx.
    destruct Hx as [d [<- Hd]]. apply Hb; exact Hd. }
  destruct (Qle_bool (qsum w) 0) eqn:E; cbn [negb fst].
  - apply mean_between; [|exact Hs].
    unfold s. intros H. apply map_eq_nil in H. exact (Hne H).
  - apply Qle_bool_false_lt in E.
    assert (Hw : Forall (fun x => 0 <= x) w).
    { apply Forall_forall. intros x Hx. unfold w in Hx.
      apply in_map_iff in Hx. destruct Hx as [d [<- _]]. apply clip0_nonneg. }
    assert (Hlen : List.length s = List.length w)
      by (unfold s, w; rewrite !length_map; reflexivity).
    destruct (products_between s w lo hi Hlen Hw Hs) as [B1 B2]. split.
    + apply Qle_shift_div_l; assumption.
    + apply Qle_shift_div_r; assumption.
Qed.

(** X16. The county table of stage 15 has exactly one row per county with
    a designation row, each with a score that is not NULL, so it meets the
    one-score-per-county condition under which stage 16 was analysed; and
    the score of a county, population-weighted or plain mean, lies between
    any bounds of the scores of its designation rows. *)
Theorem county_hpsa_has_one_bounded_score_per_county :
  forall (df_f : list StageHpsa.Designation),
    let county := StageHpsa.county_hpsa_primarycare df_f in
    NoDup (map Hpsa.h_county_fips county) /\
    ExposureSpec.one_score_per_county county /\
    (forall fips, In fips (map Hpsa.h_county_fips county)
                  <-> In fips (map StageHpsa.d_county_fips df_f)) /\
    (forall h, In h county ->
       exists v, Hpsa.hpsa_pc_score h = Some v /\
         forall lo hi,
           (forall d, In d df_f ->
                      StageHpsa.d_county_fips d = Hpsa.h_county_fips h ->
                      lo <= StageHpsa.d_hpsa_score d /\
                      StageHpsa.d_hpsa_score d <= hi) ->
           lo <= v /\ v <= hi).
Proof.
  intros df_f county.
  assert (Hcte : Hpsa.cte_h county
                 = map (fun h => (Hpsa.h_county_fips h,
                                  coalesce0 (Hpsa.hpsa_pc_score h))) county).
  { unfold county, StageHpsa.county_hpsa_primarycare, Hpsa.cte_h.
    induction (nodup string_dec (map StageHpsa.d_county_fips df_f))
      as [|f l IH]; [reflexivity|].
    cbn [map flat_map Hpsa.hpsa_pc_score Hpsa.h_county_fips app coalesce0].
    rewrite IH. reflexivity. }
  assert (Hfips : map Hpsa.h_county_fips county
                  = nodup string_dec (map StageHpsa.d_county_fips df_f)).
  { unfold county, StageHpsa.county_hpsa_primarycare. rewrite map_map.
    cbn [Hpsa.h_county_fips]. apply map_id. }
  split; [rewrite Hfips; apply NoDup_nodup|]. split; [|split].
  - unfold ExposureSpec.one_score_per_county. rewrite Hcte, map_map.
    cbn [fst]. change (map (fun x => Hpsa.h_county_fips x) county)
      with (map Hpsa.h_county_fips county).
    rewrite Hfips. apply NoDup_nodup.
  - intros fips. rewrite Hfips. apply nodup_In.
  - intros h Hh. unfold county, StageHpsa.county_hpsa_primarycare in Hh.
    apply in_map_iff in Hh. destruct Hh as [fips [<- Hf]].
    cbn [Hpsa.hpsa_pc_score Hpsa.h_county_fips].
    eexists; split; [reflexivity|]. intros lo hi Hb.
    apply nodup_In, in_map_iff in Hf. destruct Hf as [d0 [Hd0 Hin0]].
    apply agg_county_between.
    + intros E.
      assert (H : In d0 (filter (fun d => String.eqb (StageHpsa.d_county_fips d)
                                                     fips) df_f))
        by (apply filter_In; split; [exact Hin0 | apply String.eqb_eq; exact Hd0]).
      rewrite E in H; exact H.
    + intros d Hd. apply filter_In in Hd. destruct Hd as [Hd He].
      apply String.eqb_eq in He. apply Hb; assumption.
Qed.

Lemma county_hpsa_has_one_bounded_score_per_county_witness :
  exists v,
    Some (42000 # 3000) = Some v /\
    forall lo hi,
      (forall d,
         In d [ StageHpsa.mkDesignation "06001" 10 1000;
                StageHpsa.mkDesignation "06001" 16 2000;
                StageHpsa.mkDesignation "48201" 15 (-5) ] ->
         StageHpsa.d_county_fips d = "06001"%string ->
         lo <= StageHpsa.d_hpsa_score d /\ StageHpsa.d_hpsa_score d <= hi) ->
      lo <= v /\ v <= hi.
Proof.
  destruct (county_hpsa_has_one_bounded_score_per_county
              [ StageHpsa.mkDesignation "06001" 10 1000;
                StageHpsa.mkDesignation "06001" 16 2000;
                StageHpsa.mkDesignation "48201" 15 (-5) ])
    as [_ [_ [_ Hrow]]].
  apply (Hrow (Hpsa.mkHpsa "06001" (Some (42000 # 3000)))).
  vm_compute. left. reflexivity.
Defined.

(** ** Stage 10: the rural indicator is a 0/1 flag of the county *)

Lemma sql_maxZ_spec (l : list (option Z)) :
  match sql_maxZ l with
  | Some m => In (Some m) l /\ forall v, In (Some v) l -> (v <= m)%Z
  | None => forall v, ~ In (Some v) l
  end.
Proof.
  induction l as [|[x|] l IH]; cbn [sql_maxZ].
  - intros v [].
  - destruct (sql_maxZ l) as [m|].
    + destruct IH as [Hin Hmax]. split.
      * destruct (Z.max_spec x m) as [[_ ->]|[_ ->]];
          [right; exact Hin | left; reflexivity].
      * intros v [Hv|Hv]; [inversion Hv; lia|].
        specialize (Hmax v Hv). lia.
    + split; [left; reflexivity|].
      intros v [Hv|Hv]; [inversion Hv; lia | destruct (IH v Hv)].
  - destruct (sql_maxZ l) as [m|].
    + destruct IH as [Hin Hmax]. split; [right; exact Hin|].
      intros v [Hv|Hv]; [discriminate | apply Hmax; exact Hv].
    + intros v [Hv|Hv]; [discriminate | apply (IH v Hv)].
Qed.

Lemma county_rucc_rows (raw : list StageRucc.RuccLong) (r : Rural.CountyRucc) :
  In r (StageRucc.county_rucc_2023 raw) ->
  Rural.rural_indicator r
  = StageRucc.rural_indicator
      (StageRucc.rucc_2023
         (filter (fun l => String.eqb (StageRucc.l_county_fips l)
                                      (Rural.r_county_fips r)) raw)).
Proof.
  unfold StageRucc.county_rucc_2023. intros Hr.
  apply in_map_iff in Hr. destruct Hr as [fips [<- _]]. reflexivity.
Qed.

Lemma county_rucc_indicator (raw : list StageRucc.RuccLong)
    (r : Rural.CountyRucc) (i : Z) :
  In r (StageRucc.county_rucc_2023 raw) ->
  Rural.rural_indicator r = Some i -> i = 0%Z \/ i = 1%Z.
Proof.
  intros Hr Hi. rewrite (county_rucc_rows raw r Hr) in Hi.
  unfold StageRucc.rural_indicator in Hi.
  destruct (StageRucc.rucc_2023 _) as [c|]; [|discriminate].
  inversion Hi. destruct (4 <=? c)%Z; auto.
Qed.

(** X17. The county table of stage 10 has one row per county of the raw
    view, and its [rural_indicator] is NULL, 0 or 1: NULL exactly when the
    county has no [RUCC_2023] row with a whole-number value, and 1 exactly
    when one of its [RUCC_2023] values is 4 or more. *)
Theorem rural_indicator_is_a_flag_of_the_county :
  forall (raw : list StageRucc.RuccLong),
    let table := StageRucc.county_rucc_2023 raw in
    NoDup (map Rural.r_county_fips table) /\
    (forall fips, In fips (map Rural.r_county_fips table)
                  <-> In fips (map StageRucc.l_county_fips raw)) /\
    (forall r, In r table ->
       let codes c :=
         exists l, In l raw /\
                   StageRucc.l_county_fips l = Rural.r_county_fips r /\
                   StageRucc.attribute l = "RUCC_2023"%string /\
                   StageRucc.value_integer l = Some c in
       (Rural.rural_indicator r = None \/
        Rural.rural_indicator r = Some 0%Z \/
        Rural.rural_indicator r = Some 1%Z) /\
       (Rural.rural_indicator r = None <-> forall c, ~ codes c) /\
       (Rural.rural_indicator r = Some 1%Z <-> exists c, codes c /\ (4 <= c)%Z)).
Proof.
  intros raw table.
  assert (Hfips : map Rural.r_county_fips table
                  = nodup string_dec (map StageRucc.l_county_fips raw)).
  { unfold table, StageRucc.county_rucc_2023. rewrite map_map.
    cbn [Rural.r_county_fips]. apply map_id. }
  split; [rewrite Hfips; apply NoDup_nodup|].
  split; [intros fips; rewrite Hfips; apply nodup_In|].
  intros r Hr codes.
  rewrite (county_rucc_rows raw r Hr).
  set (g := filter (fun l => String.eqb (StageRucc.l_county_fips l)
                                        (Rural.r_county_fips r)) raw).
  assert (Hcodes : forall c,
            In (Some c)
               (map (fun l => if String.eqb (StageRucc.attribute l) "RUCC_2023"
                              then StageRucc.value_integer l else None) g)
            <-> codes c).
  { intros c. unfold codes. rewrite in_map_iff. split.
    - intros [l [Hv Hl]]. unfold g in Hl. apply filter_In in Hl.
      destruct Hl as [Hl Hf]. apply String.eqb_eq in Hf.
      destruct (String.eqb (StageRucc.attribute l) "RUCC_2023") eqn:Ea;
        [|discriminate].
      apply String.eqb_eq in Ea. exists l; auto.
    - intros [l [Hl [Hf [Ha Hv]]]]. exists l. split.
      + rewrite Ha. cbn. exact Hv.
      + unfold g. apply filter_In. split; [exact Hl|].
        apply String.eqb_eq; exact Hf. }
  pose proof (sql_maxZ_spec
                (map (fun l => if String.eqb (StageRucc.attribute l) "RUCC_2023"
                               then StageRucc.value_integer l else None) g))
    as Hmax.
  unfold StageRucc.rucc_2023.
  destruct (sql_maxZ _) as [m|]; cbn [StageRucc.rural_indicator].
  - destruct Hmax as [Hin Hle]. apply Hcodes in Hin.
    split; [destruct (4 <=? m)%Z; auto|]. split.
    + split; [discriminate|]. intros Hnone. exfalso. apply (Hnone m Hin).
    + destruct (4 <=? m)%Z eqn:E.
      * apply Z.leb_le in E. split; [|reflexivity].
        intros _. exists m; split; assumption.
      * apply Z.leb_gt in E. split; [discriminate|].
        intros [c [Hc Hc4]]. apply Hcodes in Hc. specialize (Hle c Hc). lia.
  - split; [auto|]. split.
    + split; [|reflexivity]. intros _ c Hc. apply Hcodes in Hc.
      apply (Hmax c Hc).
    + split; [discriminate|]. intros [c [Hc _]]. apply Hcodes in Hc.
      destruct (Hmax c Hc).
Qed.

Lemma rural_indicator_is_a_flag_of_the_county_witness :
  Some 1%Z = Some 1%Z <->
  exists c,
    (exists l,
       In l [ StageRucc.mkLong "48301" "RUCC_2023" (Some 9%Z);
              StageRucc.mkLong "48301" "Population_2020" (Some 64%Z);
              StageRucc.mkLong "06001" "RUCC_2023" (Some 1%Z) ] /\
       StageRucc.l_county_fips l = "48301"%string /\
       StageRucc.attribute l = "RUCC_2023"%string /\
       StageRucc.value_integer l = Some c) /\ (4 <= c)%Z.
Proof.
  destruct (rural_indicator_is_a_flag_of_the_county
              [ StageRucc.mkLong "48301" "RUCC_2023" (Some 9%Z);
                StageRucc.mkLong "48301" "Population_2020" (Some 64%Z);
                StageRucc.mkLong "06001" "RUCC_2023" (Some 1%Z) ])
    as [_ [_ Hrow]].
  apply (Hrow (Rural.mkRucc "48301" (Some 1%Z))).
  vm_compute. left. reflexivity.
Defined.

(** ** Column selection: the first candidate present wins *)

Lemma has_column_In (cols : list string) (c : string) :
  Columns.has_column cols c = true <-> In c cols.
Proof.
  unfold Columns.has_column. rewrite existsb_exists. split.
  - intros [x [Hx He]]. apply String.eqb_eq in He. subst; exact Hx.
  - intros H. exists c; split; [exact H | apply String.eqb_refl].
Qed.

Lemma pick_col_some (cols candidates : list string) (c : string) :
  Columns.pick_col cols candidates = Some c <->
  exists before after,
    candidates = before ++ c :: after /\ In c cols /\
    forall b, In b before -> ~ In b cols.
Proof.
  induction candidates as [|x rest IH]; cbn [Columns.pick_col].
  - split; [discriminate|]. intros [[|b before] [after [H _]]]; discriminate.
  - destruct (Columns.has_column cols x) eqn:E.
    + apply has_column_In in E. split.
      * intros H; inversion H; subst. exists [], rest. cbn. auto.
      * intros [[|b before] [after [Heq [Hc Hnone]]]].
        -- cbn in Heq. inversion Heq; reflexivity.
        -- cbn in Heq. inversion Heq; subst. exfalso.
           apply (Hnone b (or_introl eq_refl)). exact E.
    + assert (Hx : ~ In x cols)
        by (intros H; apply has_column_In in H; congruence).
      rewrite IH. split.
      * intros [before [after [-> [Hc Hnone]]]].
        exists (x :: before), after. split; [reflexivity|]. split; [exact Hc|].
        intros b [<-|Hb]; [exact Hx | apply Hnone; exact Hb].
      * intros [[|b before] [after [Heq [Hc Hnone]]]].
        -- cbn in Heq. inversion Heq; subst. contradiction.
        -- cbn in Heq. inversion Heq; subst. exists before, after.
           split; [reflexivity|]. split; [exact Hc|].
           intros b' Hb'. apply Hnone; right; exact Hb'.
Qed.

Lemma pick_col_none (cols candidates : list string) :
  Columns.pick_col cols candidates = None <->
  forall c, In c candidates -> ~ In c cols.
Proof.
  induction candidates as [|x rest IH]; cbn [Columns.pick_col].
  - split; [intros _ c [] | reflexivity].
  - destruct (Columns.has_column cols x) eqn:E.
    + apply has_column_In in E. split; [discriminate|].
      intros H. exfalso. apply (H x (or_introl eq_refl)); exact E.
    + assert (Hx : ~ In x cols)
        by (intros H; apply has_column_In in H; congruence).
      rewrite IH. split.
      * intros H c [<-|Hc]; [exact Hx | apply H; exact Hc].
      * intros H c Hc. apply H; right; exact Hc.
Qed.

(** X18. The three column pickers return the first name of their priority
    list that occurs among the columns, whatever else is present:
    [pick_col] returns [None] and [pick_stars_col] raises exactly when no
    candidate occurs, and [pick_year_column] is [pick_col] on
    [contract_year] then [year]. *)
Theorem pickers_return_first_candidate_present :
  forall (cols : list string),
    (forall candidates c,
       Columns.pick_col cols candidates = Some c <->
       exists before after,
         candidates = before ++ c :: after /\ In c cols /\
         forall b, In b before -> ~ In b cols) /\
    (forall candidates,
       Columns.pick_col cols candidates = None <->
       forall c, In c candidates -> ~ In c cols) /\
    (forall c,
       Columns.pick_stars_col cols = inr c <->
       exists before after,
         Columns.stars_candidates = before ++ c :: after /\ In c cols /\
         forall b, In b before -> ~ In b cols) /\
    ((exists e, Columns.pick_stars_col cols = inl e) <->
     forall c, In c Columns.stars_candidates -> ~ In c cols) /\
    Columns.pick_year_column cols
    = Columns.pick_col cols ["contract_year"; "year"]%string.
Proof.
  intros cols. split; [intros; apply pick_col_some|].
  split; [intros; apply pick_col_none|]. split; [|split].
  - intros c. rewrite <- pick_col_some. unfold Columns.pick_stars_col.
    destruct (Columns.pick_col cols Columns.stars_candidates) as [x|];
      split; intros H; try discriminate; inversion H; reflexivity.
  - rewrite <- pick_col_none. unfold Columns.pick_stars_col.
    destruct (Columns.pick_col cols Columns.stars_candidates) as [x|]; split.
    + intros [e He]; discriminate.
    + discriminate.
    + reflexivity.
    + intros _. eexists; reflexivity.
  - reflexivity.
Qed.

(** ** Stage 17: the opportunity list is ordered by year first *)

Lemma row_leb_total (a b : Report.DecompRow) :
  Report.row_leb a b = false -> Report.row_leb b a = true.
Proof.
  unfold Report.row_leb. intros H.
  apply orb_false_iff in H. destruct H as [H1 H2].
  apply Z.ltb_ge in H1.
  destruct (Z.eqb (Report.r_year_2025 a) (Report.r_year_2025 b)) eqn:E.
  - apply Z.eqb_eq in E. cbn [andb] in H2.
    apply Qle_bool_false_lt in H2. apply Qlt_le_weak in H2.
    apply Qle_bool_iff in H2. rewrite H2, E, Z.eqb_refl, orb_true_r.
    reflexivity.
  - apply Z.eqb_neq in E.
    assert (Hlt : (Report.r_year_2025 b <? Report.r_year_2025 a)%Z = true)
      by (apply Z.ltb_lt; lia).
    rewrite Hlt. reflexivity.
Qed.

Lemma row_le_year (a b : Report.DecompRow) :
  Invariants.row_le a b -> (Report.r_year_2025 a <= Report.r_year_2025 b)%Z.
Proof.
  unfold Invariants.row_le, Report.row_leb. intros H.
  apply orb_true_iff in H. destruct H as [H|H].
  - apply Z.ltb_lt in H. lia.
  - apply andb_true_iff in H. destruct H as [H _]. apply Z.eqb_eq in H. lia.
Qed.

Lemma row_le_trans (a b c : Report.DecompRow) :
  Invariants.row_le a b -> Invariants.row_le b c -> Invariants.row_le a c.
Proof.
  unfold Invariants.row_le, Report.row_leb. intros H1 H2.
  apply orb_true_iff in H1. apply orb_true_iff in H2. apply orb_true_iff.
  destruct H1 as [H1|H1], H2 as [H2|H2];
    try apply Z.ltb_lt in H1; try apply Z.ltb_lt in H2;
    try (apply andb_true_iff in H1; destruct H1 as [E1 Q1];
         apply Z.eqb_eq in E1);
    try (apply andb_true_iff in H2; destruct H2 as [E2 Q2];
         apply Z.eqb_eq in E2).
  - left. apply Z.ltb_lt. lia.
  - left. apply Z.ltb_lt. lia.
  - left. apply Z.ltb_lt. lia.
  - right. apply andb_true_iff. split; [apply Z.eqb_eq; lia|].
    apply Qle_bool_iff in Q1. apply Qle_bool_iff in Q2. apply Qle_bool_iff.
    eapply Qle_trans; eassumption.
Qed.

Lemma insert_row_perm (x : Report.DecompRow) (l : list Report.DecompRow) :
  Permutation (x :: l) (Report.insert_row x l).
Proof.
  induction l as [|y l IH]; cbn [Report.insert_row]; [reflexivity|].
  destruct (Report.row_leb x y); [reflexivity|].
  rewrite perm_swap. apply perm_skip; exact IH.
Qed.

Lemma insert_row_sorted (x : Report.DecompRow) (l : list Report.DecompRow) :
  StronglySorted Invariants.row_le l ->
  StronglySorted Invariants.row_le (Report.insert_row x l).
Proof.
  induction 1 as [|y l Hs IH Hall]; cbn [Report.insert_row].
  - constructor; constructor.
  - destruct (Report.row_leb x y) eqn:E.
    + constructor; [constructor; assumption|].
      constructor; [exact E|].
      rewrite Forall_forall in Hall |- *. intros z Hz.
      apply (row_le_trans x y z); [exact E | apply Hall; exact Hz].
    + apply row_leb_total in E.
      constructor; [exact IH|].
      apply Forall_forall. intros z Hz.
      apply (Permutation_in _ (Permutation_sym (insert_row_perm x l))) in Hz.
      destruct Hz as [<-|Hz]; [exact E|].
      rewrite Forall_forall in Hall; apply Hall; exact Hz.
Qed.

Lemma sort_values_perm (l : list Report.DecompRow) :
  Permutation l (Report.sort_values l).
Proof.
  unfold Report.sort_values.
  induction l as [|x l IH]; cbn [fold_right]; [reflexivity|].
  rewrite <- insert_row_perm. apply perm_skip; exact IH.
Qed.

Lemma sort_values_sorted (l : list Report.DecompRow) :
  StronglySorted Invariants.row_le (Report.sort_values l).
Proof.
  unfold Report.sort_values.
  induction l as [|x l IH]; cbn [fold_right]; [constructor|].
  apply insert_row_sorted; exact IH.
Qed.

Lemma sorted_prefix_below_rest {A : Type} (R : A -> A -> Prop) (n : nat)
    (l : list A) :
  StronglySorted R l ->
  StronglySorted R (firstn n l) /\
  forall a b, In a (firstn n l) -> In b (skipn n l) -> R a b.
Proof.
  intros Hs. revert n. induction Hs as [|x l Hs IH Hall]; intros n.
  - rewrite firstn_nil, skipn_nil. split; [constructor | intros a b []].
  - destruct n as [|n]; cbn [firstn skipn].
    + split; [constructor | intros a b []].
    + destruct (IH n) as [I1 I2]. rewrite Forall_forall in Hall. split.
      * constructor; [exact I1|]. apply Forall_forall. intros z Hz.
        apply Hall. rewrite <- (firstn_skipn n l). apply in_or_app; left.
        exact Hz.
      * intros a b [<-|Ha] Hb.
        -- apply Hall. rewrite <- (firstn_skipn n l). apply in_or_app; right.
           exact Hb.
        -- apply I2; assumption.
Qed.

Lemma filter_length_perm {A : Type} (f : A -> bool) (l l' : list A) :
  Permutation l l' -> List.length (filter f l) = List.length (filter f l').
Proof.
  induction 1 as [|x l l' _ IH|x y l|l l' l'' _ IH1 _ IH2]; cbn [filter].
  - reflexivity.
  - destruct (f x); cbn [List.length]; rewrite IH; reflexivity.
  - destruct (f x), (f y); reflexivity.
  - rewrite IH1; exact IH2.
Qed.

Lemma filter_length_lt {A : Type} (f : A -> bool) (l : list A) (r : A) :
  In r l -> f r = false -> (List.length (filter f l) < List.length l)%nat.
Proof.
  induction l as [|x l IH]; [intros []|].
  intros [->|Hin] Hr; cbn [filter List.length].
  - rewrite Hr. pose proof (filter_length_le f l). lia.
  - specialize (IH Hin Hr). destruct (f x); cbn [List.length]; lia.
Qed.

Lemma filter_none {A : Type} (f : A -> bool) (l : list A) :
  (forall b, In b l -> f b = false) -> filter f l = [].
Proof.
  induction l as [|b l IH]; intros Hall; [reflexivity|].
  cbn [filter]. rewrite (Hall b (or_introl eq_refl)).
  apply IH. intros c Hc; apply Hall; right; exact Hc.
Qed.

(** X19. The opportunity list of the report holds at most 50 rows of the
    3.5-3.9 slice, ordered by [year_2025] and then by residual, and every
    row of the slice left out comes after every row listed in that order.
    The year therefore takes precedence over the residual: as soon as 50
    rows of the slice have a year up to [y], no row of a later year is
    listed, however negative its residual.  The 3.5-3.9 slice is part of
    the 3.0-3.9 slice. *)
Theorem opportunity_list_is_filled_by_year_first :
  forall (decomp_full : list Report.DecompRow),
    let slice := Report.near_35_39 decomp_full in
    let opp := Report.opportunity_list decomp_full in
    (List.length opp <= 50)%nat /\
    (forall r, In r opp ->
               In r decomp_full /\
               3.5 <= Report.r_stars r /\ Report.r_stars r <= 3.9) /\
    (forall r, In r slice -> In r (Report.near_30_39 decomp_full)) /\
    StronglySorted Invariants.row_le opp /\
    (exists rest,
       Permutation slice (opp ++ rest) /\
       forall a b, In a opp -> In b rest -> Invariants.row_le a b) /\
    (forall y,
       (50 <= List.length
                (filter (fun r => (Report.r_year_2025 r <=? y)%Z) slice))%nat ->
       forall r, In r opp -> (Report.r_year_2025 r <= y)%Z).
Proof.
  intros df slice opp.
  set (sorted := Report.sort_values slice).
  assert (Hperm : Permutation slice sorted) by apply sort_values_perm.
  destruct (sorted_prefix_below_rest Invariants.row_le 50 sorted
              (sort_values_sorted slice)) as [Hs Hbelow].
  fold opp in Hs. change (firstn 50 sorted) with opp in Hbelow.
  assert (Hlen : (List.length opp <= 50)%nat) by apply firstn_le_length.
  assert (Hsplit : Permutation slice (opp ++ skipn 50 sorted)).
  { unfold opp, Report.opportunity_list. fold slice. fold sorted.
    rewrite firstn_skipn. exact Hperm. }
  assert (Hin : forall r, In r opp -> In r slice).
  { intros r Hr. apply (Permutation_in _ (Permutation_sym Hsplit)).
    apply in_or_app; left; exact Hr. }
  split; [exact Hlen|]. split; [|split; [|split; [exact Hs|split]]].
  - intros r Hr. apply Hin in Hr. unfold slice, Report.near_35_39 in Hr.
    apply filter_In in Hr. destruct Hr as [Hr Hb].
    apply andb_true_iff in Hb. destruct Hb as [B1 B2].
    apply Qle_bool_iff in B1. apply Qle_bool_iff in B2. auto.
  - intros r Hr. unfold slice, Report.near_35_39 in Hr.
    apply filter_In in Hr. destruct Hr as [Hr Hb].
    apply andb_true_iff in Hb. destruct Hb as [B1 B2].
    unfold Report.near_30_39. apply filter_In. split; [exact Hr|].
    rewrite B2, andb_true_r. apply Qle_bool_iff in B1. apply Qle_bool_iff.
    eapply Qle_trans; [|exact B1]. vm_compute; discriminate.
  - exists (skipn 50 sorted). split; [exact Hsplit | exact Hbelow].
  - intros y Hcount r Hr.
    destruct (Z_le_gt_dec (Report.r_year_2025 r) y) as [Hle|Hgt]; [exact Hle|].
    exfalso.
    set (f := fun r0 => (Report.r_year_2025 r0 <=? y)%Z) in *.
    assert (Hrest : filter f (skipn 50 sorted) = []).
    { assert (Hall : forall b, In b (skipn 50 sorted) -> f b = false).
      { intros b Hb. unfold f. apply Z.leb_gt.
        pose proof (row_le_year r b (Hbelow r b Hr Hb)). lia. }
      apply filter_none; exact Hall. }
    rewrite (filter_length_perm f _ _ Hsplit), filter_app, Hrest, app_nil_r
      in Hcount.
    assert (Hr' : f r = false) by (unfold f; apply Z.leb_gt; lia).
    pose proof (filter_length_lt f opp r Hr Hr'). lia.
Qed.

Lemma opportunity_list_is_filled_by_year_first_witness :
  (Report.r_year_2025 (Report.mkDecompRow "H1" 3.5 (-0.1) 0) <= 0)%Z.
Proof.
  destruct (opportunity_list_is_filled_by_year_first
              (repeat (Report.mkDecompRow "H1" 3.5 (-0.1) 0) 50
               ++ [Report.mkDecompRow "H2" 3.6 (-2) 1]))
    as [_ [_ [_ [_ [_ Hyear]]]]].
  apply (Hyear 0%Z).
  - vm_compute. lia.
  - vm_compute. left. reflexivity.
Defined.

(** * The last digit of a DOUBLE, and the frames built from stage 05 *)

(** ** Stage 07: the matched counties, county by county *)








(** ** Stage 14: the rows of the frame that stage 14 builds from stage 05 *)

Lemma core_complete_fill (f : FullStars.ModelFrame) :
  FullStars.core_complete (FullStars.fill_enrollment f)
  = FullStars.core_complete f.
Proof. reflexivity. Qed.

Lemma fill_enrollment_core (f g : FullStars.ModelFrame) :
  FullStars.fill_enrollment f = FullStars.fill_enrollment g ->
  FullStars.core_complete f = FullStars.core_complete g.
Proof.
  intros H. rewrite <- (core_complete_fill f), H. apply core_complete_fill.
Qed.

Lemma frame_row_total (enrollment_union : list EnrollmentRecord)
    (l : list FullStars.ModelFrame) (f : FullStars.ModelFrame) (t : Q) :
  In f (left_join (FullStars.on_key FullStars.e_key) FullStars.with_enrollment
          l (FullStars.contract_year_enrollment
               (contract_county_weights enrollment_union))) ->
  FullStars.total_enrollment f = Some t -> 1 <= t.
Proof.
  intros Hf Ht. apply left_join_row in Hf. destruct Hf as [a [_ Hf]].
  destruct Hf as [[-> _]|[e [He [_ ->]]]]; [discriminate Ht|].
  destruct (enrollment_table_rows enrollment_union e He) as [z [_ [Hpos Hz]]].
  cbn [FullStars.with_enrollment FullStars.total_enrollment] in Ht.
  rewrite Hz in Ht. injection Ht as <-.
  change 1 with (inject_Z 1). rewrite <- Zle_Qle. exact Hpos.
Qed.

Lemma incomplete_row_not_fitted (model_df : list FullStars.ModelFrame)
    (f : FullStars.ModelFrame) :
  FullStars.core_complete f = false ->
  ~ In f (FullStars.dropna_core model_df) /\ ~ FitSpec.used_in_fit model_df f.
Proof.
  intros Hc. split.
  - intros Hin. unfold FullStars.dropna_core in Hin.
    apply filter_In in Hin. destruct Hin as [_ Hin]. congruence.
  - intros [_ Hin]. apply fitted_rows_In in Hin.
    destruct Hin as [f' [_ [Hc' Hfill]]].
    apply fill_enrollment_core in Hfill. congruence.
Qed.

Section PipelineFrame.

Variable enrollment_union : list EnrollmentRecord.
Variable stars : list NearThreshold.ContractYearStars.
Variables poverty rural : list ContractYearExposure.
Variable hpsa : list Hpsa.HpsaExposure.

Lemma pipeline_row_with_counties_has_enrollment (f : FullStars.ModelFrame) :
  let weights := contract_county_weights enrollment_union in
  In f (FullStars.contract_year_model_frame_fullstars stars poverty rural hpsa
          (FullStars.contract_year_geo_concentration weights)
          (FullStars.contract_year_enrollment weights)) ->
  FullStars.f_n_counties f <> None ->
  exists t, FullStars.total_enrollment f = Some t /\ 1 <= t.
Proof.
  intros weights Hf.
  unfold FullStars.contract_year_model_frame_fullstars in Hf.
  cbv zeta in Hf. eapply (frame_row_enrollment enrollment_union). exact Hf.
Qed.

Lemma pipeline_row_total_at_least_one (f : FullStars.ModelFrame) (t : Q) :
  let weights := contract_county_weights enrollment_union in
  In f (FullStars.contract_year_model_frame_fullstars stars poverty rural hpsa
          (FullStars.contract_year_geo_concentration weights)
          (FullStars.contract_year_enrollment weights)) ->
  FullStars.total_enrollment f = Some t -> 1 <= t.
Proof.
  intros weights Hf.
  unfold FullStars.contract_year_model_frame_fullstars in Hf.
  cbv zeta in Hf. eapply (frame_row_total enrollment_union). exact Hf.
Qed.

Lemma pipeline_complete_row_has_enrollment (f : FullStars.ModelFrame) :
  let weights := contract_county_weights enrollment_union in
  In f (FullStars.contract_year_model_frame_fullstars stars poverty rural hpsa
          (FullStars.contract_year_geo_concentration weights)
          (FullStars.contract_year_enrollment weights)) ->
  FullStars.core_complete f = true ->
  exists t, FullStars.total_enrollment f = Some t /\ 1 <= t.
Proof.
  intros weights Hf Hc. apply core_complete_fields in Hc.
  destruct Hc as [_ [_ [_ [_ [_ [_ [_ [_ Hn]]]]]]]].
  exact (pipeline_row_with_counties_has_enrollment f Hf Hn).
Qed.

(** A row handed to the fit is a complete row of the frame, as it is. *)
Lemma pipeline_fitted_row (g : FullStars.ModelFrame) :
  let weights := contract_county_weights enrollment_union in
  let frame :=
    FullStars.contract_year_model_frame_fullstars stars poverty rural hpsa
      (FullStars.contract_year_geo_concentration weights)
      (FullStars.contract_year_enrollment weights) in
  In g (FullStars.fitted_rows frame) ->
  In g frame /\ FullStars.core_complete g = true /\
  exists t, FullStars.total_enrollment g = Some t /\ 1 <= t /\
            FullStars.fill_enrollment g = g.
Proof.
  intros weights frame Hg.
  apply fitted_rows_In in Hg. destruct Hg as [f [Hf [Hc ->]]].
  destruct (pipeline_complete_row_has_enrollment f Hf Hc) as [t [Ht Hle]].
  rewrite (fill_enrollment_unchanged f t Ht Hle).
  split; [exact Hf|]. split; [exact Hc|].
  exists t. split; [exact Ht|]. split; [exact Hle|].
  exact (fill_enrollment_unchanged f t Ht Hle).
Qed.

End PipelineFrame.

(** C6. On the frame that stage 14 builds from the weights of stage 05,
    every row that is missing a required structural feature (an exposure,
    a concentration metric or the enrollment) is dropped before the fit:
    it fails the completeness test, is not among the rows that are kept
    and is not handed to the fit; every row handed to the fit is a row of
    the frame that has all its required features; and a rated row that
    has them all is handed to the fit. *)
Theorem rows_missing_required_feature_are_dropped :
  forall (enrollment_union : list EnrollmentRecord)
         (stars : list NearThreshold.ContractYearStars)
         (poverty rural : list ContractYearExposure)
         (hpsa : list Hpsa.HpsaExposure),
    let weights := contract_county_weights enrollment_union in
    let frame :=
      FullStars.contract_year_model_frame_fullstars stars poverty rural hpsa
        (FullStars.contract_year_geo_concentration weights)
        (FullStars.contract_year_enrollment weights) in
    (forall f, In f frame -> FitSpec.missing_required_feature f = true ->
       FullStars.core_complete f = false /\
       ~ In f (FullStars.dropna_core frame) /\
       ~ FitSpec.used_in_fit frame f) /\
    (forall g, In g (FullStars.fitted_rows frame) ->
       In g frame /\ FitSpec.missing_required_feature g = false) /\
    (forall f, In f frame -> FullStars.stars f <> None ->
       FitSpec.missing_required_feature f = false ->
       In f (FullStars.fitted_rows frame)).
Proof.
  intros eu stars poverty rural hpsa weights frame.
  assert (Hcomplete : forall f, In f frame ->
            FullStars.core_complete f = true ->
            FitSpec.missing_required_feature f = false).
  { intros f Hf Hc.
    destruct (pipeline_complete_row_has_enrollment eu stars poverty rural hpsa
                f Hf Hc) as [t [Ht _]].
    unfold FitSpec.missing_required_feature.
    unfold FullStars.core_complete in Hc. rewrite Ht.
    cbn [FullStars.present]. rewrite andb_true_r.
    destruct (FullStars.present (FullStars.stars f)); [|discriminate Hc].
    cbn [andb] in Hc. rewrite Hc. reflexivity. }
  split; [|split].
  - intros f Hf Hmiss.
    assert (Hc : FullStars.core_complete f = false).
    { destruct (FullStars.core_complete f) eqn:E; [|reflexivity].
      rewrite (Hcomplete f Hf E) in Hmiss. discriminate Hmiss. }
    split; [exact Hc|].
    exact (incomplete_row_not_fitted frame f Hc).
  - intros g Hg.
    destruct (pipeline_fitted_row eu stars poverty rural hpsa g Hg)
      as [Hin [Hc _]].
    split; [exact Hin | exact (Hcomplete g Hin Hc)].
  - intros f Hf Hstars Hmiss.
    assert (Hc : FullStars.core_complete f = true).
    { unfold FitSpec.missing_required_feature in Hmiss.
      apply negb_false_iff in Hmiss.
      apply andb_true_iff in Hmiss. destruct Hmiss as [Hcore _].
      unfold FullStars.core_complete.
      destruct (FullStars.stars f); [|congruence].
      cbn [FullStars.present andb]. exact Hcore. }
    destruct (pipeline_complete_row_has_enrollment eu stars poverty rural hpsa
                f Hf Hc) as [t [Ht Hle]].
    apply fitted_rows_In. exists f. split; [exact Hf|]. split; [exact Hc|].
    symmetry. exact (fill_enrollment_unchanged f t Ht Hle).
Qed.

Lemma rows_missing_required_feature_are_dropped_witness :
  let without_enrollment :=
    FullStars.mkFrame "B" 2024 (Some 4.0) None None None None None None None
                      None None in
  In without_enrollment Scenario.model_frame_AB /\
  FitSpec.missing_required_feature without_enrollment = true /\
  FullStars.core_complete without_enrollment = false /\
  ~ In without_enrollment (FullStars.dropna_core Scenario.model_frame_AB) /\
  ~ FitSpec.used_in_fit Scenario.model_frame_AB without_enrollment.
Proof.
  intros without_enrollment.
  assert (Hin : In without_enrollment Scenario.model_frame_AB).
  { cbv -[Rplus Rmult Ropp ln Q2R]. right; left; reflexivity. }
  split; [exact Hin|]. split; [reflexivity|].
  apply (proj1 (rows_missing_required_feature_are_dropped
                  Scenario.enrollment_A Scenario.stars_AB
                  (Poverty.contract_year_poverty_exposure_clean
                     (contract_county_weights Scenario.enrollment_A)
                     Scenario.poverty_full)
                  (Rural.contract_year_rural_exposure
                     (contract_county_weights Scenario.enrollment_A)
                     Scenario.rucc_A)
                  (Hpsa.contract_year_hpsa_exposure
                     (contract_county_weights Scenario.enrollment_A)
                     Scenario.hpsa_A))).
  - exact Hin.
  - reflexivity.
Defined.

(** C10, as stated, fails on the frame of stage 14: the rating of contract
    B has no enrollment behind it, its [total_enrollment] is missing after
    the joins, and the row is not handed to the fit. *)
Lemma row_without_enrollment_is_excluded :
  ~ (forall f, In f Scenario.model_frame_AB ->
               FullStars.total_enrollment f = None ->
               FitSpec.used_in_fit Scenario.model_frame_AB f).
Proof.
  intros Hclaim.
  destruct (Hclaim (FullStars.mkFrame "B" 2024 (Some 4.0) None None None None
                      None None None None None)) as [_ Hfit].
  - cbv -[Rplus Rmult Ropp ln Q2R]. right; left; reflexivity.
  - reflexivity.
  - apply fitted_rows_In in Hfit. destruct Hfit as [f [_ [Hc Hfill]]].
    apply fill_enrollment_core in Hfill. rewrite <- Hfill in Hc.
    discriminate Hc.
Qed.

(** C10, amended. On the frame that stage 14 builds from the weights of
    stage 05, a row whose [total_enrollment] is missing after the joins
    also lacks its concentration metrics and is excluded from the fit;
    every [total_enrollment] that is present is at least 1; so the
    replacement by 1 and the clipping at 1 change no row that is fitted:
    a fitted row is a row of the frame, unchanged, and its log-enrollment
    feature is the logarithm of its own total. *)
Theorem rows_without_enrollment_are_excluded :
  forall (enrollment_union : list EnrollmentRecord)
         (stars : list NearThreshold.ContractYearStars)
         (poverty rural : list ContractYearExposure)
         (hpsa : list Hpsa.HpsaExposure),
    let weights := contract_county_weights enrollment_union in
    let frame :=
      FullStars.contract_year_model_frame_fullstars stars poverty rural hpsa
        (FullStars.contract_year_geo_concentration weights)
        (FullStars.contract_year_enrollment weights) in
    (forall f, In f frame -> FullStars.total_enrollment f = None ->
       FullStars.f_n_counties f = None /\
       FullStars.core_complete f = false /\
       ~ FitSpec.used_in_fit frame f) /\
    (forall f t, In f frame -> FullStars.total_enrollment f = Some t ->
       1 <= t) /\
    (forall g, In g (FullStars.fitted_rows frame) ->
       In g frame /\
       exists t, FullStars.total_enrollment g = Some t /\ 1 <= t /\
                 FullStars.fill_enrollment g = g /\
                 FullStars.log_enroll g = ln (Q2R t)).
Proof.
  intros eu stars poverty rural hpsa weights frame.
  split; [|split].
  - intros f Hf Hnone.
    assert (Hn : FullStars.f_n_counties f = None).
    { destruct (FullStars.f_n_counties f) as [n|] eqn:En; [|reflexivity].
      destruct (pipeline_row_with_counties_has_enrollment
                  eu stars poverty rural hpsa f Hf) as [t [Ht _]].
      - rewrite En; discriminate.
      - rewrite Ht in Hnone; discriminate Hnone. }
    assert (Hc : FullStars.core_complete f = false).
    { unfold FullStars.core_complete. rewrite Hn.
      cbn [FullStars.present]. apply andb_false_r. }
    split; [exact Hn|]. split; [exact Hc|].
    exact (proj2 (incomplete_row_not_fitted frame f Hc)).
  - intros f t Hf Ht.
    exact (pipeline_row_total_at_least_one eu stars poverty rural hpsa
             f t Hf Ht).
  - intros g Hg.
    destruct (pipeline_fitted_row eu stars poverty rural hpsa g Hg)
      as [Hin [_ [t [Ht [Hle Hfill]]]]].
    split; [exact Hin|]. exists t.
    split; [exact Ht|]. split; [exact Hle|]. split; [exact Hfill|].
    unfold FullStars.log_enroll. rewrite Ht. reflexivity.
Qed.

Lemma rows_without_enrollment_are_excluded_witness :
  let without_enrollment :=
    FullStars.mkFrame "B" 2024 (Some 4.0) None None None None None None None
                      None None in
  In without_enrollment Scenario.model_frame_AB /\
  FullStars.total_enrollment without_enrollment = None /\
  FullStars.f_n_counties without_enrollment = None /\
  FullStars.core_complete without_enrollment = false /\
  ~ FitSpec.used_in_fit Scenario.model_frame_AB without_enrollment.
Proof.
  intros without_enrollment.
  assert (Hin : In without_enrollment Scenario.model_frame_AB).
  { cbv -[Rplus Rmult Ropp ln Q2R]. right; left; reflexivity. }
  split; [exact Hin|]. split; [reflexivity|].
  apply (proj1 (rows_without_enrollment_are_excluded
                  Scenario.enrollment_A Scenario.stars_AB
                  (Poverty.contract_year_poverty_exposure_clean
                     (contract_county_weights Scenario.enrollment_A)
                     Scenario.poverty_full)
                  (Rural.contract_year_rural_exposure
                     (contract_county_weights Scenario.enrollment_A)
                     Scenario.rucc_A)
                  (Hpsa.contract_year_hpsa_exposure
                     (contract_county_weights Scenario.enrollment_A)
                     Scenario.hpsa_A))).
  - exact Hin.
  - reflexivity.
Defined.

(** ** Stage 14: concentration metrics in DOUBLE arithmetic *)

